(** * deepseek.py: the text sanitizer, the bounded conversation buffer,
      the streaming retry loop and the session persister

    A shallow embedding of [src/deepseek.py].  Python strings are lists of
    Unicode code points, bytes are integers, the interpreter state that the
    methods of [TextSanitizer] and [DeepSeekChat] read and write is a record
    [World], and a method is a function from a world to a result (a value or
    a raised exception) and the world it leaves behind.

    What the program reaches outside its own file is a parameter of the
    development: [ftfy.fix_text], the remote completion endpoint, the clock
    and the environment variable DEEPSEEK_HOME. *)

From Stdlib Require Import String Ascii.
From Stdlib Require Import ZArith List Bool Lia Eqdep_dec.
Import ListNotations.
Local Open Scope Z_scope.

(* ================================================================== *)
(** * Part I: the model                                                *)
(* ================================================================== *)

(** ** Code points and strings *)

(** [sys.maxunicode] is 0x10FFFF: a [str] holds code points of that range,
    the surrogate range included. *)
Definition in_unicode (z : Z) : bool := (0 <=? z) && (z <=? 0x10FFFF).

Record codepoint : Type := CodePoint { ord : Z; ord_ok : in_unicode ord = true }.

Definition pystr : Type := list codepoint.

(** [chr(z)]: fails ([ValueError]) outside the range. *)
Definition chr (z : Z) : option codepoint :=
  match in_unicode z as b return in_unicode z = b -> option codepoint with
  | true => fun H => Some (CodePoint z H)
  | false => fun _ => None
  end eq_refl.

(** A total [chr] for literals built by the model itself: U+FFFD outside
    the range, which no use below reaches. *)
Definition chr' (z : Z) : codepoint :=
  match chr z with
  | Some c => c
  | None => CodePoint 0xFFFD eq_refl
  end.

Definition cp_eqb (a b : codepoint) : bool := ord a =? ord b.

Fixpoint pystr_eqb (s t : pystr) : bool :=
  match s, t with
  | [], [] => true
  | a :: s', b :: t' => cp_eqb a b && pystr_eqb s' t'
  | _, _ => false
  end.

(** The character class [[\ud800-\udfff]] of stage 2. *)
Definition is_surrogate (c : codepoint) : bool :=
  (0xD800 <=? ord c) && (ord c <=? 0xDFFF).

(** ** UTF-8 *)

Inductive errors_mode : Type := Strict | Replace.

Definition utf8_encode_ord (c : Z) : list Z :=
  if c <? 0x80 then [c]
  else if c <? 0x800 then
    [Z.lor 0xC0 (Z.shiftr c 6); Z.lor 0x80 (Z.land c 0x3F)]
  else if c <? 0x10000 then
    [Z.lor 0xE0 (Z.shiftr c 12);
     Z.lor 0x80 (Z.land (Z.shiftr c 6) 0x3F);
     Z.lor 0x80 (Z.land c 0x3F)]
  else
    [Z.lor 0xF0 (Z.shiftr c 18);
     Z.lor 0x80 (Z.land (Z.shiftr c 12) 0x3F);
     Z.lor 0x80 (Z.land (Z.shiftr c 6) 0x3F);
     Z.lor 0x80 (Z.land c 0x3F)].

(** [s.encode('utf-8', errors)]: a surrogate cannot be encoded; [Strict]
    raises ([None] here), [Replace] writes a question mark for it. *)
Fixpoint utf8_encode (mode : errors_mode) (s : pystr) : option (list Z) :=
  match s with
  | [] => Some []
  | c :: s' =>
      match utf8_encode mode s' with
      | None => None
      | Some bs =>
          if is_surrogate c then
            match mode with
            | Strict => None
            | Replace => Some (0x3F :: bs)
            end
          else Some (utf8_encode_ord (ord c) ++ bs)
      end
  end.

Definition in_range (lo hi b : Z) : bool := (lo <=? b) && (b <=? hi).

Definition is_cont (b : Z) : bool := in_range 0x80 0xBF b.

Definition cons_cp (z : Z) (rest : option pystr) : option pystr :=
  match chr z, rest with
  | Some c, Some s => Some (c :: s)
  | _, _ => None
  end.

(** [bs.decode('utf-8')], strict: the well-formed byte sequences of the
    Unicode standard (no overlong form, no encoded surrogate, nothing above
    U+10FFFF); [None] stands for [UnicodeDecodeError]. *)
Fixpoint utf8_decode (bs : list Z) : option pystr :=
  match bs with
  | [] => Some []
  | b0 :: r0 =>
      if in_range 0x00 0x7F b0 then cons_cp b0 (utf8_decode r0)
      else if in_range 0xC2 0xDF b0 then
        match r0 with
        | b1 :: r1 =>
            if is_cont b1 then
              cons_cp (Z.lor (Z.shiftl (Z.land b0 0x1F) 6) (Z.land b1 0x3F))
                      (utf8_decode r1)
            else None
        | _ => None
        end
      else if in_range 0xE0 0xEF b0 then
        match r0 with
        | b1 :: b2 :: r2 =>
            if in_range (if b0 =? 0xE0 then 0xA0 else 0x80)
                        (if b0 =? 0xED then 0x9F else 0xBF) b1
               && is_cont b2 then
              cons_cp (Z.lor (Z.shiftl (Z.land b0 0x0F) 12)
                        (Z.lor (Z.shiftl (Z.land b1 0x3F) 6) (Z.land b2 0x3F)))
                      (utf8_decode r2)
            else None
        | _ => None
        end
      else if in_range 0xF0 0xF4 b0 then
        match r0 with
        | b1 :: b2 :: b3 :: r3 =>
            if in_range (if b0 =? 0xF0 then 0x90 else 0x80)
                        (if b0 =? 0xF4 then 0x8F else 0xBF) b1
               && is_cont b2 && is_cont b3 then
              cons_cp (Z.lor (Z.shiftl (Z.land b0 0x07) 18)
                        (Z.lor (Z.shiftl (Z.land b1 0x3F) 12)
                          (Z.lor (Z.shiftl (Z.land b2 0x3F) 6) (Z.land b3 0x3F))))
                      (utf8_decode r3)
            else None
        | _ => None
        end
      else None
  end.

(** ** String literals

    The literals of the source are written here as they are in the source
    file: a Rocq string holds the UTF-8 bytes of the text, which
    [utf8_decode] turns into code points. *)

Fixpoint bytes_of_string (s : string) : list Z :=
  match s with
  | EmptyString => []
  | String a s' => Z.of_N (N_of_ascii a) :: bytes_of_string s'
  end.

Definition py (s : string) : pystr :=
  match utf8_decode (bytes_of_string s) with
  | Some t => t
  | None => []
  end.

(** ** The [unicode_escape] codec and decimal formatting *)

Definition hex_digit (d : Z) : codepoint :=
  chr' (if d <? 10 then 48 + d else 87 + d).

(** [n] lowercase hexadecimal digits of [z], most significant first. *)
Fixpoint hex_digits (n : nat) (z : Z) : pystr :=
  match n with
  | O => []
  | S n' => hex_digits n' (Z.shiftr z 4) ++ [hex_digit (Z.land z 0xF)]
  end.

Definition BACKSLASH : codepoint := chr' 92.

(** One character under [str.encode('unicode_escape')]. *)
Definition unicode_escape_cp (c : codepoint) : pystr :=
  let z := ord c in
  if z =? 92 then [BACKSLASH; BACKSLASH]
  else if z =? 9 then [BACKSLASH; chr' 116]
  else if z =? 10 then [BACKSLASH; chr' 110]
  else if z =? 13 then [BACKSLASH; chr' 114]
  else if (z <? 32) || ((127 <=? z) && (z <? 256)) then
    BACKSLASH :: chr' 120 :: hex_digits 2 z
  else if z <? 256 then [c]
  else if z <? 0x10000 then BACKSLASH :: chr' 117 :: hex_digits 4 z
  else BACKSLASH :: chr' 85 :: hex_digits 8 z.

(** [s.encode('unicode_escape').decode()]: the escape is pure ASCII, so
    decoding it gives the same characters back. *)
Definition unicode_escape (s : pystr) : pystr := flat_map unicode_escape_cp s.

(** [s[-n:]] for a positive [n]. *)
Definition last_n {A : Type} (n : nat) (l : list A) : list A :=
  skipn (length l - n)%nat l.

(** [s[:n]]. *)
Definition first_n {A : Type} (n : nat) (l : list A) : list A := firstn n l.

(** [''.join(parts)]. *)
Definition join (parts : list pystr) : pystr := concat parts.

Definition dec_digit (d : Z) : codepoint := chr' (48 + d).

(** The decimal digits of a natural number, as [str(n)] prints them. *)
Fixpoint dec_digits_fuel (fuel : nat) (z : Z) (acc : pystr) : pystr :=
  match fuel with
  | O => acc
  | S f =>
      let acc' := dec_digit (z mod 10) :: acc in
      if z <? 10 then acc' else dec_digits_fuel f (z / 10) acc'
  end.

Definition str_of_nat (n : nat) : pystr :=
  dec_digits_fuel (S n) (Z.of_nat n) [].

(** [n] decimal digits of [z], zero padded, as [%02d] and the like. *)
Fixpoint pad_digits (n : nat) (z : Z) : pystr :=
  match n with
  | O => []
  | S n' => pad_digits n' (z / 10) ++ [dec_digit (z mod 10)]
  end.

Definition NL : codepoint := chr' 10.

Definition QUESTION_MARK : codepoint := chr' 0x3F.

(** ** Exceptions, results and the clock *)

(** The exception classes the program can meet; all of them derive from
    [Exception].  Signals that do not (KeyboardInterrupt, SystemExit)
    arrive asynchronously and are no part of the model. *)
Inductive exn_class : Type :=
  | UnicodeEncodeError
  | UnicodeDecodeError
  | OSError
  | IndexError
  | AttributeError
  | ValueError
  | OtherException.

(** An exception: its class and [str(e)]. *)
Record exn : Type := Exn { class_of : exn_class; str_of : pystr }.

Definition is_UnicodeEncodeError (e : exn) : bool :=
  match class_of e with
  | UnicodeEncodeError => true
  | _ => false
  end.

Inductive Result (A : Type) : Type :=
  | Ok (a : A)
  | Raise (e : exn).
Arguments Ok {A} a.
Arguments Raise {A} e.

Record datetime : Type := DateTime {
  year : Z; month : Z; day : Z;
  hour : Z; minute : Z; second : Z; microsecond : Z
}.

(** [strftime("%Y%m%d_%H%M%S")]. *)
Definition strftime_stamp (d : datetime) : pystr :=
  pad_digits 4 (year d) ++ pad_digits 2 (month d) ++ pad_digits 2 (day d)
  ++ py "_"
  ++ pad_digits 2 (hour d) ++ pad_digits 2 (minute d) ++ pad_digits 2 (second d).

(** [isoformat()]: the microseconds are printed when they are not zero. *)
Definition isoformat (d : datetime) : pystr :=
  pad_digits 4 (year d) ++ py "-" ++ pad_digits 2 (month d) ++ py "-"
  ++ pad_digits 2 (day d) ++ py "T"
  ++ pad_digits 2 (hour d) ++ py ":" ++ pad_digits 2 (minute d) ++ py ":"
  ++ pad_digits 2 (second d)
  ++ (if microsecond d =? 0 then [] else py "." ++ pad_digits 6 (microsecond d)).

Definition NONE_TEXT : pystr := Eval vm_compute in py "None".

(** [f"{x}"] for a value that is a [str] or [None]. *)
Definition fmt_opt (x : option pystr) : pystr :=
  match x with
  | Some s => s
  | None => NONE_TEXT
  end.

(** ** Messages, files and the world *)

Inductive Role : Type := system | user | assistant.

Definition role_str (r : Role) : pystr :=
  match r with
  | system => py "system"
  | user => py "user"
  | assistant => py "assistant"
  end.

Definition is_user (r : Role) : bool :=
  match r with
  | user => true
  | _ => false
  end.

(** [{"role": ..., "content": ...}] *)
Record Message : Type := Msg { role : Role; content : pystr }.

(** The record [_log_error] builds. *)
Record error_info : Type := ErrorInfo {
  timestamp : pystr;
  original : pystr;
  cleaned : pystr
}.

(** The object [save_conversation] dumps as JSON. *)
Record Artifact : Type := MkArtifact {
  created_at : pystr;
  model : pystr;
  message_count : Z;
  saved_messages : list Message
}.

(** What one write puts into a file. *)
Inductive fitem : Type :=
  | LogLine (e : error_info)
  | JsonDoc (a : Artifact)
  | Text (s : pystr).

(** The file system: the files with what was written to each, the
    directories, and whether it refuses writes (a read-only or full disk, a
    directory without write permission), in which case [open] for writing
    and [os.makedirs] raise [OSError]. *)
Record FileSystem : Type := MkFS {
  files : list (pystr * list fitem);
  dirs : list pystr;
  read_only : bool
}.

(** A request sent to the completion endpoint.  The model name, the
    temperature, the token ceiling and the timeout are constants of the
    source and are left out. *)
Inductive api_call : Type :=
  | StreamCall (msgs : list Message)
  | TitleCall (msgs : list Message).

(** What the endpoint does with a streaming request: it refuses the
    request, or it yields the [delta.content] of each chunk and then ends
    normally ([None]) or with an exception.  An exception of the terminal
    while a fragment is printed has the same shape. *)
Inductive stream_reply : Type :=
  | CreateRaises (e : exn)
  | Streams (chunks : list (option pystr)) (fin : option exn).

(** What it does with the title request: an exception, or
    [choices[0].message.content]. *)
Inductive title_reply : Type :=
  | TitleRaises (e : exn)
  | TitleContent (c : option pystr).

Record World : Type := MkWorld {
  messages : list Message;        (* DeepSeekChat.messages *)
  error_log : list error_info;    (* TextSanitizer.error_log *)
  stdout : list pystr;            (* what print wrote, one entry per call *)
  fs : FileSystem;
  ticks : nat;                    (* how often the clock was read *)
  calls : list api_call           (* the requests sent so far *)
}.

Definition set_messages (ms : list Message) (w : World) : World :=
  MkWorld ms (error_log w) (stdout w) (fs w) (ticks w) (calls w).

Definition set_error_log (l : list error_info) (w : World) : World :=
  MkWorld (messages w) l (stdout w) (fs w) (ticks w) (calls w).

Definition set_stdout (o : list pystr) (w : World) : World :=
  MkWorld (messages w) (error_log w) o (fs w) (ticks w) (calls w).

Definition set_fs (f : FileSystem) (w : World) : World :=
  MkWorld (messages w) (error_log w) (stdout w) f (ticks w) (calls w).

Definition set_ticks (n : nat) (w : World) : World :=
  MkWorld (messages w) (error_log w) (stdout w) (fs w) n (calls w).

Definition set_calls (c : list api_call) (w : World) : World :=
  MkWorld (messages w) (error_log w) (stdout w) (fs w) (ticks w) c.

Fixpoint fs_lookup (path : pystr) (fl : list (pystr * list fitem))
  : option (list fitem) :=
  match fl with
  | [] => None
  | (p, c) :: r => if pystr_eqb p path then Some c else fs_lookup path r
  end.

(** Replace the content of [path] by [f] of what is there. *)
Fixpoint fs_update (path : pystr) (f : option (list fitem) -> list fitem)
    (fl : list (pystr * list fitem)) : list (pystr * list fitem) :=
  match fl with
  | [] => [(path, f None)]
  | (p, c) :: r =>
      if pystr_eqb p path then (p, f (Some c)) :: r
      else (p, c) :: fs_update path f r
  end.

Definition append_items (items : list fitem) (old : option (list fitem))
  : list fitem :=
  match old with
  | Some c => c ++ items
  | None => items
  end.

(** ** The monad of methods: state, and exceptions that keep the state *)

Definition M (A : Type) : Type := World -> Result A * World.

Definition ret {A : Type} (a : A) : M A := fun w => (Ok a, w).

Definition raise {A : Type} (e : exn) : M A := fun w => (Raise e, w).

Definition bind {A B : Type} (m : M A) (k : A -> M B) : M B :=
  fun w =>
    match m w with
    | (Ok a, w') => k a w'
    | (Raise e, w') => (Raise e, w')
    end.

(** [try: m  except Exception as e: h e] *)
Definition try_except {A : Type} (m : M A) (h : exn -> M A) : M A :=
  fun w =>
    match m w with
    | (Ok a, w') => (Ok a, w')
    | (Raise e, w') => h e w'
    end.

Definition get : M World := fun w => (Ok w, w).

Definition modify (f : World -> World) : M unit := fun w => (Ok tt, f w).

Definition lift {A : Type} (r : Result A) : M A := fun w => (r, w).

Declare Scope m_scope.
Delimit Scope m_scope with m.
Notation "x <- c1 ;; c2" := (bind c1 (fun x => c2))
  (at level 61, c1 at next level, right associativity) : m_scope.
Notation "c1 ;; c2" := (bind c1 (fun _ => c2))
  (at level 61, right associativity) : m_scope.
Local Open Scope m_scope.

(** [print] with an empty [end]; a plain [print(s)] passes [s] with its
    newline.  The terminal of the model takes every text.  A [print] that
    raises inside the [try] of [stream_chat] is one of the exceptions a
    stream can end with (see [stream_reply]); a [print] that raises in a
    handler or in a [finally] block is outside the model, so where a
    statement says that a method that prints returns, it is on a terminal
    that takes what is printed. *)
Definition print (s : pystr) : M unit :=
  modify (fun w => set_stdout (stdout w ++ [s]) w).

Definition LOG_PATH : pystr := Eval vm_compute in py "char_errors.log".

Definition os_error (path : pystr) : exn :=
  Exn OSError (py "[Errno 30] Read-only file system: '" ++ path ++ py "'").

(** [open(path, 'a')] and the writes of its block. *)
Definition open_append (path : pystr) (items : list fitem) : M unit :=
  fun w =>
    if read_only (fs w) then (Raise (os_error path), w)
    else (Ok tt,
          set_fs (MkFS (fs_update path (append_items items) (files (fs w)))
                       (dirs (fs w)) (read_only (fs w))) w).

(** [open(path, 'w')]: the file is created, or emptied. *)
Definition open_write (path : pystr) : M unit :=
  fun w =>
    if read_only (fs w) then (Raise (os_error path), w)
    else (Ok tt,
          set_fs (MkFS (fs_update path (fun _ => []) (files (fs w)))
                       (dirs (fs w)) (read_only (fs w))) w).

(** A write to a file that is open. *)
Definition file_write (path : pystr) (item : fitem) : M unit :=
  modify (fun w =>
    set_fs (MkFS (fs_update path (append_items [item]) (files (fs w)))
                 (dirs (fs w)) (read_only (fs w))) w).

Definition path_exists (path : pystr) : M bool :=
  fun w =>
    (Ok (existsb (pystr_eqb path) (dirs (fs w))
         || existsb (fun f => pystr_eqb path (fst f)) (files (fs w))), w).

Definition makedirs (path : pystr) : M unit :=
  fun w =>
    if read_only (fs w) then (Raise (os_error path), w)
    else (Ok tt,
          set_fs (MkFS (files (fs w)) (dirs (fs w) ++ [path])
                       (read_only (fs w))) w).

(** ** The constants of the source *)

Definition SENTINEL : pystr := Eval vm_compute in py "[内容包含无法解析的字符]".

Definition SYSTEM_PROMPT : pystr := Eval vm_compute in
  py "你是一个命令行 AI 助手，回答需要简洁明了，使用中文，并且避免使用 Markdown 格式。请直接回答用户的问题，不要添加额外的说明或格式化内容。".

Definition TITLE_PROMPT : pystr := Eval vm_compute in
  py "你是一个专业的对话标题生成器，请根据以下对话内容生成一个简洁的中文标题，不超过15个字，不要使用任何标点符号。直接返回标题，不要解释。".

Definition BACKSLASH_U : pystr := Eval vm_compute in py "\u".

Definition ADVISORY : pystr := Eval vm_compute in
  NL :: py "超过最大重试次数，建议开启新对话" ++ [NL].

Definition ASSISTANT_PROMPT : pystr := Eval vm_compute in py "assistant：".

Definition REQUEST_FAILED : pystr := Eval vm_compute in NL :: py "请求出错：".

Definition TITLE_FAILED : pystr := Eval vm_compute in py "标题生成失败：".

Definition MODEL_NAME : pystr := Eval vm_compute in py "deepseek-chat".

Definition JSON_DIR : pystr := Eval vm_compute in py "/json".

Definition TXT_DIR : pystr := Eval vm_compute in py "/txt".

Definition JSON_PREFIX : pystr := Eval vm_compute in py "/json/".

Definition TXT_PREFIX : pystr := Eval vm_compute in py "/txt/".

Definition JSON_SUFFIX : pystr := Eval vm_compute in py ".json".

Definition TXT_SUFFIX : pystr := Eval vm_compute in py ".txt".

Definition UNDERSCORE : pystr := Eval vm_compute in py "_".

Definition NONE_HAS_NO_STRIP : exn :=
  Exn AttributeError (py "'NoneType' object has no attribute 'strip'").

Definition UNDECODABLE : exn :=
  Exn UnicodeDecodeError (py "'utf-8' codec can't decode bytes").

Definition UNENCODABLE : exn :=
  Exn UnicodeEncodeError (py "'utf-8' codec can't encode character").

(** ** The pure steps of [TextSanitizer.sanitize] *)

(** The replacement function of stage 2,
    [lambda m: f'\\u{m.group(0).encode("unicode_escape").decode()[-4:]}']. *)
Definition replace_surrogate (c : codepoint) : pystr :=
  BACKSLASH_U ++ last_n 4 (unicode_escape [c]).

(** Stage 2: [re.sub(r'[\ud800-\udfff]', ..., text)]. *)
Definition re_sub_surrogates (text : pystr) : pystr :=
  flat_map (fun c => if is_surrogate c then replace_surrogate c else [c]) text.

(** Stage 3: [text.encode('utf-8', 'replace').decode('utf-8')]. *)
Definition utf8_round_trip (text : pystr) : Result pystr :=
  match utf8_encode Replace text with
  | None => Raise UNENCODABLE
  | Some bs =>
      match utf8_decode bs with
      | Some t => Ok t
      | None => Raise UNDECODABLE
      end
  end.

(** ** [_sanitize_filename] *)

(** [str.isspace] of one character. *)
Definition py_isspace (c : codepoint) : bool :=
  let z := ord c in
  in_range 0x09 0x0D z || in_range 0x1C 0x20 z || (z =? 0x85) || (z =? 0xA0)
  || (z =? 0x1680) || in_range 0x2000 0x200A z || (z =? 0x2028)
  || (z =? 0x2029) || (z =? 0x202F) || (z =? 0x205F) || (z =? 0x3000).

Fixpoint lstrip (s : pystr) : pystr :=
  match s with
  | [] => []
  | c :: s' => if py_isspace c then lstrip s' else s
  end.

(** [s.strip()]. *)
Definition strip (s : pystr) : pystr := rev (lstrip (rev (lstrip s))).

(** The characters [[一-龥a-zA-Z0-9_ ]] that the filter keeps. *)
Definition filename_char (c : codepoint) : bool :=
  let z := ord c in
  in_range 0x4E00 0x9FA5 z || in_range 97 122 z || in_range 65 90 z
  || in_range 48 57 z || (z =? 95) || (z =? 32).

Definition _sanitize_filename (title : pystr) : pystr :=
  let cleaned := filter filename_char title in
  first_n 30 (strip cleaned).

(** ** The transcript *)

Definition role_label (r : Role) : pystr :=
  if is_user r then py "用户" else py "助手".

(** [f"[{idx//2+1}] {role}：{msg['content']}\n"] *)
Definition transcript_line (idx : nat) (msg : Message) : pystr :=
  py "[" ++ str_of_nat (idx / 2 + 1) ++ py "] " ++ role_label (role msg)
  ++ py "：" ++ content msg ++ [NL].

Definition transcript_header (stamp : pystr) : pystr :=
  py "DeepSeek 对话记录 (" ++ stamp ++ py ")" ++ [NL].

Definition transcript_rule : pystr := repeat (chr' 61) 50 ++ [NL].

Fixpoint transcript_lines (idx : nat) (msgs : list Message) : list pystr :=
  match msgs with
  | [] => []
  | msg :: rest => transcript_line idx msg :: transcript_lines (S idx) rest
  end.

(** [f"{msg['role']}: {msg['content']}"] joined by newlines. *)
Fixpoint title_sample (msgs : list Message) : pystr :=
  match msgs with
  | [] => []
  | [msg] => role_str (role msg) ++ py ": " ++ content msg
  | msg :: rest =>
      role_str (role msg) ++ py ": " ++ content msg ++ [NL] ++ title_sample rest
  end.

(** [f"\n编码错误，正在重试({attempt}/{max_retries})..."] and the newline of
    [print]. *)
Definition retry_notice (attempt max_retries : nat) : pystr :=
  NL :: py "编码错误，正在重试(" ++ str_of_nat attempt ++ py "/"
  ++ str_of_nat max_retries ++ py ")..." ++ [NL].

(** ** The methods *)

Section Program.

(** [ftfy.fix_text(text, normalization='NFKC')]: a library outside the
    repository; a function from text to text that may raise. *)
Variable fix_text : pystr -> Result pystr.

(** [datetime.now()] at each reading of the clock. *)
Variable clock : nat -> datetime.

(** The endpoint: what it answers to the request that follows [n] earlier
    ones, when asked to stream and when asked for a title. *)
Variable stream_reply_of : nat -> stream_reply.
Variable title_reply_of : nat -> title_reply.

(** [os.getenv("DEEPSEEK_HOME")]. *)
Variable home : option pystr.

Definition datetime_now : M datetime :=
  fun w => (Ok (clock (ticks w)), set_ticks (S (ticks w)) w).

(** [TextSanitizer._log_error] *)
Definition _log_error (original cleaned : pystr) : M unit :=
  now <- datetime_now ;;
  let error_info :=
    ErrorInfo (isoformat now) (unicode_escape original) (unicode_escape cleaned) in
  modify (fun w => set_error_log (error_log w ++ [error_info]) w) ;;
  open_append LOG_PATH [LogLine error_info].

(** [TextSanitizer.sanitize] on a [str]. *)
Definition sanitize_str (text : pystr) : M pystr :=
  match text with
  | [] => ret text
  | _ :: _ =>
      let original := text in
      try_except
        (text1 <- lift (fix_text text) ;;
         let text2 := re_sub_surrogates text1 in
         text3 <- lift (utf8_round_trip text2) ;;
         (if negb (pystr_eqb original text3)
          then _log_error original text3 else ret tt) ;;
         ret text3)
        (fun e =>
           _log_error original (str_of e) ;;
           ret SENTINEL)
  end.

(** [TextSanitizer.sanitize]: the argument is a [str] or [None]; [None] and
    the empty string are falsy and are returned as they are. *)
Definition sanitize (text : option pystr) : M (option pystr) :=
  match text with
  | None => ret None
  | Some s => r <- sanitize_str s ;; ret (Some r)
  end.

(** [TextSanitizer.sanitize_message_history] *)
Fixpoint sanitize_message_history (msgs : list Message) : M (list Message) :=
  match msgs with
  | [] => ret []
  | msg :: rest =>
      c <- sanitize_str (content msg) ;;
      rest' <- sanitize_message_history rest ;;
      ret (Msg (role msg) c :: rest')
  end.

(** [DeepSeekChat._initialize_session] *)
Definition _initialize_session : M unit :=
  msgs <- sanitize_message_history [Msg system SYSTEM_PROMPT] ;;
  modify (set_messages msgs).

(** [DeepSeekChat.__init__]: the key is [os.getenv("DEEPSEEK_API_KEY")]. *)
Definition DeepSeekChat_init (api_key : option pystr) : M unit :=
  match api_key with
  | None | Some [] => raise (Exn ValueError (py "set environment DEEPSEEK_API_KEY"))
  | Some (_ :: _) =>
      modify (set_messages []) ;;
      _initialize_session
  end.

(** [DeepSeekChat.add_message] *)
Definition add_message (role : Role) (content : pystr) : M unit :=
  clean_content <- sanitize_str content ;;
  modify (fun w => set_messages (messages w ++ [Msg role clean_content]) w) ;;
  w <- get ;;
  if (11 <? length (messages w))%nat then
    match messages w with
    | [] => raise (Exn IndexError (py "list index out of range"))
    | m0 :: _ => modify (set_messages (m0 :: last_n 10 (messages w)))
    end
  else ret tt.

(** The loop [for chunk in stream] of [stream_chat]. *)
Fixpoint consume_stream (chunks : list (option pystr))
    (full_response : list pystr) : M (list pystr) :=
  match chunks with
  | [] => ret full_response
  | Some (c :: s) :: rest =>
      clean_content <- sanitize_str (c :: s) ;;
      print clean_content ;;
      consume_stream rest (full_response ++ [clean_content])
  | _ :: rest => consume_stream rest full_response
  end.

(** The [try] block of [stream_chat]. *)
Definition stream_attempt : M unit :=
  w <- get ;;
  safe_messages <- sanitize_message_history (messages w) ;;
  w1 <- get ;;
  modify (set_calls (calls w1 ++ [StreamCall safe_messages])) ;;
  match stream_reply_of (length (calls w1)) with
  | CreateRaises e => raise e
  | Streams chunks fin =>
      print ASSISTANT_PROMPT ;;
      full_response <- consume_stream chunks [] ;;
      match fin with
      | Some e => raise e
      | None =>
          print [NL] ;;
          add_message assistant (join full_response)
      end
  end.

(** The loop of [stream_chat]; [remaining] is [max_retries - attempt], so
    the test [attempt < max_retries] is [remaining <> 0]. *)
Fixpoint stream_loop (remaining attempt max_retries : nat) : M unit :=
  match remaining with
  | O => print ADVISORY
  | S remaining' =>
      try_except stream_attempt
        (fun e =>
           if is_UnicodeEncodeError e then
             let attempt := S attempt in
             print (retry_notice attempt max_retries) ;;
             w <- get ;;
             msgs <- sanitize_message_history (messages w) ;;
             modify (set_messages msgs) ;;
             stream_loop remaining' attempt max_retries
           else
             error_msg <- sanitize_str (REQUEST_FAILED ++ str_of e) ;;
             print (error_msg ++ [NL]))
  end.

(** [DeepSeekChat.stream_chat] *)
Definition stream_chat (max_retries : nat) : M unit :=
  stream_loop max_retries 0 max_retries.

(** [DeepSeekChat.should_save_conversation] *)
Definition should_save_conversation : M bool :=
  w <- get ;;
  ret (5 <=? length (messages w))%nat.

(** [DeepSeekChat._generate_title] *)
Definition _generate_title : M (option pystr) :=
  try_except
    (w <- get ;;
     let sample_msgs := firstn 2 (skipn 1 (messages w)) in
     match sample_msgs with
     | [] => ret None
     | _ :: _ =>
         let title_prompt :=
           [Msg system TITLE_PROMPT; Msg user (title_sample sample_msgs)] in
         modify (set_calls (calls w ++ [TitleCall title_prompt])) ;;
         match title_reply_of (length (calls w)) with
         | TitleRaises e => raise e
         | TitleContent None => raise NONE_HAS_NO_STRIP
         | TitleContent (Some c) =>
             let raw_title := strip c in
             ret (Some (_sanitize_filename raw_title))
         end
     end)
    (fun e =>
       print (TITLE_FAILED ++ str_of e ++ [NL]) ;;
       ret None).

Definition ensure_directory (directory : pystr) : M unit :=
  present <- path_exists directory ;;
  if negb present then makedirs directory else ret tt.

Fixpoint write_lines (path : pystr) (lines : list pystr) : M unit :=
  match lines with
  | [] => ret tt
  | l :: rest => file_write path (Text l) ;; write_lines path rest
  end.

(** [f"{self.home}/json/{base_name}.json"] *)
Definition json_path_of (base_name : pystr) : pystr :=
  fmt_opt home ++ JSON_PREFIX ++ base_name ++ JSON_SUFFIX.

(** [f"{self.home}/txt/{base_name}.txt"] *)
Definition txt_path_of (base_name : pystr) : pystr :=
  fmt_opt home ++ TXT_PREFIX ++ base_name ++ TXT_SUFFIX.

(** [f"{self._generate_title()}_{timestamp}"] *)
Definition base_name_of (title : option pystr) (timestamp : pystr) : pystr :=
  fmt_opt title ++ UNDERSCORE ++ timestamp.

(** [DeepSeekChat.save_conversation] *)
Definition save_conversation : M bool :=
  go <- should_save_conversation ;;
  if negb go then ret false
  else
    now <- datetime_now ;;
    let timestamp := strftime_stamp now in
    title <- _generate_title ;;
    let base_name := base_name_of title timestamp in
    ensure_directory (fmt_opt home ++ JSON_DIR) ;;
    ensure_directory (fmt_opt home ++ TXT_DIR) ;;
    let json_path := json_path_of base_name in
    open_write json_path ;;
    created <- datetime_now ;;
    w <- get ;;
    file_write json_path
      (JsonDoc (MkArtifact (isoformat created) MODEL_NAME
                  (Z.of_nat (length (messages w)) - 1)
                  (skipn 1 (messages w)))) ;;
    let txt_path := txt_path_of base_name in
    open_write txt_path ;;
    file_write txt_path (Text (transcript_header timestamp)) ;;
    file_write txt_path (Text transcript_rule) ;;
    write_lines txt_path (transcript_lines 0 (skipn 1 (messages w))) ;;
    ret true.

End Program.

(** ** Sessions *)

(** What a caller can do with a [DeepSeekChat]. *)
Inductive operation : Type :=
  | AddMessage (r : Role) (c : pystr)
  | StreamChat (max_retries : nat)
  | SaveConversation
  | GenerateTitle.

Section Sessions.

Variable fix_text : pystr -> Result pystr.
Variable clock : nat -> datetime.
Variable stream_reply_of : nat -> stream_reply.
Variable title_reply_of : nat -> title_reply.
Variable home : option pystr.

(** A sequence of [add_message] calls, one after the other, whatever each
    of them returns or raises. *)
Fixpoint add_all (turns : list (Role * pystr)) (w : World) : World :=
  match turns with
  | [] => w
  | (r, c) :: rest => add_all rest (snd (add_message fix_text clock r c w))
  end.

(** The world after one operation, whatever it returned or raised. *)
Definition perform (op : operation) (w : World) : World :=
  match op with
  | AddMessage r c => snd (add_message fix_text clock r c w)
  | StreamChat max_retries =>
      snd (stream_chat fix_text clock stream_reply_of max_retries w)
  | SaveConversation => snd (save_conversation clock title_reply_of home w)
  | GenerateTitle => snd (_generate_title title_reply_of w)
  end.

Fixpoint perform_all (ops : list operation) (w : World) : World :=
  match ops with
  | [] => w
  | op :: rest => perform_all rest (perform op w)
  end.

End Sessions.

(** The content of a file, if it is there. *)
Definition file_at (path : pystr) (w : World) : option (list fitem) :=
  fs_lookup path (files (fs w)).

(** A history within its bound whose entry 0 is a system message. *)
Definition anchored (ms : list Message) : Prop :=
  (length ms <= 11)%nat /\ exists c rest, ms = Msg system c :: rest.

(** ** What the methods compute, as functions

    The value each method returns and the history it leaves, written as
    pure functions: the properties of Part II relate the methods to them. *)

(** Text that UTF-8 can encode: no code point of the surrogate range. *)
Definition well_formed (s : pystr) : bool :=
  forallb (fun c => negb (is_surrogate c)) s.

(** The value of a hexadecimal digit, and of a string of them
    ([int(s, 16)] for lowercase digits). *)
Definition hex_digit_value (c : codepoint) : option Z :=
  let z := ord c in
  if in_range 48 57 z then Some (z - 48)
  else if in_range 97 102 z then Some (z - 87)
  else None.

Fixpoint hex_value_from (acc : Z) (s : pystr) : option Z :=
  match s with
  | [] => Some acc
  | c :: r =>
      match hex_digit_value c with
      | Some d => hex_value_from (16 * acc + d) r
      | None => None
      end
  end.

Definition hex_value (s : pystr) : option Z := hex_value_from 0 s.

Section Values.

Variable fix_text : pystr -> Result pystr.

(** The text [sanitize] returns for a [str] when nothing escapes it. *)
Definition sanitize_text (s : pystr) : pystr :=
  match s with
  | [] => []
  | _ :: _ =>
      match fix_text s with
      | Ok t => re_sub_surrogates t
      | Raise _ => SENTINEL
      end
  end.

(** Whether [sanitize] writes a record to its log: the text changed, or
    the pipeline raised. *)
Definition needs_log (s : pystr) : bool :=
  match s with
  | [] => false
  | _ :: _ =>
      match fix_text s with
      | Ok t => negb (pystr_eqb s (re_sub_surrogates t))
      | Raise _ => true
      end
  end.

Definition sanitize_value (x : option pystr) : option pystr :=
  match x with
  | None => None
  | Some s => Some (sanitize_text s)
  end.

Definition sanitize_history_text (msgs : list Message) : list Message :=
  map (fun m => Msg (role m) (sanitize_text (content m))) msgs.

(** The history after [k] rounds of [sanitize_message_history]. *)
Definition resanitized (k : nat) (ms : list Message) : list Message :=
  Nat.iter k sanitize_history_text ms.

(** The fragments a stream leaves in [full_response]. *)
Fixpoint clean_fragments (chunks : list (option pystr)) : list pystr :=
  match chunks with
  | [] => []
  | Some (c :: s) :: rest => sanitize_text (c :: s) :: clean_fragments rest
  | _ :: rest => clean_fragments rest
  end.

(** The message a call [add_message(role, content)] stores. *)
Definition clean_turn (turn : Role * pystr) : Message :=
  Msg (fst turn) (sanitize_text (snd turn)).

End Values.

(** The history after a message is appended and the window enforced. *)
Definition push_message (m : Message) (ms : list Message) : list Message :=
  let ms' := ms ++ [m] in
  if (11 <? length ms')%nat then
    match ms' with
    | [] => ms'
    | m0 :: _ => m0 :: last_n 10 ms'
    end
  else ms'.

(** The exception a reply ends with, if any, and whether it is an encoding
    error. *)
Definition failure_of (r : stream_reply) : option exn :=
  match r with
  | CreateRaises e => Some e
  | Streams _ fin => fin
  end.

Definition encoding_failed (r : stream_reply) : bool :=
  match failure_of r with
  | Some e => is_UnicodeEncodeError e
  | None => false
  end.

(** What one attempt of [stream_chat] prints. *)
Definition attempt_display (fix_text : pystr -> Result pystr)
    (reply : stream_reply) : list pystr :=
  match reply with
  | CreateRaises _ => []
  | Streams chunks fin =>
      ASSISTANT_PROMPT :: clean_fragments fix_text chunks
        ++ match fin with
           | None => [[NL]]
           | Some _ => []
           end
  end.

(** The assistant message a completed stream adds: [add_message] sanitizes
    the joined fragments once more. *)
Definition assistant_reply (fix_text : pystr -> Result pystr)
    (chunks : list (option pystr)) : Message :=
  Msg assistant (sanitize_text fix_text (join (clean_fragments fix_text chunks))).

(** The history after one attempt: a stream that ends normally adds its
    message, any other reply adds nothing. *)
Definition attempt_history (fix_text : pystr -> Result pystr)
    (reply : stream_reply) (ms : list Message) : list Message :=
  match reply with
  | Streams chunks None => push_message (assistant_reply fix_text chunks) ms
  | _ => ms
  end.

Section LoopValues.

Variable fix_text : pystr -> Result pystr.
Variable stream_reply_of : nat -> stream_reply.

(** The history [stream_chat] leaves, when [n] requests were sent before
    the attempt and [remaining] attempts are left. *)
Fixpoint loop_messages (remaining n : nat) (ms : list Message) : list Message :=
  match remaining with
  | O => ms
  | S r =>
      match failure_of (stream_reply_of n) with
      | None => attempt_history fix_text (stream_reply_of n) ms
      | Some e =>
          if is_UnicodeEncodeError e
          then loop_messages r (S n) (sanitize_history_text fix_text ms)
          else ms
      end
  end.

(** What it prints. *)
Fixpoint loop_output (remaining attempt max_retries n : nat) : list pystr :=
  match remaining with
  | O => [ADVISORY]
  | S r =>
      attempt_display fix_text (stream_reply_of n)
      ++ match failure_of (stream_reply_of n) with
         | None => []
         | Some e =>
             if is_UnicodeEncodeError e
             then retry_notice (S attempt) max_retries
                  :: loop_output r (S attempt) max_retries (S n)
             else [sanitize_text fix_text (REQUEST_FAILED ++ str_of e) ++ [NL]]
         end
  end.

(** The requests it sends. *)
Fixpoint loop_requests (remaining n : nat) (ms : list Message) : list api_call :=
  match remaining with
  | O => []
  | S r =>
      StreamCall (sanitize_history_text fix_text ms)
      :: (if encoding_failed (stream_reply_of n)
          then loop_requests r (S n) (sanitize_history_text fix_text ms)
          else [])
  end.

End LoopValues.





(** The title [_generate_title] returns. *)
Definition title_value (title_reply_of : nat -> title_reply) (w : World)
  : option pystr :=
  match firstn 2 (skipn 1 (messages w)) with
  | [] => None
  | _ :: _ =>
      match title_reply_of (length (calls w)) with
      | TitleContent (Some c) => Some (_sanitize_filename (strip c))
      | _ => None
      end
  end.

(** The two files [save_conversation] writes. *)
Definition json_artifact (clock : nat -> datetime) (w : World) : list fitem :=
  [JsonDoc (MkArtifact (isoformat (clock (S (ticks w)))) MODEL_NAME
              (Z.of_nat (length (messages w)) - 1) (skipn 1 (messages w)))].

Definition transcript (clock : nat -> datetime) (w : World) : list fitem :=
  map Text
    (transcript_header (strftime_stamp (clock (ticks w)))
     :: transcript_rule
     :: transcript_lines 0 (skipn 1 (messages w))).

(** ** The entry point: [get_user_input] and [main] *)

(** What the terminal gives to one call of [input]: a line, or Ctrl-C
    while the program waits at the prompt ([KeyboardInterrupt], for which
    [main] has a handler around the body of its loop; a Ctrl-C at another
    moment is no part of the model).  When nothing is left to read, [input]
    raises [EOFError]. *)
Inductive input_event : Type :=
  | Line (s : pystr)
  | Interrupt.

(** [try: m  finally: f]: [f] runs whatever [m] did; an exception of [f]
    replaces the one in flight. *)
Definition try_finally {A : Type} (m : M A) (f : M unit) : M A :=
  fun w =>
    match m w with
    | (Ok a, w1) =>
        match f w1 with
        | (Ok _, w2) => (Ok a, w2)
        | (Raise e, w2) => (Raise e, w2)
        end
    | (Raise e, w1) =>
        match f w1 with
        | (Ok _, w2) => (Raise e, w2)
        | (Raise e', w2) => (Raise e', w2)
        end
    end.

Definition BANNER : pystr := Eval vm_compute in py "DeepSeek (V3)" ++ [NL; NL].

Definition USER_PROMPT : pystr := Eval vm_compute in py "user:".

Definition INTERRUPTED : pystr := Eval vm_compute in
  NL :: py "Interrupt detected,exit." ++ [NL].

Definition FINAL_HEADER : pystr := Eval vm_compute in
  NL :: py "final conversation history：" ++ [NL].

Definition INIT_FAILURE : pystr := Eval vm_compute in py "program init failure.....：".

Definition EXIT_COMMAND : pystr := Eval vm_compute in py "exit".

Definition QUIT_COMMAND : pystr := Eval vm_compute in py "quit".

(** [EOFError] and [UnboundLocalError]: exceptions of classes the program
    has no handler of their own for, with the messages of Python 3.11. *)
Definition EOF_ERROR : exn := Exn OtherException (py "EOF when reading a line").

Definition UNBOUND_CHAT : exn :=
  Exn OtherException
    (py "cannot access local variable 'chat' where it is not associated with a value").

(** [msg['role'].capitalize()] *)
Definition capitalize_role (r : Role) : pystr :=
  match r with
  | system => py "System"
  | user => py "User"
  | assistant => py "Assistant"
  end.

(** [f"[{idx//2+1}] {msg['role'].capitalize()}: {msg['content']}"] and the
    newline of [print]. *)
Definition history_line (idx : nat) (msg : Message) : pystr :=
  py "[" ++ str_of_nat (idx / 2 + 1) ++ py "] " ++ capitalize_role (role msg)
  ++ py ": " ++ content msg ++ [NL].

(** [f"\ndetected {n} abnormal characters，see char_errors.log"] *)
Definition detected_notice (n : nat) : pystr :=
  NL :: py "detected " ++ str_of_nat n
  ++ py " abnormal characters，see char_errors.log" ++ [NL].

(** [user_input in ('exit', 'quit')] *)
Definition is_command (s : pystr) : bool :=
  pystr_eqb s EXIT_COMMAND || pystr_eqb s QUIT_COMMAND.

Section Main.

Variable fix_text : pystr -> Result pystr.
Variable clock : nat -> datetime.
Variable stream_reply_of : nat -> stream_reply.
Variable title_reply_of : nat -> title_reply.
Variable home : option pystr.

(** [os.getenv("DEEPSEEK_API_KEY")]. *)
Variable api_key : option pystr.

(** [str.lower]: the case mapping of the Unicode tables, which are no part
    of the repository. *)
Variable lower : pystr -> pystr.

(** The events that end the loop of [main]: the commands, in any case of
    the letters, and Ctrl-C. *)
Definition ends_session (event : input_event) : bool :=
  match event with
  | Interrupt => true
  | Line s => is_command (lower s)
  end.

(** [get_user_input]: [input] writes the prompt and reads; [None] stands for
    the [KeyboardInterrupt] of a Ctrl-C at the prompt.  The history that
    [readline.add_history] keeps is no part of the world. *)
Definition get_user_input (prompt : pystr) (next : option input_event)
  : M (option pystr) :=
  print prompt ;;
  match next with
  | None => raise EOF_ERROR
  | Some Interrupt => ret None
  | Some (Line s) => ret (Some s)
  end.

(** The loop [while True] of [main]: it ends normally on a command and on
    Ctrl-C, and with an exception when one escapes the inner [try]. *)
Fixpoint chat_loop (inputs : list input_event) : M unit :=
  match inputs with
  | [] => got <- get_user_input USER_PROMPT None ;; ret tt
  | event :: rest =>
      got <- get_user_input USER_PROMPT (Some event) ;;
      match got with
      | None => print INTERRUPTED
      | Some user_input =>
          if is_command (lower user_input) then ret tt
          else
            match strip user_input with
            | [] => chat_loop rest
            | _ :: _ =>
                add_message fix_text clock user user_input ;;
                stream_chat fix_text clock stream_reply_of 3 ;;
                chat_loop rest
            end
      end
  end.

(** [for idx, msg in enumerate(chat.messages[1:]): print(...)] *)
Fixpoint print_history (idx : nat) (msgs : list Message) : M unit :=
  match msgs with
  | [] => ret tt
  | msg :: rest => print (history_line idx msg) ;; print_history (S idx) rest
  end.

(** The [finally] block when [chat] is bound. *)
Definition report_errors : M unit :=
  w <- get ;;
  match error_log w with
  | [] => ret tt
  | _ :: _ => print (detected_notice (length (error_log w)))
  end.

(** [main].  When the constructor raises, [chat] was never assigned: the
    handler prints, and the [finally] block raises [UnboundLocalError] on
    its first look at [chat].  A run of the program starts from a world
    whose [error_log] is empty, the list [TextSanitizer()] begins with. *)
Definition main (inputs : list input_event) : M unit :=
  fun w =>
    match DeepSeekChat_init fix_text clock api_key w with
    | (Raise e, w1) =>
        try_finally (print (INIT_FAILURE ++ str_of e ++ [NL]))
                    (raise UNBOUND_CHAT) w1
    | (Ok _, w1) =>
        try_finally
          (try_except
             (print BANNER ;;
              chat_loop inputs ;;
              print FINAL_HEADER ;;
              w2 <- get ;;
              print_history 0 (skipn 1 (messages w2)) ;;
              saved <- save_conversation clock title_reply_of home ;;
              ret tt)
             (fun e => print (INIT_FAILURE ++ str_of e ++ [NL])))
          report_errors w1
    end.

End Main.

(** ** More of what the methods compute *)

(** Characters that print in ASCII: no control character, nothing above
    the tilde. *)
Definition printable (c : codepoint) : bool := in_range 32 126 (ord c).

(** A chunk that carries text. *)
Definition has_content (chunk : option pystr) : bool :=
  match chunk with
  | Some (_ :: _) => true
  | _ => false
  end.

(** A history all of whose contents UTF-8 can encode. *)
Definition encodable_history (ms : list Message) : bool :=
  forallb (fun m => well_formed (content m)) ms.

(** The record [_log_error] writes for [original] and [cleaned] when the
    clock was read [n] times before. *)
Definition log_record (clock : nat -> datetime) (n : nat)
    (original cleaned : pystr) : error_info :=
  ErrorInfo (isoformat (clock n)) (unicode_escape original) (unicode_escape cleaned).

(** The record [sanitize] owes its log for [s]: the cleaned text when the
    pipeline returned, the message of the exception when it raised. *)
Definition owed_record (fix_text : pystr -> Result pystr)
    (clock : nat -> datetime) (n : nat) (s : pystr) : error_info :=
  log_record clock n s
    match fix_text s with
    | Ok t => re_sub_surrogates t
    | Raise e => str_of e
    end.

(** A request all of whose message contents UTF-8 can encode. *)
Definition request_encodable (c : api_call) : bool :=
  match c with
  | StreamCall msgs => encodable_history msgs
  | TitleCall msgs => encodable_history msgs
  end.

(** The request [_generate_title] sends for a history. *)
Definition title_request (w : World) : list api_call :=
  match firstn 2 (skipn 1 (messages w)) with
  | [] => []
  | sample =>
      [TitleCall [Msg system TITLE_PROMPT; Msg user (title_sample sample)]]
  end.

(** What [_generate_title] prints: nothing, or one line when no title
    came. *)
Definition title_complaint (title_reply_of : nat -> title_reply) (w : World)
  : list pystr :=
  match firstn 2 (skipn 1 (messages w)) with
  | [] => []
  | _ :: _ =>
      match title_reply_of (length (calls w)) with
      | TitleRaises e => [TITLE_FAILED ++ str_of e ++ [NL]]
      | TitleContent None => [TITLE_FAILED ++ str_of NONE_HAS_NO_STRIP ++ [NL]]
      | TitleContent (Some _) => []
      end
  end.

(** The lines [main] prints for the history. *)
Fixpoint history_lines (idx : nat) (msgs : list Message) : list pystr :=
  match msgs with
  | [] => []
  | msg :: rest => history_line idx msg :: history_lines (S idx) rest
  end.

(** Reading one character back from its escape: what follows a backslash
    says how many hexadecimal digits to take, if any. *)
Definition take_hex (n : nat) (s : pystr) : option (codepoint * pystr) :=
  match hex_value (firstn n s) with
  | Some z =>
      match chr z with
      | Some c => Some (c, skipn n s)
      | None => None
      end
  | None => None
  end.

Definition unescape_one (s : pystr) : option (codepoint * pystr) :=
  match s with
  | [] => None
  | c :: r =>
      if ord c =? 92 then
        match r with
        | [] => None
        | d :: r' =>
            let z := ord d in
            if z =? 92 then Some (BACKSLASH, r')
            else if z =? 116 then Some (chr' 9, r')
            else if z =? 110 then Some (chr' 10, r')
            else if z =? 114 then Some (chr' 13, r')
            else if z =? 120 then take_hex 2 r'
            else if z =? 117 then take_hex 4 r'
            else if z =? 85 then take_hex 8 r'
            else None
        end
      else Some (c, r)
  end.

(** [not user_input.strip()] *)
Definition is_blank (s : pystr) : bool :=
  match strip s with
  | [] => true
  | _ :: _ => false
  end.

(** The lines of the input that are not blank. *)
Definition nonblank_lines (inputs : list input_event) : nat :=
  length
    (filter (fun ev => match ev with
                       | Line s => negb (is_blank s)
                       | Interrupt => false
                       end) inputs).

(** A message of a turn: its role is not [system]. *)
Definition is_turn (m : Message) : bool :=
  match role m with
  | system => false
  | _ => true
  end.

(** A history as [main] builds it: the system message, then at most ten
    messages, each of the user or of the assistant. *)
Definition conversation (ms : list Message) : Prop :=
  exists c rest,
    ms = Msg system c :: rest
    /\ (length rest <= 10)%nat
    /\ forallb is_turn rest = true.

(** The line breaks in a text. *)
Definition line_breaks (s : pystr) : nat :=
  length (filter (fun c => ord c =? 10) s).

(** The text of a file: what was written to it, end to end. *)
Definition file_text (items : list fitem) : pystr :=
  flat_map (fun item => match item with
                        | Text s => s
                        | _ => []
                        end) items.

(** The line breaks inside the contents of messages. *)
Definition content_line_breaks (msgs : list Message) : nat :=
  list_sum (map (fun m => line_breaks (content m)) msgs).

(** What is in the log file. *)
Definition logged (w : World) : list fitem :=
  match file_at LOG_PATH w with
  | Some items => items
  | None => []
  end.

(** ** Test doubles

    Stand-ins for what the program reaches outside its file, used where a
    statement is run on a concrete session. *)

(** A repair stage that finds nothing to repair. *)
Definition fix_text_plain (s : pystr) : Result pystr := Ok s.

Definition fixed_clock (n : nat) : datetime := DateTime 2024 5 6 7 8 9 0.

Definition empty_fs : FileSystem := MkFS [] [] false.

Definition locked_fs : FileSystem := MkFS [] [] true.

Definition blank_world (f : FileSystem) : World := MkWorld [] [] [] f 0 [].

Definition encoding_failure : exn :=
  Exn UnicodeEncodeError (py "'ascii' codec can't encode character").

Definition timeout_failure : exn := Exn OtherException (py "Request timed out.").

Definition broken_fix_text (s : pystr) : Result pystr :=
  Raise (Exn OtherException (py "repair failed")).

(** Text with a lone high surrogate between two letters. *)
Definition lone_surrogate_text : pystr := [chr' 97; chr' 0xD83D; chr' 122].

(** The session right after [_initialize_session]. *)
Definition fresh_session : World :=
  snd (DeepSeekChat_init fix_text_plain fixed_clock (Some (py "sk-test"))
         (blank_world empty_fs)).

(** Alternating turns: the [n]-th user message and the reply to it. *)
Definition question (n : nat) : Role * pystr := (user, py "q" ++ str_of_nat n).

Definition answer (n : nat) : Role * pystr := (assistant, py "a" ++ str_of_nat n).

Fixpoint exchanges (from count : nat) : list (Role * pystr) :=
  match count with
  | O => []
  | S c => question from :: answer from :: exchanges (S from) c
  end.

Definition session_after (turns : list (Role * pystr)) : World :=
  add_all fix_text_plain fixed_clock turns fresh_session.

(** An endpoint that fails twice with an encoding error and then streams
    four chunks, one without content and one empty. *)
Definition flaky_endpoint (n : nat) : stream_reply :=
  match n with
  | 0%nat => CreateRaises encoding_failure
  | 1%nat => Streams [Some (py "par")] (Some encoding_failure)
  | _ => Streams [Some (py "Hel"); None; Some []; Some (py "lo")] None
  end.

(** An endpoint whose every reply fails with an encoding error. *)
Definition garbling_endpoint (n : nat) : stream_reply :=
  CreateRaises encoding_failure.

(** An endpoint that times out in the middle of the stream. *)
Definition stalling_endpoint (n : nat) : stream_reply :=
  Streams [Some (py "par")] (Some timeout_failure).

(** An endpoint that has no title to give. *)
Definition untitled_endpoint (n : nat) : title_reply :=
  TitleRaises timeout_failure.

Definition data_home : option pystr := Some (py "/data").

(** [str.lower] on text whose only cased letters are ASCII. *)
Definition lower_ascii (s : pystr) : pystr :=
  map (fun c => if in_range 65 90 (ord c) then chr' (ord c + 32) else c) s.

(** An endpoint that answers every request with a short stream. *)
Definition helpful_endpoint (n : nat) : stream_reply :=
  Streams [Some (py "Hel"); Some (py "lo")] None.

(** An endpoint that gives a title with a separator, a dot and blanks
    around it. *)
Definition titled_endpoint (n : nat) : title_reply :=
  TitleContent (Some (py " greetings/hello. ")).

Definition test_key : option pystr := Some (py "sk-test").

(** A session at the terminal: two questions, then the command in capital
    letters; what follows it is never read. *)
Definition two_questions : list input_event :=
  [Line (py "q1"); Line (py "  "); Line (py "q2"); Line (py "EXIT");
   Line (py "q3")].

(** *** A repair stage that repairs

    A stand-in for [ftfy.fix_text] with three of the repairs the library
    makes.  It reads the text line by line and unescapes HTML entities
    (here the entity [&lt;]) in the lines it reads before the first one
    that holds [<]; it turns the line breaks of other conventions into a
    line feed; and it replaces a surrogate that has no partner by U+FFFD
    and a pair of surrogates by the code point they encode.  The library's
    other repairs and its normalization are left out. *)

Definition LESS_THAN : codepoint := chr' 60.

Definition REPLACEMENT : codepoint := chr' 0xFFFD.

Fixpoint unescape_lt (s : pystr) : pystr :=
  match s with
  | [] => []
  | a :: t =>
      match t with
      | b :: c :: d :: r =>
          if (ord a =? 38) && (ord b =? 108) && (ord c =? 116) && (ord d =? 59)
          then LESS_THAN :: unescape_lt r
          else a :: unescape_lt t
      | _ => a :: unescape_lt t
      end
  end.

(** CR LF, CR, U+0085, U+2028 and U+2029 become a line feed. *)
Fixpoint fix_line_breaks (s : pystr) : pystr :=
  match s with
  | [] => []
  | a :: t =>
      if ord a =? 13 then
        NL :: match t with
              | b :: r =>
                  if ord b =? 10 then fix_line_breaks r else fix_line_breaks t
              | [] => []
              end
      else if (ord a =? 0x85) || (ord a =? 0x2028) || (ord a =? 0x2029) then
        NL :: fix_line_breaks t
      else a :: fix_line_breaks t
  end.

Fixpoint fix_surrogates (s : pystr) : pystr :=
  match s with
  | [] => []
  | a :: t =>
      if in_range 0xD800 0xDBFF (ord a) then
        match t with
        | b :: r =>
            if in_range 0xDC00 0xDFFF (ord b) then
              chr' (0x10000 + (ord a - 0xD800) * 0x400 + (ord b - 0xDC00))
              :: fix_surrogates r
            else REPLACEMENT :: fix_surrogates t
        | [] => [REPLACEMENT]
        end
      else if in_range 0xDC00 0xDFFF (ord a) then REPLACEMENT :: fix_surrogates t
      else a :: fix_surrogates t
  end.

(** The lines of a text, each with its line feed; [cur] holds the line
    being read, last character first. *)
Fixpoint lines_of (cur : pystr) (s : pystr) : list pystr :=
  match s with
  | [] =>
      match cur with
      | [] => []
      | _ :: _ => [rev cur]
      end
  | a :: t =>
      if ord a =? 10 then rev (a :: cur) :: lines_of [] t
      else lines_of (a :: cur) t
  end.

Definition has_less_than (s : pystr) : bool := existsb (fun c => ord c =? 60) s.

Fixpoint fix_lines (unescape : bool) (segments : list pystr) : pystr :=
  match segments with
  | [] => []
  | segment :: rest =>
      let unescape := unescape && negb (has_less_than segment) in
      fix_surrogates
        (fix_line_breaks (if unescape then unescape_lt segment else segment))
      ++ fix_lines unescape rest
  end.

Definition fix_text_ftfy (s : pystr) : Result pystr :=
  Ok (fix_lines true (lines_of [] s)).

(** An entity, a line separator (U+2028) and a less-than sign: one line
    for the repair stage, two once the separator is a line feed. *)
Definition entity_text : pystr := py "&lt;" ++ chr' 0x2028 :: py "<".

Definition entity_text_repaired : pystr := py "&lt;" ++ NL :: py "<".

Definition entity_text_unescaped : pystr := py "<" ++ NL :: py "<".

(** A session whose user sent [entity_text], with that repair stage. *)
Definition entity_session : World :=
  snd (add_message fix_text_ftfy fixed_clock user entity_text fresh_session).

(** An endpoint that fails with a decoding error. *)
Definition undecodable_endpoint (n : nat) : stream_reply :=
  CreateRaises UNDECODABLE.

(** An endpoint that streams an entity in two fragments. *)
Definition split_entity_endpoint (n : nat) : stream_reply :=
  Streams [Some (py "&l"); Some (py "t;")] None.

(** An endpoint that fails with an encoding error, then times out. *)
Definition retry_then_timeout (n : nat) : stream_reply :=
  match n with
  | 0%nat => CreateRaises encoding_failure
  | _ => CreateRaises timeout_failure
  end.

(** Whether a call returned text. *)
Definition returned_text (r : Result (option pystr)) : bool :=
  match r with
  | Ok (Some _) => true
  | _ => false
  end.

(* ================================================================== *)
(** * Part II: properties                                              *)
(* ================================================================== *)

(** ** Code points *)

Lemma ord_inj (a b : codepoint) : ord a = ord b -> a = b.
Proof.
  destruct a as [x Hx], b as [y Hy]; simpl; intros E; subst y.
  f_equal. apply UIP_dec, bool_dec.
Qed.

Lemma ord_range (c : codepoint) : 0 <= ord c <= 0x10FFFF.
Proof.
  destruct c as [z Hz]; simpl. unfold in_unicode in Hz.
  apply andb_true_iff in Hz. destruct Hz as [H1 H2].
  apply Z.leb_le in H1, H2. lia.
Qed.

Lemma chr_Some (z : Z) (c : codepoint) : chr z = Some c -> ord c = z.
Proof.
  unfold chr.
  generalize (eq_refl (in_unicode z)).
  generalize (in_unicode z) at 2 3.
  intros [] E H; [inversion H; reflexivity | discriminate].
Qed.

Lemma chr_in (z : Z) : 0 <= z <= 0x10FFFF -> exists c, chr z = Some c.
Proof.
  intros Hz. unfold chr.
  generalize (eq_refl (in_unicode z)).
  generalize (in_unicode z) at 2 3.
  intros [] E; [eexists; reflexivity | ].
  exfalso. unfold in_unicode in E.
  apply andb_false_iff in E. destruct E as [E | E]; apply Z.leb_gt in E; lia.
Qed.

Lemma chr_ord (c : codepoint) : chr (ord c) = Some c.
Proof.
  destruct (chr_in (ord c) (ord_range c)) as [c' E].
  rewrite E. f_equal. apply ord_inj. apply (chr_Some _ _ E).
Qed.

Lemma ord_chr' (z : Z) : 0 <= z <= 0x10FFFF -> ord (chr' z) = z.
Proof.
  intros Hz. unfold chr'. destruct (chr_in z Hz) as [c E]. rewrite E.
  apply (chr_Some _ _ E).
Qed.

Lemma cp_eqb_eq (a b : codepoint) : cp_eqb a b = true <-> a = b.
Proof.
  unfold cp_eqb. rewrite Z.eqb_eq. split; [apply ord_inj | congruence].
Qed.

Lemma pystr_eqb_eq (s t : pystr) : pystr_eqb s t = true <-> s = t.
Proof.
  revert t. induction s as [| a s IH]; intros [| b t]; simpl;
    try (split; [discriminate | discriminate]); try tauto.
  rewrite andb_true_iff, cp_eqb_eq, IH. split.
  - intros [-> ->]; reflexivity.
  - intros E; inversion E; auto.
Qed.

Lemma pystr_eqb_refl (s : pystr) : pystr_eqb s s = true.
Proof. apply pystr_eqb_eq; reflexivity. Qed.

Lemma pystr_eqb_neq (s t : pystr) : pystr_eqb s t = false <-> s <> t.
Proof.
  split.
  - intros E H. apply pystr_eqb_eq in H. congruence.
  - intros H. destruct (pystr_eqb s t) eqn:E; [| reflexivity].
    apply pystr_eqb_eq in E. contradiction.
Qed.

(** ** Bit operations as arithmetic *)

Lemma lor_disjoint (a b : Z) (k : Z) :
  0 <= k -> 0 <= b < 2 ^ k -> a mod 2 ^ k = 0 -> Z.lor a b = a + b.
Proof.
  intros Hk Hb Ha.
  assert (L : Z.land a b = 0).
  { apply Z.bits_inj'. intros n Hn.
    rewrite Z.land_spec, Z.bits_0.
    destruct (Z.lt_ge_cases n k) as [Hlt | Hge].
    - assert (Ea : a = 2 ^ k * (a / 2 ^ k)).
      { pose proof (Z.div_mod a (2 ^ k)) as D. lia. }
      rewrite Ea, Z.mul_comm, Z.mul_pow2_bits_low by lia. reflexivity.
    - rewrite <- (Z.mod_small b (2 ^ k)) by lia.
      rewrite Z.mod_pow2_bits_high by lia. apply andb_false_r. }
  rewrite <- Z.lxor_lor by exact L.
  symmetry. apply Z.add_nocarry_lxor. exact L.
Qed.

Lemma land_low (a : Z) (k : Z) : 0 <= k -> Z.land a (Z.ones k) = a mod 2 ^ k.
Proof. intros Hk. apply Z.land_ones. exact Hk. Qed.

Ltac bits_to_arith :=
  repeat rewrite Z.shiftr_div_pow2 by lia;
  repeat rewrite Z.shiftl_mul_pow2 by lia;
  change 0x3F with (Z.ones 6); change 0x1F with (Z.ones 5);
  change 0x0F with (Z.ones 4); change 0x07 with (Z.ones 3);
  repeat rewrite land_low by lia;
  change (2 ^ 3) with 8; change (2 ^ 4) with 16; change (2 ^ 5) with 32;
  change (2 ^ 6) with 64; change (2 ^ 12) with 4096;
  change (2 ^ 18) with 262144.

Ltac arith := Z.div_mod_to_equations; lia.

Lemma lor_cont (h l : Z) : 0 <= l < 64 -> h mod 64 = 0 -> Z.lor h l = h + l.
Proof. intros Hl Hh. apply (lor_disjoint h l 6); [lia | exact Hl | exact Hh]. Qed.

Lemma lor_lead (m : Z) (k : Z) (x : Z) :
  0 <= k -> 0 <= x < 2 ^ k -> m mod 2 ^ k = 0 -> Z.lor m x = m + x.
Proof. intros Hk Hx Hm. apply (lor_disjoint m x k); assumption. Qed.

(** ** UTF-8: decoding what was encoded *)

Lemma utf8_encode_ord_1 (z : Z) : z < 0x80 -> utf8_encode_ord z = [z].
Proof.
  intros H. unfold utf8_encode_ord.
  destruct (Z.ltb_spec z 0x80); [reflexivity | lia].
Qed.

Lemma utf8_encode_ord_2 (z : Z) :
  0x80 <= z < 0x800 -> utf8_encode_ord z = [192 + z / 64; 128 + z mod 64].
Proof.
  intros H. unfold utf8_encode_ord.
  destruct (Z.ltb_spec z 0x80); [lia |].
  destruct (Z.ltb_spec z 0x800); [| lia].
  bits_to_arith.
  rewrite (lor_lead 0xC0 5) by (try reflexivity; arith).
  rewrite (lor_cont 0x80) by (try reflexivity; arith).
  reflexivity.
Qed.

Lemma utf8_encode_ord_3 (z : Z) :
  0x800 <= z < 0x10000 ->
  utf8_encode_ord z = [224 + z / 4096; 128 + (z / 64) mod 64; 128 + z mod 64].
Proof.
  intros H. unfold utf8_encode_ord.
  destruct (Z.ltb_spec z 0x80); [lia |].
  destruct (Z.ltb_spec z 0x800); [lia |].
  destruct (Z.ltb_spec z 0x10000); [| lia].
  bits_to_arith.
  rewrite (lor_lead 0xE0 4) by (try reflexivity; arith).
  rewrite !(lor_cont 0x80) by (try reflexivity; arith).
  reflexivity.
Qed.

Lemma utf8_encode_ord_4 (z : Z) :
  0x10000 <= z <= 0x10FFFF ->
  utf8_encode_ord z =
  [240 + z / 262144; 128 + (z / 4096) mod 64; 128 + (z / 64) mod 64;
   128 + z mod 64].
Proof.
  intros H. unfold utf8_encode_ord.
  destruct (Z.ltb_spec z 0x80); [lia |].
  destruct (Z.ltb_spec z 0x800); [lia |].
  destruct (Z.ltb_spec z 0x10000); [lia |].
  bits_to_arith.
  rewrite (lor_lead 0xF0 3) by (try reflexivity; arith).
  rewrite !(lor_cont 0x80) by (try reflexivity; arith).
  reflexivity.
Qed.

Lemma in_range_true (lo hi b : Z) : lo <= b <= hi -> in_range lo hi b = true.
Proof.
  intros H. unfold in_range. apply andb_true_iff.
  split; apply Z.leb_le; lia.
Qed.

Lemma in_range_false (lo hi b : Z) : b < lo \/ hi < b -> in_range lo hi b = false.
Proof.
  intros H. unfold in_range. apply andb_false_iff.
  destruct H; [left | right]; apply Z.leb_gt; lia.
Qed.

Lemma decode_value_2 (h l : Z) :
  0 <= h < 32 -> 0 <= l < 64 ->
  Z.lor (Z.shiftl (Z.land (192 + h) 0x1F) 6) (Z.land (128 + l) 0x3F)
  = h * 64 + l.
Proof.
  intros Hh Hl. bits_to_arith.
  rewrite lor_cont by arith. arith.
Qed.

Lemma decode_value_3 (h m l : Z) :
  0 <= h < 16 -> 0 <= m < 64 -> 0 <= l < 64 ->
  Z.lor (Z.shiftl (Z.land (224 + h) 0x0F) 12)
    (Z.lor (Z.shiftl (Z.land (128 + m) 0x3F) 6) (Z.land (128 + l) 0x3F))
  = h * 4096 + m * 64 + l.
Proof.
  intros Hh Hm Hl. bits_to_arith.
  rewrite (lor_cont (_ * 64)) by arith.
  rewrite (lor_lead _ 12) by (try lia; change (2 ^ 12) with 4096; arith).
  arith.
Qed.

Lemma decode_value_4 (h a m l : Z) :
  0 <= h < 8 -> 0 <= a < 64 -> 0 <= m < 64 -> 0 <= l < 64 ->
  Z.lor (Z.shiftl (Z.land (240 + h) 0x07) 18)
    (Z.lor (Z.shiftl (Z.land (128 + a) 0x3F) 12)
      (Z.lor (Z.shiftl (Z.land (128 + m) 0x3F) 6) (Z.land (128 + l) 0x3F)))
  = h * 262144 + a * 4096 + m * 64 + l.
Proof.
  intros Hh Ha Hm Hl. bits_to_arith.
  rewrite (lor_cont (_ * 64)) by arith.
  rewrite (lor_lead (_ * 4096) 12) by (try lia; change (2 ^ 12) with 4096; arith).
  rewrite (lor_lead _ 18) by (try lia; change (2 ^ 18) with 262144; arith).
  arith.
Qed.

Lemma is_surrogate_false (c : codepoint) :
  is_surrogate c = false -> ord c < 0xD800 \/ 0xDFFF < ord c.
Proof.
  unfold is_surrogate. intros H. apply andb_false_iff in H.
  destruct H as [H | H]; apply Z.leb_gt in H; lia.
Qed.


Ltac range_tests :=
  repeat match goal with
  | |- context [in_range ?lo ?hi ?b] =>
      first
        [ rewrite (in_range_true lo hi b) by arith
        | rewrite (in_range_false lo hi b) by arith ]
  end.

Lemma utf8_decode_encode_ord (c : codepoint) (bs : list Z) :
  is_surrogate c = false ->
  utf8_decode (utf8_encode_ord (ord c) ++ bs) = cons_cp (ord c) (utf8_decode bs).
Proof.
  intros Hs. apply is_surrogate_false in Hs.
  pose proof (ord_range c) as Hr.
  remember (ord c) as z eqn:Ez. clear Ez.
  destruct (Z.lt_ge_cases z 0x80) as [H1 | H1].
  { rewrite utf8_encode_ord_1 by lia.
    cbn [app utf8_decode]. range_tests. reflexivity. }
  destruct (Z.lt_ge_cases z 0x800) as [H2 | H2].
  { rewrite utf8_encode_ord_2 by lia.
    cbn [app utf8_decode]. unfold is_cont. range_tests.
    rewrite decode_value_2 by arith.
    f_equal. arith. }
  destruct (Z.lt_ge_cases z 0x10000) as [H3 | H3].
  { rewrite utf8_encode_ord_3 by lia.
    cbn [app utf8_decode]. unfold is_cont.
    assert (E0 : (224 + z / 4096 =? 0xE0) = (z / 4096 =? 0)).
    { destruct (Z.eqb_spec (224 + z / 4096) 0xE0), (Z.eqb_spec (z / 4096) 0);
        try reflexivity; lia. }
    assert (ED : (224 + z / 4096 =? 0xED) = (z / 4096 =? 13)).
    { destruct (Z.eqb_spec (224 + z / 4096) 0xED), (Z.eqb_spec (z / 4096) 13);
        try reflexivity; lia. }
    rewrite E0, ED.
    destruct (Z.eqb_spec (z / 4096) 0) as [A | A];
      destruct (Z.eqb_spec (z / 4096) 13) as [B | B];
      try lia; range_tests; cbn [andb];
      rewrite decode_value_3 by arith;
      f_equal; arith. }
  rewrite utf8_encode_ord_4 by lia.
  cbn [app utf8_decode]. unfold is_cont.
  assert (E0 : (240 + z / 262144 =? 0xF0) = (z / 262144 =? 0)).
  { destruct (Z.eqb_spec (240 + z / 262144) 0xF0), (Z.eqb_spec (z / 262144) 0);
      try reflexivity; lia. }
  assert (E4 : (240 + z / 262144 =? 0xF4) = (z / 262144 =? 4)).
  { destruct (Z.eqb_spec (240 + z / 262144) 0xF4), (Z.eqb_spec (z / 262144) 4);
      try reflexivity; lia. }
  rewrite E0, E4.
  destruct (Z.eqb_spec (z / 262144) 0) as [A | A];
    destruct (Z.eqb_spec (z / 262144) 4) as [B | B];
    try lia; range_tests; cbn [andb];
    rewrite decode_value_4 by arith;
    f_equal; arith.
Qed.

Lemma cons_cp_ord (c : codepoint) (s : pystr) :
  cons_cp (ord c) (Some s) = Some (c :: s).
Proof. unfold cons_cp. rewrite chr_ord. reflexivity. Qed.

(** Stage 3 never raises, and changes surrogates only. *)
Lemma utf8_round_trip_total (s : pystr) :
  utf8_round_trip s =
  Ok (map (fun c => if is_surrogate c then QUESTION_MARK else c) s).
Proof.
  unfold utf8_round_trip.
  assert (H : exists bs, utf8_encode Replace s = Some bs /\
    utf8_decode bs =
    Some (map (fun c => if is_surrogate c then QUESTION_MARK else c) s)).
  { induction s as [| c s IH].
    - exists []. split; reflexivity.
    - destruct IH as [bs [E D]]. cbn [utf8_encode map]. rewrite E.
      destruct (is_surrogate c) eqn:Hc.
      + exists (0x3F :: bs). split; [reflexivity |].
        cbn [utf8_decode]. rewrite in_range_true by lia. rewrite D.
        reflexivity.
      + exists (utf8_encode_ord (ord c) ++ bs). split; [reflexivity |].
        rewrite utf8_decode_encode_ord by exact Hc.
        rewrite D. apply cons_cp_ord. }
  destruct H as [bs [E D]]. rewrite E, D. reflexivity.
Qed.

Lemma map_unsurrogate_wf (s : pystr) :
  well_formed s = true ->
  map (fun c => if is_surrogate c then QUESTION_MARK else c) s = s.
Proof.
  induction s as [| c s IH]; simpl; intros H; [reflexivity |].
  apply andb_true_iff in H. destruct H as [Hc Hs].
  apply negb_true_iff in Hc. rewrite Hc, (IH Hs). reflexivity.
Qed.

(** Well-formed text goes through stage 3 unchanged. *)
Lemma utf8_round_trip_wf (s : pystr) :
  well_formed s = true -> utf8_round_trip s = Ok s.
Proof.
  intros H. rewrite utf8_round_trip_total, (map_unsurrogate_wf s H).
  reflexivity.
Qed.

Lemma well_formed_app (s t : pystr) :
  well_formed (s ++ t) = well_formed s && well_formed t.
Proof. unfold well_formed. apply forallb_app. Qed.

Lemma low_not_surrogate (c : codepoint) : ord c < 256 -> is_surrogate c = false.
Proof.
  intros H. unfold is_surrogate. apply andb_false_iff. left.
  apply Z.leb_gt. lia.
Qed.

Definition low (c : codepoint) : Prop := ord c < 256.

Lemma low_well_formed (s : pystr) : Forall low s -> well_formed s = true.
Proof.
  induction 1 as [| c s Hc _ IH]; [reflexivity |].
  simpl. rewrite (low_not_surrogate c Hc), IH. reflexivity.
Qed.

Lemma hex_digit_ord (d : Z) :
  0 <= d < 16 -> ord (hex_digit d) = if d <? 10 then 48 + d else 87 + d.
Proof.
  intros H. unfold hex_digit. apply ord_chr'.
  destruct (Z.ltb_spec d 10); lia.
Qed.

Lemma land_15_range (z : Z) : 0 <= Z.land z 0xF < 16.
Proof. change 0xF with (Z.ones 4). rewrite land_low by lia. arith. Qed.

Lemma hex_digit_low (z : Z) : low (hex_digit (Z.land z 0xF)).
Proof.
  unfold low. pose proof (land_15_range z) as H.
  rewrite hex_digit_ord by exact H.
  destruct (Z.ltb_spec (Z.land z 0xF) 10); lia.
Qed.

Lemma hex_digits_low (n : nat) (z : Z) : Forall low (hex_digits n z).
Proof.
  revert z. induction n as [| n IH]; intros z; simpl; [constructor |].
  apply Forall_app. split; [apply IH |].
  constructor; [apply hex_digit_low | constructor].
Qed.

Lemma hex_digits_length (n : nat) (z : Z) : length (hex_digits n z) = n.
Proof.
  revert z. induction n as [| n IH]; intros z; simpl; [reflexivity |].
  rewrite length_app, IH. simpl. lia.
Qed.

Lemma chr'_low (z : Z) : 0 <= z < 256 -> low (chr' z).
Proof. intros H. unfold low. rewrite ord_chr' by lia. lia. Qed.

Lemma unicode_escape_cp_low (c : codepoint) : Forall low (unicode_escape_cp c).
Proof.
  unfold unicode_escape_cp.
  repeat match goal with
  | |- context [if ?b then _ else _] => destruct b eqn:?
  end;
  repeat first
    [ apply hex_digits_low
    | apply Forall_nil
    | apply Forall_cons
    | apply chr'_low; lia ].
  unfold low. apply Z.ltb_lt. assumption.
Qed.

Lemma unicode_escape_low (s : pystr) : Forall low (unicode_escape s).
Proof.
  unfold unicode_escape. induction s as [| c s IH]; simpl; [constructor |].
  apply Forall_app. split; [apply unicode_escape_cp_low | exact IH].
Qed.

Lemma last_n_Forall {A : Type} (P : A -> Prop) (n : nat) (l : list A) :
  Forall P l -> Forall P (last_n n l).
Proof.
  intros H. unfold last_n. rewrite Forall_forall in *.
  intros x Hx. apply H.
  rewrite <- (firstn_skipn (length l - n) l). apply in_or_app. right. exact Hx.
Qed.

Lemma replace_surrogate_low (c : codepoint) : Forall low (replace_surrogate c).
Proof.
  unfold replace_surrogate. apply Forall_app. split.
  - repeat constructor; unfold low; simpl; lia.
  - apply last_n_Forall, unicode_escape_low.
Qed.

(** Stage 2 leaves no surrogate behind. *)
Lemma re_sub_surrogates_wf (t : pystr) : well_formed (re_sub_surrogates t) = true.
Proof.
  unfold re_sub_surrogates. induction t as [| c t IH]; [reflexivity |].
  cbn [flat_map]. rewrite well_formed_app, IH, andb_true_r.
  destruct (is_surrogate c) eqn:Hc.
  - apply low_well_formed, replace_surrogate_low.
  - simpl. rewrite Hc. reflexivity.
Qed.

(** Stage 2 changes nothing in text without surrogates. *)
Lemma re_sub_surrogates_id (t : pystr) :
  well_formed t = true -> re_sub_surrogates t = t.
Proof.
  unfold re_sub_surrogates.
  induction t as [| c t IH]; simpl; intros H; [reflexivity |].
  apply andb_true_iff in H. destruct H as [Hc Ht].
  apply negb_true_iff in Hc. rewrite Hc, (IH Ht). reflexivity.
Qed.




Lemma hex_digit_value_digit (d : Z) :
  0 <= d < 16 -> hex_digit_value (hex_digit d) = Some d.
Proof.
  intros H. unfold hex_digit_value. cbv zeta. rewrite hex_digit_ord by exact H.
  destruct (Z.ltb_spec d 10).
  - rewrite in_range_true by lia. f_equal. lia.
  - rewrite in_range_false by lia. rewrite in_range_true by lia. f_equal. lia.
Qed.


(** Text without surrogates encodes under the strict handler, and decodes
    to itself. *)
Lemma utf8_strict_round_trip (t : pystr) :
  well_formed t = true ->
  exists bs, utf8_encode Strict t = Some bs /\ utf8_decode bs = Some t.
Proof.
  induction t as [| c t IH]; intros H.
  - exists []. split; reflexivity.
  - cbn in H. apply andb_true_iff in H. destruct H as [Hc Ht].
    apply negb_true_iff in Hc.
    destruct (IH Ht) as (bs & E & D).
    exists (utf8_encode_ord (ord c) ++ bs).
    cbn [utf8_encode]. rewrite E, Hc. split; [reflexivity |].
    rewrite utf8_decode_encode_ord by exact Hc.
    rewrite D. apply cons_cp_ord.
Qed.

Lemma SENTINEL_well_formed : well_formed SENTINEL = true.
Proof. reflexivity. Qed.

Lemma sanitize_text_wf (fix_text : pystr -> Result pystr) (s : pystr) :
  well_formed (sanitize_text fix_text s) = true.
Proof.
  unfold sanitize_text. destruct s as [| c s]; [reflexivity |].
  destruct (fix_text (c :: s)).
  - apply re_sub_surrogates_wf.
  - apply SENTINEL_well_formed.
Qed.

(** ** What the sanitizer leaves alone *)

(** [quiet w w']: from [w] to [w'] the history, the terminal, the requests
    sent and the state of the disk are the same; the sanitizer's log and
    the clock may have moved. *)
Record quiet (w w' : World) : Prop := Quiet {
  quiet_messages : messages w' = messages w;
  quiet_stdout : stdout w' = stdout w;
  quiet_calls : calls w' = calls w;
  quiet_read_only : read_only (fs w') = read_only (fs w)
}.

Lemma quiet_refl (w : World) : quiet w w.
Proof. split; reflexivity. Qed.

Lemma quiet_trans (w1 w2 w3 : World) : quiet w1 w2 -> quiet w2 w3 -> quiet w1 w3.
Proof.
  intros [A B C D] [A' B' C' D']. split; congruence.
Qed.

#[local] Hint Resolve quiet_refl : core.

Section SanitizerProperties.

Variable fix_text : pystr -> Result pystr.
Variable clock : nat -> datetime.

Lemma _log_error_run (o c : pystr) (w : World) :
  exists w',
    _log_error clock o c w =
      ((if read_only (fs w) then Raise (os_error LOG_PATH) else Ok tt), w')
    /\ quiet w w'.
Proof.
  unfold _log_error, bind, datetime_now, modify, open_append. cbn.
  destruct (read_only (fs w)) eqn:E; eexists; (split; [reflexivity |]);
    split; cbn; auto.
Qed.

Lemma sanitize_str_run (s : pystr) (w : World) :
  exists w',
    sanitize_str fix_text clock s w =
      ((if needs_log fix_text s && read_only (fs w)
        then Raise (os_error LOG_PATH)
        else Ok (sanitize_text fix_text s)), w')
    /\ quiet w w'
    /\ (needs_log fix_text s = false -> w' = w).
Proof.
  destruct s as [| c s]; [exists w; repeat split; auto |].
  unfold sanitize_str, sanitize_text, needs_log, try_except, bind, lift, ret.
  destruct (fix_text (c :: s)) as [t | e].
  - rewrite utf8_round_trip_wf by apply re_sub_surrogates_wf.
    destruct (negb (pystr_eqb (c :: s) (re_sub_surrogates t))).
    + destruct (_log_error_run (c :: s) (re_sub_surrogates t) w) as (w1 & E1 & Q1).
      rewrite E1. cbn [andb].
      destruct (read_only (fs w)) eqn:RO.
      * destruct (_log_error_run (c :: s) (str_of (os_error LOG_PATH)) w1)
          as (w2 & E2 & Q2).
        rewrite E2. rewrite (quiet_read_only _ _ Q1), RO.
        exists w2. split; [reflexivity |].
        split; [eapply quiet_trans; eauto | discriminate].
      * exists w1. split; [reflexivity |]. split; [exact Q1 | discriminate].
    + exists w. repeat split; auto.
  - destruct (_log_error_run (c :: s) (str_of e) w) as (w1 & E1 & Q1).
    rewrite E1. cbn [andb].
    destruct (read_only (fs w)) eqn:RO; exists w1;
      (split; [reflexivity |]); (split; [exact Q1 | discriminate]).
Qed.

(** On a disk that takes the log, [sanitize] of a [str] returns. *)
Lemma sanitize_str_ok (s : pystr) (w : World) :
  read_only (fs w) = false ->
  exists w', sanitize_str fix_text clock s w = (Ok (sanitize_text fix_text s), w')
             /\ quiet w w'.
Proof.
  intros RO. destruct (sanitize_str_run s w) as (w' & E & Q & _).
  rewrite RO, andb_false_r in E. exists w'. split; assumption.
Qed.

(** Whatever the disk does: the world stays quiet, and a returned value
    is the sanitized text. *)
Lemma sanitize_str_any (s : pystr) (w : World) :
  exists r w', sanitize_str fix_text clock s w = (r, w') /\ quiet w w'
    /\ (forall v, r = Ok v -> v = sanitize_text fix_text s).
Proof.
  destruct (sanitize_str_run s w) as (w' & E & Q & _).
  rewrite E. do 2 eexists. split; [reflexivity |]. split; [exact Q |].
  destruct (needs_log fix_text s && read_only (fs w)); intros v Hv; congruence.
Qed.

Lemma sanitize_message_history_any (msgs : list Message) (w : World) :
  exists r w', sanitize_message_history fix_text clock msgs w = (r, w')
    /\ quiet w w'
    /\ (forall v, r = Ok v -> v = sanitize_history_text fix_text msgs).
Proof.
  revert w. induction msgs as [| m msgs IH]; intros w.
  - exists (Ok []), w. repeat split; auto. intros v Hv. inversion Hv. reflexivity.
  - cbn [sanitize_message_history]. unfold bind.
    destruct (sanitize_str_any (content m) w) as (r1 & w1 & E1 & Q1 & V1).
    rewrite E1. destruct r1 as [c |e].
    + destruct (IH w1) as (r2 & w2 & E2 & Q2 & V2). rewrite E2.
      destruct r2 as [rest | e].
      * do 2 eexists. split; [reflexivity |].
        split; [eapply quiet_trans; eauto |].
        intros v Hv. inversion Hv. cbn.
        rewrite (V1 c eq_refl), (V2 rest eq_refl). reflexivity.
      * do 2 eexists. split; [reflexivity |].
        split; [eapply quiet_trans; eauto |]. intros v Hv. discriminate.
    + do 2 eexists. split; [reflexivity |]. split; [exact Q1 |].
      intros v Hv. discriminate.
Qed.

Lemma sanitize_message_history_ok (msgs : list Message) (w : World) :
  read_only (fs w) = false ->
  exists w', sanitize_message_history fix_text clock msgs w =
               (Ok (sanitize_history_text fix_text msgs), w')
             /\ quiet w w'.
Proof.
  revert w. induction msgs as [| m msgs IH]; intros w RO.
  - exists w. split; auto.
  - cbn [sanitize_message_history]. unfold bind.
    destruct (sanitize_str_ok (content m) w RO) as (w1 & E1 & Q1). rewrite E1.
    assert (RO1 : read_only (fs w1) = false)
      by (rewrite (quiet_read_only _ _ Q1); exact RO).
    destruct (IH w1 RO1) as (w2 & E2 & Q2). rewrite E2.
    exists w2. split; [reflexivity | eapply quiet_trans; eauto].
Qed.

Lemma consume_stream_ok (chunks : list (option pystr)) (acc : list pystr)
    (w : World) :
  read_only (fs w) = false ->
  exists w',
    consume_stream fix_text clock chunks acc w =
      (Ok (acc ++ clean_fragments fix_text chunks), w')
    /\ messages w' = messages w
    /\ stdout w' = stdout w ++ clean_fragments fix_text chunks
    /\ calls w' = calls w
    /\ read_only (fs w') = false.
Proof.
  revert acc w. induction chunks as [| ch chunks IH]; intros acc w RO.
  - exists w. cbn. rewrite !app_nil_r. repeat split; auto.
  - destruct ch as [[| c s] |]; cbn [consume_stream clean_fragments].
    + apply IH; exact RO.
    + unfold bind.
      destruct (sanitize_str_ok (c :: s) w RO) as (w1 & E1 & Q1). rewrite E1.
      unfold print, modify.
      set (w2 := set_stdout (stdout w1 ++ [sanitize_text fix_text (c :: s)]) w1).
      assert (RO2 : read_only (fs w2) = false)
        by (cbn; rewrite (quiet_read_only _ _ Q1); exact RO).
      destruct (IH (acc ++ [sanitize_text fix_text (c :: s)]) w2 RO2)
        as (w3 & E3 & Hm & Ho & Hc & Hr).
      exists w3. rewrite E3, <- app_assoc. split; [reflexivity |].
      destruct Q1 as [Qm Qo Qc Qr]. cbn in Hm, Ho, Hc.
      rewrite Hm, Ho, Hc, Qm, Qo, Qc, <- app_assoc. repeat split; auto.
    + apply IH; exact RO.
Qed.

(** C1 (as amended).  For every string, the empty one included, [sanitize]
    raises nothing and returns a string that UTF-8 encodes and decodes
    without error, as long as the record it owes its log (if any) can be
    written: the empty string comes back as it is, the sentinel comes back
    when the pipeline raised, and otherwise the repaired text with its
    surrogates escaped.  A missing value ([None]) comes back as [None]. *)
Theorem sanitize_returns_text_or_sentinel (s : pystr) (w : World) :
  needs_log fix_text s && read_only (fs w) = false ->
  exists t w',
    sanitize fix_text clock (Some s) w = (Ok (Some t), w')
    /\ (exists bs, utf8_encode Strict t = Some bs /\ utf8_decode bs = Some t)
    /\ (s = [] -> t = [])
    /\ (s <> [] -> forall e, fix_text s = Raise e -> t = SENTINEL)
    /\ (s <> [] -> forall u, fix_text s = Ok u -> t = re_sub_surrogates u)
    /\ sanitize fix_text clock None w = (Ok None, w).
Proof.
  intros H. destruct (sanitize_str_run s w) as (w' & E & Q & _).
  rewrite H in E.
  exists (sanitize_text fix_text s), w'. unfold sanitize, bind. rewrite E.
  split; [reflexivity |].
  split; [apply utf8_strict_round_trip, sanitize_text_wf |].
  split; [intros ->; reflexivity |].
  split; [| split; [| reflexivity]].
  - intros Hs e He. destruct s; [contradiction |].
    unfold sanitize_text. rewrite He. reflexivity.
  - intros Hs u Hu. destruct s; [contradiction |].
    unfold sanitize_text. rewrite Hu. reflexivity.
Qed.

(** C2 (as amended).  What stages 2 and 3 return, they return unchanged
    when applied to it again; and sanitizing what [sanitize] returned gives
    the same value again, and leaves the world as it is, for every input
    for which the repair stage ([fix_text], a library outside the
    repository) finds nothing more to repair in the sanitized text.  For
    other inputs the second pass can differ from the first. *)
Theorem sanitize_idempotent :
  (forall t : pystr,
     let y := re_sub_surrogates t in
     re_sub_surrogates y = y /\ utf8_round_trip y = Ok y)
  /\
  (forall (x : option pystr) (w : World),
     read_only (fs w) = false ->
     (forall t, sanitize_value fix_text x = Some t -> t <> [] ->
                fix_text t = Ok t) ->
     exists y w1,
       sanitize fix_text clock x w = (Ok y, w1)
       /\ sanitize fix_text clock y w1 = (Ok y, w1)).
Proof.
  split.
  { intros t y. pose proof (re_sub_surrogates_wf t) as Hwf. fold y in Hwf.
    split; [apply re_sub_surrogates_id, Hwf | apply utf8_round_trip_wf, Hwf]. }
  intros x w RO Hfix. destruct x as [s |].
  - destruct (sanitize_str_ok s w RO) as (w1 & E1 & Q1).
    exists (Some (sanitize_text fix_text s)), w1.
    unfold sanitize, bind. rewrite E1. split; [reflexivity |].
    set (t := sanitize_text fix_text s) in *.
    assert (Hwf : well_formed t = true) by apply sanitize_text_wf.
    destruct (sanitize_str_run t w1) as (w2 & E2 & Q2 & Hsame).
    assert (Et : t <> [] -> fix_text t = Ok t) by (apply Hfix; reflexivity).
    assert (Hn : needs_log fix_text t = false).
    { unfold needs_log. destruct t as [| c t']; [reflexivity |].
      rewrite Et by discriminate.
      rewrite (re_sub_surrogates_id _ Hwf), pystr_eqb_refl. reflexivity. }
    assert (Hv : sanitize_text fix_text t = t).
    { unfold sanitize_text. destruct t as [| c t']; [reflexivity |].
      rewrite Et by discriminate. apply re_sub_surrogates_id, Hwf. }
    rewrite Hn in E2. cbn [andb] in E2. rewrite Hv, (Hsame Hn) in E2.
    rewrite E2. reflexivity.
  - exists None, w. split; reflexivity.
Qed.


End SanitizerProperties.

(** ** The window of the conversation buffer *)

Lemma last_n_length {A : Type} (n : nat) (l : list A) :
  length (last_n n l) = Nat.min n (length l).
Proof. unfold last_n. rewrite length_skipn. lia. Qed.

Lemma last_n_all {A : Type} (n : nat) (l : list A) :
  (length l <= n)%nat -> last_n n l = l.
Proof.
  intros H. unfold last_n.
  replace (length l - n)%nat with 0%nat by lia. reflexivity.
Qed.

Lemma last_n_app {A : Type} (n : nat) (a b : list A) :
  last_n n (a ++ b) = last_n (n - length b) a ++ last_n n b.
Proof.
  unfold last_n. rewrite skipn_app, length_app.
  destruct (Nat.le_gt_cases (length b) n) as [H | H].
  - f_equal; f_equal; lia.
  - rewrite !(skipn_all2 a) by lia. cbn [app]. f_equal. lia.
Qed.

Lemma last_n_last_n {A : Type} (k n : nat) (l : list A) :
  (k <= n)%nat -> last_n k (last_n n l) = last_n k l.
Proof.
  intros H. unfold last_n. rewrite skipn_skipn, length_skipn. f_equal. lia.
Qed.

Lemma last_n_app_last_n {A : Type} (n : nat) (a b : list A) :
  last_n n (last_n n a ++ b) = last_n n (a ++ b).
Proof.
  rewrite !last_n_app. f_equal. apply last_n_last_n. lia.
Qed.

(** The window is never longer than eleven entries. *)
Lemma push_message_length (m : Message) (ms : list Message) :
  (length (push_message m ms) <= 11)%nat.
Proof.
  unfold push_message. cbv zeta.
  destruct (Nat.ltb_spec 11 (length (ms ++ [m]))) as [H | H]; [| exact H].
  destruct (ms ++ [m]) as [| m0 l] eqn:E; [simpl in H; lia |].
  cbn [length]. rewrite last_n_length. lia.
Qed.

(** Entry 0 stays where it is. *)
Lemma push_message_head (m m0 : Message) (rest : list Message) :
  exists rest', push_message m (m0 :: rest) = m0 :: rest'.
Proof.
  unfold push_message. cbv zeta. cbn [app].
  destruct (11 <? length (m0 :: rest ++ [m]))%nat; eexists; reflexivity.
Qed.

(** The window: entry 0 and the last ten of what follows it. *)
Lemma push_message_window (m m0 : Message) (rest : list Message) :
  (length rest <= 10)%nat ->
  push_message m (m0 :: rest) = m0 :: last_n 10 (rest ++ [m]).
Proof.
  intros H. unfold push_message. cbv zeta. cbn [app].
  destruct (Nat.ltb_spec 11 (length (m0 :: rest ++ [m]))) as [L | L].
  - f_equal. cbn [length] in L. rewrite length_app in L. cbn in L.
    unfold last_n. cbn [length]. rewrite length_app. cbn [length].
    replace (S (length rest + 1) - 10)%nat with 2%nat by lia.
    replace (length rest + 1 - 10)%nat with 1%nat by lia.
    reflexivity.
  - rewrite last_n_all; [reflexivity |].
    cbn [length] in L. lia.
Qed.


(** Below the bound nothing leaves. *)
Lemma push_message_room (m : Message) (ms : list Message) :
  (length ms < 11)%nat -> push_message m ms = ms ++ [m].
Proof.
  intros H. unfold push_message. cbv zeta.
  destruct (Nat.ltb_spec 11 (length (ms ++ [m]))) as [L | L]; [| reflexivity].
  rewrite length_app in L. cbn in L. lia.
Qed.

Section BufferProperties.

Variable fix_text : pystr -> Result pystr.
Variable clock : nat -> datetime.

(** [add_message] in any world: either it raises and the history is
    untouched, or it returns and the history is the pushed one. *)
Lemma add_message_run (r : Role) (c : pystr) (w : World) :
  exists w',
    add_message fix_text clock r c w =
      ((if needs_log fix_text c && read_only (fs w)
        then Raise (os_error LOG_PATH) else Ok tt), w')
    /\ messages w' =
         (if needs_log fix_text c && read_only (fs w) then messages w
          else push_message (Msg r (sanitize_text fix_text c)) (messages w))
    /\ stdout w' = stdout w
    /\ calls w' = calls w
    /\ read_only (fs w') = read_only (fs w).
Proof.
  unfold add_message, bind.
  destruct (sanitize_str_run fix_text clock c w) as (w1 & E & [Qm Qo Qc Qr] & _).
  rewrite E.
  destruct (needs_log fix_text c && read_only (fs w)).
  - exists w1. repeat split; assumption.
  - unfold modify, get, ret, raise, push_message.
    cbn [messages set_messages]. cbv zeta. rewrite Qm.
    set (ms' := messages w ++ [Msg r (sanitize_text fix_text c)]).
    destruct (11 <? length ms')%nat eqn:L.
    + destruct ms' as [| m0 l]; [discriminate L |].
      eexists. split; [reflexivity |]. cbn. repeat split; assumption.
    + eexists. split; [reflexivity |]. cbn. repeat split; assumption.
Qed.

Lemma add_message_ok (r : Role) (c : pystr) (w : World) :
  read_only (fs w) = false ->
  exists w',
    add_message fix_text clock r c w = (Ok tt, w')
    /\ messages w' = push_message (Msg r (sanitize_text fix_text c)) (messages w)
    /\ stdout w' = stdout w
    /\ calls w' = calls w
    /\ read_only (fs w') = false.
Proof.
  intros RO. destruct (add_message_run r c w) as (w' & E & Hm & Ho & Hc & Hr).
  rewrite RO, andb_false_r in *. exists w'. repeat split; assumption.
Qed.

Lemma add_all_read_only (turns : list (Role * pystr)) (w : World) :
  read_only (fs (add_all fix_text clock turns w)) = read_only (fs w).
Proof.
  revert w. induction turns as [| [r c] turns IH]; intros w; [reflexivity |].
  cbn [add_all]. rewrite IH.
  destruct (add_message_run r c w) as (w' & E & _ & _ & _ & Hr).
  rewrite E. exact Hr.
Qed.

(** The buffer after any calls: entry 0 in place and at most eleven
    entries, in every world. *)
Lemma add_all_invariant (turns : list (Role * pystr)) (w : World)
    (m0 : Message) (rest : list Message) :
  messages w = m0 :: rest ->
  (length (messages w) <= 11)%nat ->
  exists rest', messages (add_all fix_text clock turns w) = m0 :: rest'
                /\ (length (m0 :: rest') <= 11)%nat.
Proof.
  revert w rest. induction turns as [| [r c] turns IH]; intros w rest Hm Hl.
  - exists rest. cbn [add_all]. split; [exact Hm | rewrite <- Hm; exact Hl].
  - cbn [add_all].
    destruct (add_message_run r c w) as (w' & E & Hm' & _).
    rewrite E. cbn [snd].
    destruct (needs_log fix_text c && read_only (fs w)).
    + apply (IH w' rest); congruence.
    + destruct (push_message_head (Msg r (sanitize_text fix_text c)) m0 rest)
        as (rest' & Hp).
      apply (IH w' rest'); [congruence |].
      rewrite Hm'. apply push_message_length.
Qed.

(** The buffer after calls that all went through: entry 0 and the last
    ten of the turn-messages. *)
Lemma add_all_window (turns : list (Role * pystr)) (w : World)
    (m0 : Message) (rest : list Message) :
  read_only (fs w) = false ->
  messages w = m0 :: rest ->
  (length rest <= 10)%nat ->
  messages (add_all fix_text clock turns w) =
  m0 :: last_n 10 (rest ++ map (clean_turn fix_text) turns).
Proof.
  revert w rest. induction turns as [| [r c] turns IH]; intros w rest RO Hm Hl.
  - cbn. rewrite app_nil_r, last_n_all by exact Hl. exact Hm.
  - cbn [add_all map].
    destruct (add_message_ok r c w RO) as (w' & E & Hm' & _ & _ & RO').
    rewrite E. cbn [snd].
    rewrite Hm, push_message_window in Hm' by exact Hl.
    rewrite (IH w' _ RO' Hm') by (rewrite last_n_length; lia).
    f_equal. rewrite last_n_app_last_n, <- app_assoc. reflexivity.
Qed.

End BufferProperties.

(** ** The streaming loop *)

Lemma bind_Ok {A B : Type} (m : M A) (k : A -> M B) (w w1 : World) (a : A) :
  m w = (Ok a, w1) -> bind m k w = k a w1.
Proof. intros E. unfold bind. rewrite E. reflexivity. Qed.

Lemma bind_Raise {A B : Type} (m : M A) (k : A -> M B) (w w1 : World) (e : exn) :
  m w = (Raise e, w1) -> bind m k w = (Raise e, w1).
Proof. intros E. unfold bind. rewrite E. reflexivity. Qed.

Lemma try_except_Ok {A : Type} (m : M A) (h : exn -> M A) (w w1 : World) (a : A) :
  m w = (Ok a, w1) -> try_except m h w = (Ok a, w1).
Proof. intros E. unfold try_except. rewrite E. reflexivity. Qed.

Lemma try_except_Raise {A : Type} (m : M A) (h : exn -> M A) (w w1 : World)
    (e : exn) :
  m w = (Raise e, w1) -> try_except m h w = h e w1.
Proof. intros E. unfold try_except. rewrite E. reflexivity. Qed.

Section StreamProperties.

Variable fix_text : pystr -> Result pystr.
Variable clock : nat -> datetime.
Variable stream_reply_of : nat -> stream_reply.

(** One attempt on a disk that takes the log: the reply decides. *)
Lemma stream_attempt_ok (w : World) :
  read_only (fs w) = false ->
  let reply := stream_reply_of (length (calls w)) in
  exists w',
    stream_attempt fix_text clock stream_reply_of w =
      (match failure_of reply with
       | Some e => Raise e
       | None => Ok tt
       end, w')
    /\ messages w' = attempt_history fix_text reply (messages w)
    /\ stdout w' = stdout w ++ attempt_display fix_text reply
    /\ calls w' = calls w ++ [StreamCall (sanitize_history_text fix_text (messages w))]
    /\ read_only (fs w') = false.
Proof.
  intros RO reply. unfold stream_attempt.
  rewrite (bind_Ok get _ w w w) by reflexivity.
  destruct (sanitize_message_history_ok fix_text clock (messages w) w RO)
    as (w1 & E1 & [Qm Qo Qc Qr]).
  rewrite (bind_Ok _ _ _ _ _ E1).
  rewrite (bind_Ok get _ w1 w1 w1) by reflexivity.
  set (safe := sanitize_history_text fix_text (messages w)).
  set (w2 := set_calls (calls w1 ++ [StreamCall safe]) w1).
  rewrite (bind_Ok (modify _) _ w1 w2 tt) by reflexivity.
  rewrite Qc. fold reply.
  assert (RO2 : read_only (fs w2) = false) by (cbn; congruence).
  destruct reply as [e | chunks fin].
  - exists w2. cbn. rewrite Qm, Qo, Qc, app_nil_r. repeat split; auto.
  - set (w3 := set_stdout (stdout w2 ++ [ASSISTANT_PROMPT]) w2).
    rewrite (bind_Ok (print _) _ w2 w3 tt) by reflexivity.
    assert (RO3 : read_only (fs w3) = false) by exact RO2.
    destruct (consume_stream_ok fix_text clock chunks [] w3 RO3)
      as (w4 & E4 & Hm4 & Ho4 & Hc4 & RO4).
    rewrite (bind_Ok _ _ _ _ _ E4). cbn [app].
    destruct fin as [e |].
    + exists w4. cbn [failure_of attempt_display attempt_history].
      split; [reflexivity |].
      rewrite Hm4, Ho4, Hc4. cbn. rewrite Qm, Qo, Qc, app_nil_r, <- app_assoc.
      repeat split; auto.
    + set (w5 := set_stdout (stdout w4 ++ [[NL]]) w4).
      rewrite (bind_Ok (print _) _ w4 w5 tt) by reflexivity.
      assert (RO5 : read_only (fs w5) = false) by exact RO4.
      destruct (add_message_ok fix_text clock assistant
                  (join (clean_fragments fix_text chunks)) w5 RO5)
        as (w6 & E6 & Hm6 & Ho6 & Hc6 & RO6).
      exists w6. cbn [failure_of attempt_display attempt_history].
      split; [exact E6 |].
      rewrite Hm6, Ho6, Hc6. cbn. rewrite Hm4, Ho4, Hc4. cbn.
      rewrite Qm, Qo, Qc, <- !app_assoc. repeat split; auto.
Qed.

(** The loop on a disk that takes the log: it returns, and the history,
    the terminal and the requests are those of the pure loop. *)
Lemma attempt_history_failed (reply : stream_reply) (e : exn)
    (ms : list Message) :
  failure_of reply = Some e -> attempt_history fix_text reply ms = ms.
Proof.
  destruct reply as [e' | chunks [e' |]]; cbn; intros F;
    [reflexivity | reflexivity | discriminate F].
Qed.

Lemma stream_loop_ok (remaining attempt max_retries : nat) (w : World) :
  read_only (fs w) = false ->
  exists w',
    stream_loop fix_text clock stream_reply_of remaining attempt max_retries w
      = (Ok tt, w')
    /\ messages w' =
         loop_messages fix_text stream_reply_of remaining (length (calls w))
           (messages w)
    /\ stdout w' =
         stdout w ++ loop_output fix_text stream_reply_of remaining attempt
                       max_retries (length (calls w))
    /\ calls w' =
         calls w ++ loop_requests fix_text stream_reply_of remaining
                      (length (calls w)) (messages w)
    /\ read_only (fs w') = false.
Proof.
  revert attempt w. induction remaining as [| r IH]; intros attempt w RO.
  - eexists. split; [reflexivity |]. cbn. rewrite app_nil_r. repeat split; auto.
  - cbn [stream_loop loop_messages loop_output loop_requests].
    destruct (stream_attempt_ok w RO) as (w1 & E1 & Hm1 & Ho1 & Hc1 & RO1).
    cbv zeta in E1, Hm1, Ho1.
    unfold encoding_failed.
    destruct (failure_of (stream_reply_of (length (calls w)))) as [e |] eqn:F.
    + rewrite (try_except_Raise _ _ _ _ _ E1).
      rewrite (attempt_history_failed _ _ _ F) in Hm1.
      destruct (is_UnicodeEncodeError e) eqn:U.
      * set (w2 := set_stdout (stdout w1 ++ [retry_notice (S attempt) max_retries]) w1).
        rewrite (bind_Ok (print _) _ w1 w2 tt) by reflexivity.
        rewrite (bind_Ok get _ w2 w2 w2) by reflexivity.
        assert (RO2 : read_only (fs w2) = false) by exact RO1.
        destruct (sanitize_message_history_ok fix_text clock (messages w2) w2 RO2)
          as (w3 & E3 & [Qm Qo Qc Qr]).
        rewrite (bind_Ok _ _ _ _ _ E3).
        set (w4 := set_messages (sanitize_history_text fix_text (messages w2)) w3).
        rewrite (bind_Ok (modify _) _ w3 w4 tt) by reflexivity.
        assert (RO4 : read_only (fs w4) = false) by (cbn; congruence).
        destruct (IH (S attempt) w4 RO4) as (w5 & E5 & Hm5 & Ho5 & Hc5 & RO5).
        exists w5. split; [exact E5 |].
        assert (Hcalls : calls w4 = calls w ++
                  [StreamCall (sanitize_history_text fix_text (messages w))]).
        { cbn. rewrite Qc. cbn. exact Hc1. }
        assert (Hlen : length (calls w4) = S (length (calls w))).
        { rewrite Hcalls, length_app. cbn. lia. }
        rewrite Hlen in Hm5, Ho5, Hc5.
        assert (Hmsgs : messages w4 = sanitize_history_text fix_text (messages w)).
        { cbn. rewrite Hm1. reflexivity. }
        rewrite Hmsgs in Hm5, Hc5.
        assert (Hout : stdout w4 = stdout w ++
                  attempt_display fix_text (stream_reply_of (length (calls w)))
                  ++ [retry_notice (S attempt) max_retries]).
        { cbn. rewrite Qo. cbn. rewrite Ho1, <- app_assoc. reflexivity. }
        rewrite Hout in Ho5. rewrite Hcalls in Hc5.
        split; [exact Hm5 |].
        split; [rewrite Ho5, <- !app_assoc; reflexivity |].
        split; [rewrite Hc5, <- app_assoc; reflexivity | exact RO5].
      * destruct (sanitize_str_ok fix_text clock (REQUEST_FAILED ++ str_of e) w1 RO1)
          as (w2 & E2 & [Qm Qo Qc Qr]).
        rewrite (bind_Ok _ _ _ _ _ E2).
        eexists. split; [reflexivity |]. cbn.
        rewrite Qm, Qo, Qc, Hm1, Ho1, Hc1, <- app_assoc.
        repeat split; congruence.
    + rewrite (try_except_Ok _ _ _ _ _ E1).
      exists w1. split; [reflexivity |].
      rewrite Ho1, Hc1, Hm1, app_nil_r. repeat split; auto.
Qed.

Lemma encoding_failed_inv (reply : stream_reply) :
  encoding_failed reply = true ->
  exists e, failure_of reply = Some e /\ is_UnicodeEncodeError e = true.
Proof.
  unfold encoding_failed. destruct (failure_of reply) as [e |]; intros H.
  - exists e. split; [reflexivity | exact H].
  - discriminate H.
Qed.

Lemma failures_shift (k n : nat) :
  (forall i, (i < S k)%nat -> encoding_failed (stream_reply_of (n + i)) = true) ->
  encoding_failed (stream_reply_of n) = true
  /\ (forall i, (i < k)%nat -> encoding_failed (stream_reply_of (S n + i)) = true).
Proof.
  intros H. split.
  - specialize (H 0%nat). rewrite Nat.add_0_r in H. apply H. lia.
  - intros i Hi. specialize (H (S i)).
    replace (S n + i)%nat with (n + S i)%nat by lia. apply H. lia.
Qed.

(** After [k] encoding failures the loop is where it would be had it
    started, with the history sanitized [k] times over, at request [n + k]. *)
Lemma loop_messages_after_failures (k remaining n : nat) (ms : list Message) :
  (forall i, (i < k)%nat -> encoding_failed (stream_reply_of (n + i)) = true) ->
  loop_messages fix_text stream_reply_of (k + remaining) n ms =
  loop_messages fix_text stream_reply_of remaining (n + k) (resanitized fix_text k ms).
Proof.
  revert n ms. induction k as [| k IH]; intros n ms H.
  - cbn. rewrite Nat.add_0_r. reflexivity.
  - apply failures_shift in H. destruct H as [H0 H].
    destruct (encoding_failed_inv _ H0) as (e & F & U).
    cbn [Nat.add loop_messages]. rewrite F, U.
    rewrite (IH (S n) _ H). unfold resanitized. rewrite Nat.iter_succ_r.
    f_equal. lia.
Qed.

Lemma loop_requests_after_failures (k remaining n : nat) (ms : list Message) :
  (forall i, (i < k)%nat -> encoding_failed (stream_reply_of (n + i)) = true) ->
  length (loop_requests fix_text stream_reply_of (k + remaining) n ms) =
  (k + length (loop_requests fix_text stream_reply_of remaining (n + k)
                 (resanitized fix_text k ms)))%nat.
Proof.
  revert n ms. induction k as [| k IH]; intros n ms H.
  - cbn. rewrite Nat.add_0_r. reflexivity.
  - apply failures_shift in H. destruct H as [H0 H].
    cbn [Nat.add loop_requests length]. rewrite H0.
    rewrite (IH (S n) _ H). unfold resanitized. rewrite Nat.iter_succ_r.
    replace (S n + k)%nat with (n + S k)%nat by lia. reflexivity.
Qed.

Lemma loop_output_after_failures (k remaining attempt max_retries n : nat) :
  (forall i, (i < k)%nat -> encoding_failed (stream_reply_of (n + i)) = true) ->
  exists pre,
    loop_output fix_text stream_reply_of (k + remaining) attempt max_retries n =
    pre ++ loop_output fix_text stream_reply_of remaining (k + attempt)
             max_retries (n + k)
    /\ (k = 0%nat -> pre = []).
Proof.
  revert attempt n. induction k as [| k IH]; intros attempt n H.
  - exists []. cbn. rewrite Nat.add_0_r. split; reflexivity.
  - apply failures_shift in H. destruct H as [H0 H].
    destruct (encoding_failed_inv _ H0) as (e & F & U).
    destruct (IH (S attempt) (S n) H) as (pre & E & _).
    cbn [Nat.add loop_output]. rewrite F, U, E.
    eexists. split; [| discriminate].
    rewrite app_comm_cons, app_assoc.
    replace (k + S attempt)%nat with (S (k + attempt)) by lia.
    replace (S n + k)%nat with (n + S k)%nat by lia. reflexivity.
Qed.

Lemma resanitized_roles (k : nat) (ms : list Message) :
  map role (resanitized fix_text k ms) = map role ms.
Proof.
  unfold resanitized. induction k as [| k IH]; [reflexivity |].
  rewrite Nat.iter_succ. unfold sanitize_history_text at 1.
  rewrite map_map. cbn [role]. exact IH.
Qed.

Lemma sanitize_text_stable (t : pystr) :
  well_formed t = true -> (t <> [] -> fix_text t = Ok t) ->
  sanitize_text fix_text t = t.
Proof.
  intros Hwf Hfix. unfold sanitize_text. destruct t as [| c t]; [reflexivity |].
  rewrite Hfix by discriminate. apply re_sub_surrogates_id, Hwf.
Qed.

Lemma clean_fragments_wf (chunks : list (option pystr)) :
  well_formed (join (clean_fragments fix_text chunks)) = true.
Proof.
  unfold join. induction chunks as [| [[| c s] |] chunks IH]; cbn; auto.
  change (well_formed (sanitize_text fix_text (c :: s)
                         ++ concat (clean_fragments fix_text chunks)) = true).
  rewrite well_formed_app, sanitize_text_wf, IH. reflexivity.
Qed.

(** C5 (as amended).  [stream_chat] with [max_retries = 3], on a disk that
    takes the sanitizer's log.  The failures that are retried are those of
    class [UnicodeEncodeError]; a [UnicodeDecodeError] is not one of them:
    the call returns after the one request, with the history as it was.
    When the first [k] attempts ([k] at most 2) fail with
    an encoding error and the next one streams to its end, every failure
    has the whole history sanitized again and a new request sent, and the
    call returns with one assistant message pushed on that history: the
    joined sanitized fragments of the last stream (sanitized once more by
    [add_message], which changes nothing when the repair stage leaves the
    joined text alone); the requests sent are [k + 1].  When all three
    attempts fail with encoding errors, the call returns after three
    requests, the advisory is the last thing printed, and the history is
    the old one sanitized three times: no message added, roles and order
    as before. *)
Theorem stream_chat_retries_then_adds_once :
  (forall (w : World) (k : nat) (chunks : list (option pystr)),
     read_only (fs w) = false ->
     (k < 3)%nat ->
     (forall i, (i < k)%nat ->
        encoding_failed (stream_reply_of (length (calls w) + i)) = true) ->
     stream_reply_of (length (calls w) + k) = Streams chunks None ->
     exists w',
       stream_chat fix_text clock stream_reply_of 3 w = (Ok tt, w')
       /\ messages w' =
            push_message
              (Msg assistant
                 (sanitize_text fix_text (join (clean_fragments fix_text chunks))))
              (resanitized fix_text k (messages w))
       /\ (let joined := join (clean_fragments fix_text chunks) in
           (joined <> [] -> fix_text joined = Ok joined) ->
           sanitize_text fix_text joined = joined)
       /\ length (calls w') = (length (calls w) + k + 1)%nat)
  /\
  (forall (w : World),
     read_only (fs w) = false ->
     (forall i, (i < 3)%nat ->
        encoding_failed (stream_reply_of (length (calls w) + i)) = true) ->
     exists w' printed,
       stream_chat fix_text clock stream_reply_of 3 w = (Ok tt, w')
       /\ stdout w' = stdout w ++ printed ++ [ADVISORY]
       /\ messages w' = resanitized fix_text 3 (messages w)
       /\ map role (messages w') = map role (messages w)
       /\ length (messages w') = length (messages w)
       /\ length (calls w') = (length (calls w) + 3)%nat)
  /\
  (forall (w : World) (e : exn),
     read_only (fs w) = false ->
     failure_of (stream_reply_of (length (calls w))) = Some e ->
     class_of e = UnicodeDecodeError ->
     exists w',
       stream_chat fix_text clock stream_reply_of 3 w = (Ok tt, w')
       /\ messages w' = messages w
       /\ length (calls w') = (length (calls w) + 1)%nat).
Proof.
  split; [| split].
  - intros w k chunks RO Hk Hfail Hlast.
    destruct (stream_loop_ok 3 0 3 w RO) as (w' & E & Hm & Ho & Hc & RO').
    exists w'. split; [exact E |].
    replace 3%nat with (k + S (2 - k))%nat in Hm, Hc by lia.
    rewrite (loop_messages_after_failures k _ _ _ Hfail) in Hm.
    cbn [loop_messages] in Hm. rewrite Hlast in Hm. cbn in Hm.
    split; [exact Hm |].
    split; [intros joined Hj; apply sanitize_text_stable;
            [apply clean_fragments_wf | exact Hj] |].
    rewrite Hc, length_app, (loop_requests_after_failures k _ _ _ Hfail).
    cbn [loop_requests length]. unfold encoding_failed. rewrite Hlast. cbn. lia.
  - intros w RO Hfail.
    destruct (stream_loop_ok 3 0 3 w RO) as (w' & E & Hm & Ho & Hc & RO').
    change 3%nat with (3 + 0)%nat in Hm at 1.
    rewrite (loop_messages_after_failures 3 0 _ _ Hfail) in Hm.
    cbn [loop_messages] in Hm.
    destruct (loop_output_after_failures 3 0 0 3 _ Hfail) as (pre & Eo & _).
    change (3 + 0)%nat with 3%nat in Eo. rewrite Eo in Ho. cbn [loop_output] in Ho.
    exists w', pre. split; [exact E |]. split; [exact Ho |].
    split; [exact Hm |].
    split; [rewrite Hm; apply resanitized_roles |].
    split.
    + rewrite <- (length_map role (messages w')), <- (length_map role (messages w)).
      rewrite Hm, resanitized_roles. reflexivity.
    + rewrite Hc, length_app.
      change 3%nat with (3 + 0)%nat at 1.
      rewrite (loop_requests_after_failures 3 0 _ _ Hfail). cbn. lia.
  - intros w e RO F D.
    destruct (stream_loop_ok 3 0 3 w RO) as (w' & E & Hm & Ho & Hc & RO').
    assert (U : is_UnicodeEncodeError e = false)
      by (unfold is_UnicodeEncodeError; rewrite D; reflexivity).
    exists w'. split; [exact E |].
    cbn [loop_messages] in Hm. rewrite F, U in Hm. split; [exact Hm |].
    rewrite Hc, length_app. cbn [loop_requests]. unfold encoding_failed.
    rewrite F, U. cbn. lia.
Qed.

(** C6 (as amended).  [stream_chat] on a disk that takes the sanitizer's
    log, when an attempt fails with anything but an encoding error: the
    call returns after that attempt, no further request is sent, the last
    thing printed is the sanitized error message, and the handler leaves
    the history as it found it.  When the failure is on the first attempt,
    or whenever sanitizing the history again changes nothing, that is the
    history as it was before the call; otherwise it is that history as the
    encoding retries before the failure re-sanitized it in place, with the
    same roles in the same order. *)
Theorem stream_chat_other_failure_keeps_history (max_retries k : nat)
    (e : exn) (w : World) :
  read_only (fs w) = false ->
  (k < max_retries)%nat ->
  (forall i, (i < k)%nat ->
     encoding_failed (stream_reply_of (length (calls w) + i)) = true) ->
  failure_of (stream_reply_of (length (calls w) + k)) = Some e ->
  is_UnicodeEncodeError e = false ->
  exists w' printed,
    stream_chat fix_text clock stream_reply_of max_retries w = (Ok tt, w')
    /\ length (calls w') = (length (calls w) + k + 1)%nat
    /\ stdout w' =
         stdout w ++ printed
         ++ attempt_display fix_text (stream_reply_of (length (calls w) + k))
         ++ [sanitize_text fix_text (REQUEST_FAILED ++ str_of e) ++ [NL]]
    /\ (k = 0%nat -> printed = [])
    /\ messages w' = resanitized fix_text k (messages w)
    /\ (k = 0%nat \/ sanitize_history_text fix_text (messages w) = messages w ->
        messages w' = messages w)
    /\ map role (messages w') = map role (messages w).
Proof.
  intros RO Hk Hfail F U.
  assert (Hr : exists r, max_retries = (k + S r)%nat)
    by (exists (max_retries - S k)%nat; lia).
  destruct Hr as [r Er]. unfold stream_chat.
  replace (stream_loop fix_text clock stream_reply_of max_retries 0 max_retries)
    with (stream_loop fix_text clock stream_reply_of (k + S r) 0 max_retries)
    by (rewrite <- Er; reflexivity).
  destruct (stream_loop_ok (k + S r) 0 max_retries w RO)
    as (w' & E & Hm & Ho & Hc & RO').
  rewrite (loop_messages_after_failures k _ _ _ Hfail) in Hm.
  cbn [loop_messages] in Hm. rewrite F, U in Hm.
  destruct (loop_output_after_failures k (S r) 0 max_retries _ Hfail)
    as (pre & Eo & Hpre).
  rewrite Eo in Ho. cbn [loop_output] in Ho. rewrite F, U in Ho.
  exists w', pre. split; [exact E |].
  split.
  { rewrite Hc, length_app, (loop_requests_after_failures k _ _ _ Hfail).
    cbn [loop_requests length]. unfold encoding_failed. rewrite F, U. cbn. lia. }
  split; [exact Ho |]. split; [exact Hpre |]. split; [exact Hm |].
  split; [| rewrite Hm; apply resanitized_roles].
  intros [-> | Hstable]; [exact Hm |].
  rewrite Hm. clear - Hstable. unfold resanitized.
  induction k as [| k IH]; [reflexivity |].
  rewrite Nat.iter_succ, IH. exact Hstable.
Qed.

End StreamProperties.

(** ** The file system *)

Lemma fs_lookup_update_same (p : pystr) (f : option (list fitem) -> list fitem)
    (fl : list (pystr * list fitem)) :
  fs_lookup p (fs_update p f fl) = Some (f (fs_lookup p fl)).
Proof.
  induction fl as [| [q c] fl IH]; cbn.
  - rewrite pystr_eqb_refl. reflexivity.
  - destruct (pystr_eqb q p) eqn:E; cbn; rewrite E; [reflexivity | exact IH].
Qed.

Lemma fs_lookup_update_other (p q : pystr) (f : option (list fitem) -> list fitem)
    (fl : list (pystr * list fitem)) :
  p <> q -> fs_lookup q (fs_update p f fl) = fs_lookup q fl.
Proof.
  intros N. induction fl as [| [r c] fl IH]; cbn.
  - apply pystr_eqb_neq in N. rewrite N. reflexivity.
  - destruct (pystr_eqb r p) eqn:E; cbn.
    + apply pystr_eqb_eq in E. subst r.
      apply pystr_eqb_neq in N. rewrite N. reflexivity.
    + destruct (pystr_eqb r q); [reflexivity | exact IH].
Qed.

(** [still w w']: the history, the clock and the state of the disk are the
    same in [w'] as in [w]. *)
Record still (w w' : World) : Prop := Still {
  still_messages : messages w' = messages w;
  still_ticks : ticks w' = ticks w;
  still_read_only : read_only (fs w') = read_only (fs w)
}.

Lemma still_refl (w : World) : still w w.
Proof. split; reflexivity. Qed.

Lemma still_trans (w1 w2 w3 : World) : still w1 w2 -> still w2 w3 -> still w1 w3.
Proof. intros [A B C] [A' B' C']. split; congruence. Qed.

Lemma open_write_run (p : pystr) (w : World) :
  read_only (fs w) = false ->
  exists w', open_write p w = (Ok tt, w') /\ still w w'
    /\ file_at p w' = Some []
    /\ (forall q, p <> q -> file_at q w' = file_at q w).
Proof.
  intros RO. unfold open_write. rewrite RO. eexists. split; [reflexivity |].
  split; [split; cbn; auto |]. unfold file_at. cbn. split.
  - apply fs_lookup_update_same.
  - intros q N. apply fs_lookup_update_other, N.
Qed.

Lemma file_write_run (p : pystr) (item : fitem) (w : World) :
  exists w', file_write p item w = (Ok tt, w') /\ still w w'
    /\ (forall c, file_at p w = Some c -> file_at p w' = Some (c ++ [item]))
    /\ (forall q, p <> q -> file_at q w' = file_at q w).
Proof.
  unfold file_write, modify. eexists. split; [reflexivity |].
  split; [split; cbn; auto |]. unfold file_at. cbn. split.
  - intros c Hc. rewrite fs_lookup_update_same, Hc. reflexivity.
  - intros q N. apply fs_lookup_update_other, N.
Qed.

Lemma write_lines_run (p : pystr) (lines : list pystr) (w : World) :
  exists w', write_lines p lines w = (Ok tt, w') /\ still w w'
    /\ (forall c, file_at p w = Some c ->
                  file_at p w' = Some (c ++ map Text lines))
    /\ (forall q, p <> q -> file_at q w' = file_at q w).
Proof.
  revert w. induction lines as [| l lines IH]; intros w.
  - exists w. split; [reflexivity |]. split; [apply still_refl |].
    split; [intros c Hc; rewrite app_nil_r; exact Hc | reflexivity].
  - cbn [write_lines map].
    destruct (file_write_run p (Text l) w) as (w1 & E1 & S1 & H1 & O1).
    rewrite (bind_Ok _ _ _ _ _ E1).
    destruct (IH w1) as (w2 & E2 & S2 & H2 & O2).
    exists w2. split; [exact E2 |]. split; [eapply still_trans; eauto |].
    split.
    + intros c Hc. rewrite (H2 _ (H1 _ Hc)), <- app_assoc. reflexivity.
    + intros q N. rewrite (O2 q N). apply O1, N.
Qed.

Lemma ensure_directory_run (d : pystr) (w : World) :
  read_only (fs w) = false ->
  exists w', ensure_directory d w = (Ok tt, w') /\ still w w'
    /\ files (fs w') = files (fs w).
Proof.
  intros RO. unfold ensure_directory, bind, path_exists.
  destruct (negb _).
  - unfold makedirs. rewrite RO. eexists. split; [reflexivity |].
    split; [split; cbn; auto | reflexivity].
  - exists w. split; [reflexivity |]. split; [apply still_refl | reflexivity].
Qed.

Section PersisterProperties.

Variable clock : nat -> datetime.
Variable title_reply_of : nat -> title_reply.
Variable home : option pystr.

(** [_generate_title] raises nothing: it returns the title, or [None]. *)
Lemma _generate_title_run (w : World) :
  exists w',
    _generate_title title_reply_of w = (Ok (title_value title_reply_of w), w')
    /\ still w w' /\ fs w' = fs w.
Proof.
  unfold _generate_title, title_value, try_except, bind, get.
  destruct (firstn 2 (skipn 1 (messages w))) as [| m l].
  - exists w. split; [reflexivity |]. split; [apply still_refl | reflexivity].
  - unfold modify. cbn [fst snd].
    destruct (title_reply_of (length (calls w))) as [e | [c |]];
      eexists; (split; [reflexivity |]); (split; [split |]); reflexivity.
Qed.

Lemma json_txt_paths_differ (base : pystr) :
  json_path_of home base <> txt_path_of home base.
Proof.
  unfold json_path_of, txt_path_of. intros E.
  apply app_inv_head in E. discriminate E.
Qed.


Lemma save_conversation_below (w : World) :
  (length (messages w) < 5)%nat ->
  save_conversation clock title_reply_of home w = (Ok false, w).
Proof.
  intros H. unfold save_conversation, should_save_conversation, bind, get, ret.
  destruct (Nat.leb_spec 5 (length (messages w))) as [L | L]; [lia |].
  reflexivity.
Qed.

(** Past the gate, on a disk that takes writes: both files, with what the
    source puts into them, under the names built from the title and the
    time stamp. *)
Lemma save_conversation_ok (w : World) :
  (5 <= length (messages w))%nat ->
  read_only (fs w) = false ->
  let base := base_name_of (title_value title_reply_of w)
                (strftime_stamp (clock (ticks w))) in
  exists w',
    save_conversation clock title_reply_of home w = (Ok true, w')
    /\ file_at (json_path_of home base) w' = Some (json_artifact clock w)
    /\ file_at (txt_path_of home base) w' = Some (transcript clock w)
    /\ messages w' = messages w.
Proof.
  intros L RO base.
  unfold save_conversation.
  rewrite (bind_Ok should_save_conversation _ w w
             (5 <=? length (messages w))%nat) by reflexivity.
  destruct (Nat.leb_spec 5 (length (messages w))) as [_ | L']; [| lia].
  cbn [negb].
  set (w1 := set_ticks (S (ticks w)) w).
  rewrite (bind_Ok (datetime_now clock) _ w w1 (clock (ticks w))) by reflexivity.
  destruct (_generate_title_run w1) as (w2 & E2 & S2 & F2).
  rewrite (bind_Ok _ _ _ _ _ E2).
  change (title_value title_reply_of w1) with (title_value title_reply_of w).
  fold base.
  assert (RO2 : read_only (fs w2) = false) by (rewrite F2; exact RO).
  destruct (ensure_directory_run (fmt_opt home ++ JSON_DIR) w2 RO2)
    as (w3 & E3 & S3 & F3).
  rewrite (bind_Ok _ _ _ _ _ E3).
  assert (RO3 : read_only (fs w3) = false)
    by (rewrite (still_read_only _ _ S3); exact RO2).
  destruct (ensure_directory_run (fmt_opt home ++ TXT_DIR) w3 RO3)
    as (w4 & E4 & S4 & F4).
  rewrite (bind_Ok _ _ _ _ _ E4).
  assert (RO4 : read_only (fs w4) = false)
    by (rewrite (still_read_only _ _ S4); exact RO3).
  destruct (open_write_run (json_path_of home base) w4 RO4)
    as (w5 & E5 & S5 & H5 & O5).
  rewrite (bind_Ok _ _ _ _ _ E5).
  assert (S15 : still w1 w5) by (repeat (eapply still_trans; eauto)).
  set (w6 := set_ticks (S (ticks w5)) w5).
  rewrite (bind_Ok (datetime_now clock) _ w5 w6 (clock (ticks w5))) by reflexivity.
  rewrite (bind_Ok get _ w6 w6 w6) by reflexivity.
  assert (Hm6 : messages w6 = messages w) by (cbn; apply (still_messages _ _ S15)).
  assert (Ht5 : ticks w5 = S (ticks w)) by apply (still_ticks _ _ S15).
  rewrite Hm6, Ht5.
  destruct (file_write_run (json_path_of home base)
              (JsonDoc (MkArtifact (isoformat (clock (S (ticks w)))) MODEL_NAME
                          (Z.of_nat (length (messages w)) - 1)
                          (skipn 1 (messages w)))) w6)
    as (w7 & E7 & S7 & H7 & O7).
  rewrite (bind_Ok _ _ _ _ _ E7).
  assert (RO7 : read_only (fs w7) = false).
  { rewrite (still_read_only _ _ S7). cbn.
    rewrite (still_read_only _ _ S5). exact RO4. }
  destruct (open_write_run (txt_path_of home base) w7 RO7)
    as (w8 & E8 & S8 & H8 & O8).
  rewrite (bind_Ok _ _ _ _ _ E8).
  destruct (file_write_run (txt_path_of home base)
              (Text (transcript_header (strftime_stamp (clock (ticks w))))) w8)
    as (w9 & E9 & S9 & H9 & O9).
  rewrite (bind_Ok _ _ _ _ _ E9).
  destruct (file_write_run (txt_path_of home base) (Text transcript_rule) w9)
    as (w10 & E10 & S10 & H10 & O10).
  rewrite (bind_Ok _ _ _ _ _ E10).
  destruct (write_lines_run (txt_path_of home base)
              (transcript_lines 0 (skipn 1 (messages w))) w10)
    as (w11 & E11 & S11 & H11 & O11).
  rewrite (bind_Ok _ _ _ _ _ E11).
  exists w11. split; [reflexivity |].
  pose proof (json_txt_paths_differ base) as N.
  assert (N' : txt_path_of home base <> json_path_of home base) by congruence.
  split; [| split].
  - rewrite (O11 _ N'), (O10 _ N'), (O9 _ N'), (O8 _ N').
    exact (H7 [] H5).
  - rewrite (H11 _ (H10 _ (H9 _ H8))). reflexivity.
  - rewrite (still_messages _ _ S11), (still_messages _ _ S10),
      (still_messages _ _ S9), (still_messages _ _ S8), (still_messages _ _ S7).
    exact Hm6.
Qed.





(** C10.  [_generate_title] raises nothing; it returns [None] when the
    endpoint raises, when the reply has no content, and when there is
    nothing after the system message.  When it returns [None] and the gate
    is met, [save_conversation] on a disk that takes writes still writes
    both files and returns true, and the names of both are the home
    directory, the subdirectory, the text [None_], the time stamp and the
    extension: the caller puts no other title in its place. *)
Theorem save_conversation_without_title :
  (forall w : World,
     (exists t w', _generate_title title_reply_of w = (Ok t, w'))
     /\ (forall e, title_reply_of (length (calls w)) = TitleRaises e ->
                   fst (_generate_title title_reply_of w) = Ok None)
     /\ (title_reply_of (length (calls w)) = TitleContent None ->
         fst (_generate_title title_reply_of w) = Ok None)
     /\ ((length (messages w) <= 1)%nat ->
         fst (_generate_title title_reply_of w) = Ok None))
  /\
  (forall w : World,
     (5 <= length (messages w))%nat ->
     read_only (fs w) = false ->
     fst (_generate_title title_reply_of w) = Ok None ->
     let stamp := strftime_stamp (clock (ticks w)) in
     exists w',
       save_conversation clock title_reply_of home w = (Ok true, w')
       /\ file_at (fmt_opt home ++ JSON_PREFIX ++ (py "None_" ++ stamp)
                     ++ JSON_SUFFIX) w'
          = Some (json_artifact clock w)
       /\ file_at (fmt_opt home ++ TXT_PREFIX ++ (py "None_" ++ stamp)
                     ++ TXT_SUFFIX) w'
          = Some (transcript clock w)).
Proof.
  split.
  - intros w. destruct (_generate_title_run w) as (w0 & E0 & _).
    rewrite E0. cbn [fst]. unfold title_value.
    split; [exists (title_value title_reply_of w), w0; reflexivity |].
    split; [| split].
    + intros e He. rewrite He.
      destruct (firstn 2 (skipn 1 (messages w))); reflexivity.
    + intros He. rewrite He.
      destruct (firstn 2 (skipn 1 (messages w))); reflexivity.
    + intros Hl. destruct (messages w) as [| m0 [| m1 rest]]; cbn in Hl;
        [reflexivity | reflexivity | lia].
  - intros w L RO HN stamp.
    destruct (_generate_title_run w) as (w0 & E0 & _).
    rewrite E0 in HN. cbn [fst] in HN.
    assert (HT : title_value title_reply_of w = None) by congruence.
    destruct (save_conversation_ok w L RO) as (w' & E & J & T & _).
    rewrite HT in J, T.
    exists w'. split; [exact E |]. split; [exact J | exact T].
Qed.

(** What [_sanitize_filename] returns has at most 30 characters, all of
    them CJK ideographs, ASCII letters, digits, underscores or spaces. *)
Lemma _sanitize_filename_safe (title : pystr) :
  (length (_sanitize_filename title) <= 30)%nat
  /\ forallb filename_char (_sanitize_filename title) = true.
Proof.
  unfold _sanitize_filename, first_n. cbv zeta. split.
  - apply firstn_le_length.
  - apply forallb_forall. intros c Hc.
    assert (H1 : In c (strip (filter filename_char title))).
    { rewrite <- (firstn_skipn 30). apply in_or_app. left. exact Hc. }
    assert (Hl : forall s c, In c (lstrip s) -> In c s).
    { clear. intros s c. induction s as [| a s IH]; cbn; [tauto |].
      destruct (py_isspace a); [intros H; right; apply IH, H | cbn; tauto]. }
    unfold strip in H1. apply in_rev, Hl in H1. apply in_rev, Hl in H1.
    apply filter_In in H1. apply H1.
Qed.

End PersisterProperties.

(** ** Methods that leave the history alone, in any world *)

(** [keeps m]: whatever [m] returns or raises, the history after it is the
    history before it. *)
Definition keeps {A : Type} (m : M A) : Prop :=
  forall w, messages (snd (m w)) = messages w.

Lemma keeps_ret {A : Type} (a : A) : keeps (ret a).
Proof. intros w. reflexivity. Qed.

Lemma keeps_raise {A : Type} (e : exn) : keeps (@raise A e).
Proof. intros w. reflexivity. Qed.

Lemma keeps_lift {A : Type} (r : Result A) : keeps (lift r).
Proof. intros w. reflexivity. Qed.

Lemma keeps_get : keeps get.
Proof. intros w. reflexivity. Qed.

Lemma keeps_bind {A B : Type} (m : M A) (k : A -> M B) :
  keeps m -> (forall a, keeps (k a)) -> keeps (bind m k).
Proof.
  intros Hm Hk w. unfold bind. specialize (Hm w).
  destruct (m w) as [[a | e] w1]; cbn [snd] in *.
  - rewrite (Hk a w1). exact Hm.
  - exact Hm.
Qed.

Lemma keeps_try_except {A : Type} (m : M A) (h : exn -> M A) :
  keeps m -> (forall e, keeps (h e)) -> keeps (try_except m h).
Proof.
  intros Hm Hh w. unfold try_except. specialize (Hm w).
  destruct (m w) as [[a | e] w1]; cbn [snd] in *.
  - exact Hm.
  - rewrite (Hh e w1). exact Hm.
Qed.

Lemma keeps_modify (f : World -> World) :
  (forall w, messages (f w) = messages w) -> keeps (modify f).
Proof. intros H w. apply H. Qed.

Lemma keeps_print (s : pystr) : keeps (print s).
Proof. intros w. reflexivity. Qed.

Lemma keeps_datetime_now (clock : nat -> datetime) : keeps (datetime_now clock).
Proof. intros w. reflexivity. Qed.

Lemma keeps_open_append (p : pystr) (items : list fitem) :
  keeps (open_append p items).
Proof. intros w. unfold open_append. destruct (read_only (fs w)); reflexivity. Qed.

Lemma keeps_open_write (p : pystr) : keeps (open_write p).
Proof. intros w. unfold open_write. destruct (read_only (fs w)); reflexivity. Qed.

Lemma keeps_file_write (p : pystr) (item : fitem) : keeps (file_write p item).
Proof. intros w. reflexivity. Qed.

Lemma keeps_path_exists (p : pystr) : keeps (path_exists p).
Proof. intros w. reflexivity. Qed.

Lemma keeps_makedirs (p : pystr) : keeps (makedirs p).
Proof. intros w. unfold makedirs. destruct (read_only (fs w)); reflexivity. Qed.

Create HintDb keeps.
#[local] Hint Resolve keeps_ret keeps_raise keeps_lift keeps_get keeps_print
  keeps_datetime_now keeps_open_append keeps_open_write keeps_file_write
  keeps_path_exists keeps_makedirs : keeps.

Ltac keeps_steps :=
  repeat first
    [ progress auto with keeps
    | apply keeps_bind; [| intros ?]
    | apply keeps_try_except; [| intros ?]
    | apply keeps_modify; intros ?; reflexivity
    | match goal with
      | |- keeps (if ?b then _ else _) => destruct b
      | |- keeps (match ?x with _ => _ end) => destruct x
      end ].

Lemma keeps__log_error (clock : nat -> datetime) (o c : pystr) :
  keeps (_log_error clock o c).
Proof. unfold _log_error. keeps_steps. Qed.

Lemma keeps_sanitize_str (fix_text : pystr -> Result pystr)
    (clock : nat -> datetime) (s : pystr) :
  keeps (sanitize_str fix_text clock s).
Proof.
  intros w. destruct (sanitize_str_run fix_text clock s w) as (w' & E & Q & _).
  rewrite E. apply (quiet_messages _ _ Q).
Qed.

#[local] Hint Resolve keeps__log_error keeps_sanitize_str : keeps.

Lemma keeps_sanitize_message_history (fix_text : pystr -> Result pystr)
    (clock : nat -> datetime) (msgs : list Message) :
  keeps (sanitize_message_history fix_text clock msgs).
Proof.
  induction msgs as [| m msgs IH]; cbn [sanitize_message_history]; keeps_steps.
Qed.

Lemma keeps_consume_stream (fix_text : pystr -> Result pystr)
    (clock : nat -> datetime) (chunks : list (option pystr)) (acc : list pystr) :
  keeps (consume_stream fix_text clock chunks acc).
Proof.
  revert acc. induction chunks as [| [[| c s] |] chunks IH]; intros acc;
    cbn [consume_stream]; keeps_steps.
Qed.

Lemma keeps__generate_title (title_reply_of : nat -> title_reply) :
  keeps (_generate_title title_reply_of).
Proof. unfold _generate_title. keeps_steps. Qed.

Lemma keeps_write_lines (p : pystr) (lines : list pystr) :
  keeps (write_lines p lines).
Proof. induction lines as [| l lines IH]; cbn [write_lines]; keeps_steps. Qed.

#[local] Hint Resolve keeps_sanitize_message_history keeps_consume_stream
  keeps__generate_title keeps_write_lines : keeps.

Lemma keeps_save_conversation (clock : nat -> datetime)
    (title_reply_of : nat -> title_reply) (home : option pystr) :
  keeps (save_conversation clock title_reply_of home).
Proof.
  unfold save_conversation, should_save_conversation, ensure_directory.
  keeps_steps.
Qed.

(** ** The anchor of the buffer, in any world *)

Lemma anchored_push (m : Message) (ms : list Message) :
  anchored ms -> anchored (push_message m ms).
Proof.
  intros [_ (c & rest & E)]. split; [apply push_message_length |].
  subst ms. destruct (push_message_head m (Msg system c) rest) as (rest' & E).
  exists c, rest'. exact E.
Qed.

Lemma anchored_sanitize (fix_text : pystr -> Result pystr) (ms : list Message) :
  anchored ms -> anchored (sanitize_history_text fix_text ms).
Proof.
  intros [L (c & rest & E)]. split.
  - unfold sanitize_history_text. rewrite length_map. exact L.
  - subst ms. cbn. eexists. eexists. reflexivity.
Qed.

(** [settles m]: in any world, [m] leaves a history that is anchored if
    the one it found was. *)
Definition settles {A : Type} (m : M A) : Prop :=
  forall w, anchored (messages w) -> anchored (messages (snd (m w))).

Lemma keeps_settles {A : Type} (m : M A) : keeps m -> settles m.
Proof. intros H w J. rewrite (H w). exact J. Qed.

Lemma settles_bind {A B : Type} (m : M A) (k : A -> M B) :
  settles m -> (forall a, settles (k a)) -> settles (bind m k).
Proof.
  intros Hm Hk w J. unfold bind. specialize (Hm w J).
  destruct (m w) as [[a | e] w1]; cbn [snd] in *.
  - apply (Hk a w1 Hm).
  - exact Hm.
Qed.

Lemma settles_try_except {A : Type} (m : M A) (h : exn -> M A) :
  settles m -> (forall e, settles (h e)) -> settles (try_except m h).
Proof.
  intros Hm Hh w J. unfold try_except. specialize (Hm w J).
  destruct (m w) as [[a | e] w1]; cbn [snd] in *.
  - exact Hm.
  - apply (Hh e w1 Hm).
Qed.

Section SessionProperties.

Variable fix_text : pystr -> Result pystr.
Variable clock : nat -> datetime.
Variable stream_reply_of : nat -> stream_reply.
Variable title_reply_of : nat -> title_reply.
Variable home : option pystr.

Lemma settles_add_message (r : Role) (c : pystr) :
  settles (add_message fix_text clock r c).
Proof.
  intros w J. destruct (add_message_run fix_text clock r c w) as (w' & E & Hm & _).
  rewrite E. cbn [snd]. rewrite Hm.
  destruct (needs_log fix_text c && read_only (fs w)); [exact J |].
  apply anchored_push, J.
Qed.

Lemma settles_stream_attempt :
  settles (stream_attempt fix_text clock stream_reply_of).
Proof.
  unfold stream_attempt.
  apply settles_bind; [apply keeps_settles, keeps_get | intros w0].
  apply settles_bind;
    [apply keeps_settles, keeps_sanitize_message_history | intros safe].
  apply settles_bind; [apply keeps_settles, keeps_get | intros w1].
  apply settles_bind;
    [apply keeps_settles, keeps_modify; reflexivity | intros _].
  destruct (stream_reply_of (length (calls w1))) as [e | chunks fin].
  - apply keeps_settles, keeps_raise.
  - apply settles_bind; [apply keeps_settles, keeps_print | intros _].
    apply settles_bind;
      [apply keeps_settles, keeps_consume_stream | intros full].
    destruct fin as [e |]; [apply keeps_settles, keeps_raise |].
    apply settles_bind; [apply keeps_settles, keeps_print | intros _].
    apply settles_add_message.
Qed.

(** Sanitizing the history in place keeps it anchored. *)
Lemma settles_resanitize {A : Type} (k : M A) :
  settles k ->
  settles (w <- get ;;
           msgs <- sanitize_message_history fix_text clock (messages w) ;;
           modify (set_messages msgs) ;;
           k).
Proof.
  intros Hk w J. rewrite (bind_Ok get _ w w w) by reflexivity.
  destruct (sanitize_message_history_any fix_text clock (messages w) w)
    as (r & w1 & E & Q & V).
  destruct r as [msgs | e].
  - rewrite (bind_Ok _ _ _ _ _ E).
    rewrite (bind_Ok (modify _) _ w1 (set_messages msgs w1) tt) by reflexivity.
    apply Hk. cbn. rewrite (V msgs eq_refl). apply anchored_sanitize, J.
  - rewrite (bind_Raise _ _ _ _ _ E). cbn [snd].
    rewrite (quiet_messages _ _ Q). exact J.
Qed.

Lemma settles_stream_loop (remaining attempt max_retries : nat) :
  settles (stream_loop fix_text clock stream_reply_of remaining attempt max_retries).
Proof.
  revert attempt. induction remaining as [| r IH]; intros attempt.
  - apply keeps_settles, keeps_print.
  - cbn [stream_loop]. apply settles_try_except;
      [apply settles_stream_attempt | intros e].
    destruct (is_UnicodeEncodeError e).
    + apply settles_bind; [apply keeps_settles, keeps_print | intros _].
      apply settles_resanitize, IH.
    + apply keeps_settles. keeps_steps.
Qed.

Lemma perform_anchored (op : operation) (w : World) :
  anchored (messages w) ->
  anchored (messages (perform fix_text clock stream_reply_of title_reply_of home op w)).
Proof.
  intros J. destruct op as [r c | n | |]; cbn [perform].
  - apply settles_add_message, J.
  - apply settles_stream_loop, J.
  - rewrite keeps_save_conversation. exact J.
  - rewrite keeps__generate_title. exact J.
Qed.

Lemma perform_all_anchored (ops : list operation) (w : World) :
  anchored (messages w) ->
  anchored (messages
    (perform_all fix_text clock stream_reply_of title_reply_of home ops w)).
Proof.
  revert w. induction ops as [| op ops IH]; intros w J; [exact J |].
  cbn [perform_all]. apply IH, perform_anchored, J.
Qed.

Lemma _initialize_session_history (w0 w1 : World) :
  _initialize_session fix_text clock w0 = (Ok tt, w1) ->
  messages w1 = [Msg system (sanitize_text fix_text SYSTEM_PROMPT)].
Proof.
  unfold _initialize_session. intros E.
  destruct (sanitize_message_history_any fix_text clock
              [Msg system SYSTEM_PROMPT] w0) as (r & w' & E' & Q & V).
  destruct r as [msgs | e].
  - rewrite (bind_Ok _ _ _ _ _ E') in E. unfold modify in E.
    inversion E. cbn. rewrite (V msgs eq_refl). reflexivity.
  - rewrite (bind_Raise _ _ _ _ _ E') in E. discriminate E.
Qed.

(** C4.  After [_initialize_session] the buffer is the system message
    alone.  From there, after every sequence of [add_message] calls,
    whatever each of them returns or raises, the buffer holds at most 11
    entries and entry 0 is that same system message; and after every
    sequence of operations of the chat ([add_message], [stream_chat],
    [save_conversation], [_generate_title]) it holds at most 11 entries and
    entry 0 is a system message: none of them removes it or moves it. *)
Theorem buffer_bounded_and_anchored (w0 w1 : World) :
  _initialize_session fix_text clock w0 = (Ok tt, w1) ->
  let m0 := Msg system (sanitize_text fix_text SYSTEM_PROMPT) in
  messages w1 = [m0]
  /\ (forall turns : list (Role * pystr),
        let w := add_all fix_text clock turns w1 in
        (length (messages w) <= 11)%nat /\ nth_error (messages w) 0 = Some m0)
  /\ (forall ops : list operation,
        let w := perform_all fix_text clock stream_reply_of title_reply_of home
                   ops w1 in
        (length (messages w) <= 11)%nat
        /\ exists c, nth_error (messages w) 0 = Some (Msg system c)).
Proof.
  intros E m0. pose proof (_initialize_session_history w0 w1 E) as H1.
  fold m0 in H1. split; [exact H1 |]. split.
  - intros turns w.
    destruct (add_all_invariant fix_text clock turns w1 m0 [] H1) as (rest & Hm & Hl).
    { rewrite H1. cbn. lia. }
    subst w. rewrite Hm. split; [exact Hl | reflexivity].
  - intros ops w.
    assert (J : anchored (messages w1)).
    { rewrite H1. split; [cbn; lia |]. eexists. eexists. reflexivity. }
    destruct (perform_all_anchored ops w1 J) as [L (c & rest & Hm)].
    subst w. split; [exact L |]. exists c. rewrite Hm. reflexivity.
Qed.

(** C8 (as amended).  After the system message, the buffer holds the
    system message and the last ten turn-messages added: nine entries
    after four exchanges (8 turn-messages), eleven after five exchanges (10
    turn-messages) and from then on; the earliest turn-message leaves when
    an eleventh is added, and the system message stays at index 0. *)
Theorem window_fills_at_ten_turns (w : World) (m0 : Message)
    (turns : list (Role * pystr)) :
  read_only (fs w) = false ->
  messages w = [m0] ->
  let buffer := messages (add_all fix_text clock turns w) in
  buffer = m0 :: last_n 10 (map (clean_turn fix_text) turns)
  /\ length buffer = Nat.min (1 + length turns) 11
  /\ nth_error buffer 0 = Some m0
  /\ (length turns = 8%nat -> length buffer = 9%nat)
  /\ (length turns = 10%nat ->
      length buffer = 11%nat
      /\ forall (r : Role) (c : pystr),
           messages (add_all fix_text clock (turns ++ [(r, c)]) w) =
           m0 :: skipn 1 (map (clean_turn fix_text) turns)
              ++ [Msg r (sanitize_text fix_text c)]).
Proof.
  intros RO Hm buffer.
  assert (W : forall ts, messages (add_all fix_text clock ts w) =
                         m0 :: last_n 10 (map (clean_turn fix_text) ts)).
  { intros ts. apply (add_all_window fix_text clock ts w m0 [] RO Hm). cbn. lia. }
  assert (Hlen : length buffer = Nat.min (1 + length turns) 11).
  { unfold buffer. rewrite W. cbn [length]. rewrite last_n_length, length_map. lia. }
  split; [apply W |]. split; [exact Hlen |].
  split; [unfold buffer; rewrite W; reflexivity |].
  split; [intros H8; rewrite Hlen, H8; reflexivity |].
  intros H10. split; [rewrite Hlen, H10; reflexivity |].
  intros r c. rewrite W, map_app. f_equal. cbn [map].
  unfold last_n. rewrite length_app, length_map, H10. cbn [length].
  replace (10 + 1 - 10)%nat with 1%nat by lia.
  rewrite skipn_app, length_map, H10. reflexivity.
Qed.


End SessionProperties.

(* ================================================================== *)
(** * Part III: the properties on concrete sessions                    *)
(* ================================================================== *)

(** ** The sanitizer *)

(** [sanitize(None)] returns [None]: a missing value does not come back as
    text. *)
Lemma sanitize_None_is_not_text :
  sanitize fix_text_plain fixed_clock None (blank_world empty_fs)
    = (Ok None, blank_world empty_fs)
  /\ returned_text
       (fst (sanitize fix_text_plain fixed_clock None (blank_world empty_fs)))
     = false.
Proof. split; reflexivity. Qed.

Lemma sanitize_returns_text_or_sentinel_witness :
  exists t w',
    sanitize fix_text_plain fixed_clock (Some lone_surrogate_text)
      (blank_world empty_fs) = (Ok (Some t), w')
    /\ (exists bs, utf8_encode Strict t = Some bs /\ utf8_decode bs = Some t).
Proof.
  destruct (sanitize_returns_text_or_sentinel fix_text_plain fixed_clock
              lone_surrogate_text (blank_world empty_fs) eq_refl)
    as (t & w' & E & R & _).
  exists t, w'. split; [exact E | exact R].
Defined.

(** The sentinel, when the repair stage raises. *)
Example sanitize_sentinel_example :
  fst (sanitize broken_fix_text fixed_clock (Some (py "abc")) (blank_world empty_fs))
  = Ok (Some SENTINEL).
Proof. reflexivity. Qed.

(** When the log cannot be written and a record is due, the handler's own
    call of [_log_error] raises and [sanitize] lets the exception out. *)
Example sanitize_raises_on_locked_disk :
  fst (sanitize fix_text_plain fixed_clock (Some lone_surrogate_text)
         (blank_world locked_fs))
  = Raise (os_error LOG_PATH).
Proof. reflexivity. Qed.

Lemma sanitize_idempotent_witness :
  exists y w1,
    sanitize fix_text_plain fixed_clock (Some lone_surrogate_text)
      (blank_world empty_fs) = (Ok y, w1)
    /\ sanitize fix_text_plain fixed_clock y w1 = (Ok y, w1).
Proof.
  apply (proj2 (sanitize_idempotent fix_text_plain fixed_clock)
           (Some lone_surrogate_text) (blank_world empty_fs)).
  - reflexivity.
  - intros t _ _. reflexivity.
Defined.

(** With a repair stage that repairs, a second pass differs from the
    first.  The repair stage reads [entity_text] as one line, which holds
    [<], so it leaves the entity and turns the separator into a line feed;
    on the second pass the entity is on a line of its own, without [<],
    and is unescaped. *)
Lemma sanitize_twice_differs :
  exists w1 w2,
    sanitize fix_text_ftfy fixed_clock (Some entity_text) (blank_world empty_fs)
    = (Ok (Some entity_text_repaired), w1)
    /\ sanitize fix_text_ftfy fixed_clock (Some entity_text_repaired) w1
       = (Ok (Some entity_text_unescaped), w2)
    /\ entity_text_unescaped <> entity_text_repaired.
Proof.
  do 2 eexists. split; [vm_compute; reflexivity |].
  split; [vm_compute; reflexivity | vm_compute; discriminate].
Qed.


(** The same text, run: the escape is [\ud83d]. *)
Example sanitize_lone_surrogate_example :
  fst (sanitize fix_text_plain fixed_clock (Some lone_surrogate_text)
         (blank_world empty_fs))
  = Ok (Some (py "a\ud83dz")).
Proof. reflexivity. Qed.


(** ** The conversation buffer *)

Lemma fresh_session_history : messages fresh_session = [Msg system SYSTEM_PROMPT].
Proof. vm_compute. reflexivity. Qed.

Lemma buffer_bounded_and_anchored_witness :
  messages fresh_session = [Msg system SYSTEM_PROMPT]
  /\ (length (messages (session_after (exchanges 1 7))) <= 11)%nat
  /\ nth_error (messages (session_after (exchanges 1 7))) 0
     = Some (Msg system SYSTEM_PROMPT).
Proof.
  assert (I : _initialize_session fix_text_plain fixed_clock (blank_world empty_fs)
              = (Ok tt, fresh_session)) by (vm_compute; reflexivity).
  destruct (buffer_bounded_and_anchored fix_text_plain fixed_clock flaky_endpoint
              untitled_endpoint data_home (blank_world empty_fs) fresh_session I)
    as (H1 & H2 & _).
  split; [exact H1 |]. exact (H2 (exchanges 1 7)).
Defined.

(** Four exchanges leave nine entries, not eleven, and a ninth
    turn-message finds room: the first turn-message is still there. *)
Lemma eight_turns_leave_room :
  length (messages (session_after (exchanges 1 4))) = 9%nat
  /\ length (messages (session_after (exchanges 1 4))) <> 11%nat
  /\ length (messages (session_after (exchanges 1 4 ++ [question 5]))) = 10%nat
  /\ nth_error (messages (session_after (exchanges 1 4 ++ [question 5]))) 1
     = Some (Msg user (py "q1")).
Proof.
  split; [vm_compute; reflexivity |].
  split; [vm_compute; discriminate |].
  split; vm_compute; reflexivity.
Qed.

Lemma window_fills_at_ten_turns_witness :
  length (messages (session_after (exchanges 1 5))) = 11%nat
  /\ messages (session_after (exchanges 1 5 ++ [question 6]))
     = Msg system SYSTEM_PROMPT
       :: skipn 1 (map (clean_turn fix_text_plain) (exchanges 1 5))
       ++ [Msg user (py "q6")].
Proof.
  destruct (window_fills_at_ten_turns fix_text_plain fixed_clock fresh_session
              (Msg system SYSTEM_PROMPT) (exchanges 1 5))
    as (_ & _ & _ & _ & H10).
  - reflexivity.
  - vm_compute. reflexivity.
  - destruct (H10 eq_refl) as (L & E). split; [exact L |].
    exact (E user (py "q6")).
Defined.



(** ** The streaming loop *)

Lemma stream_chat_retries_then_adds_once_witness :
  (exists w',
     stream_chat fix_text_plain fixed_clock flaky_endpoint 3
       (session_after [question 1]) = (Ok tt, w')
     /\ messages w'
        = push_message (Msg assistant (py "Hello"))
            (messages (session_after [question 1]))
     /\ length (calls w') = 3%nat)
  /\
  (exists w' printed,
     stream_chat fix_text_plain fixed_clock garbling_endpoint 3
       (session_after [question 1]) = (Ok tt, w')
     /\ stdout w' = stdout (session_after [question 1]) ++ printed ++ [ADVISORY]
     /\ length (messages w') = 2%nat).
Proof.
  split.
  - destruct (proj1 (stream_chat_retries_then_adds_once fix_text_plain fixed_clock
                       flaky_endpoint)
                (session_after [question 1]) 2%nat
                [Some (py "Hel"); None; Some []; Some (py "lo")])
      as (w' & E & Hm & _ & Hc).
    + reflexivity.
    + lia.
    + intros [| [| i]] Hi; [reflexivity | reflexivity | lia].
    + reflexivity.
    + exists w'. split; [exact E |]. split; [exact Hm | exact Hc].
  - destruct (proj1 (proj2 (stream_chat_retries_then_adds_once fix_text_plain
                              fixed_clock garbling_endpoint))
                (session_after [question 1]))
      as (w' & printed & E & Ho & _ & _ & Hl & _).
    + reflexivity.
    + intros i _. reflexivity.
    + exists w', printed. split; [exact E |]. split; [exact Ho | exact Hl].
Defined.

(** A decoding error is a failure of the encoding class of the
    specification, and it is not retried: one request, no new attempt.
    And the message that is stored is not always the accumulated
    fragments: the fragments [&l] and [t;] are printed and accumulated as
    they are, and [add_message] stores their join sanitized once more,
    which is [<]. *)
Lemma decode_error_is_not_retried :
  (exists w',
     stream_chat fix_text_plain fixed_clock undecodable_endpoint 3
       (session_after [question 1]) = (Ok tt, w')
     /\ length (calls w') = 1%nat
     /\ messages w' = messages (session_after [question 1]))
  /\
  (exists w',
     stream_chat fix_text_ftfy fixed_clock split_entity_endpoint 3
       (session_after [question 1]) = (Ok tt, w')
     /\ join (clean_fragments fix_text_ftfy [Some (py "&l"); Some (py "t;")])
        = py "&lt;"
     /\ nth_error (messages w') 2 = Some (Msg assistant (py "<"))).
Proof.
  split.
  - eexists. split; [vm_compute; reflexivity |]. split; vm_compute; reflexivity.
  - eexists. split; [vm_compute; reflexivity |]. split; vm_compute; reflexivity.
Qed.

Lemma stream_chat_other_failure_keeps_history_witness :
  exists w',
    stream_chat fix_text_plain fixed_clock stalling_endpoint 3
      (session_after [question 1]) = (Ok tt, w')
    /\ messages w' = messages (session_after [question 1])
    /\ length (calls w') = 1%nat.
Proof.
  destruct (stream_chat_other_failure_keeps_history fix_text_plain fixed_clock
              stalling_endpoint 3 0 timeout_failure (session_after [question 1]))
    as (w' & printed & E & Hc & _ & _ & _ & Hm & _).
  - reflexivity.
  - lia.
  - intros i Hi. lia.
  - reflexivity.
  - reflexivity.
  - exists w'. split; [exact E |]. split; [apply Hm; left; reflexivity | exact Hc].
Defined.

(** An encoding retry, then a timeout: by the time the handler of the
    timeout returns, the retry has re-sanitized the history in place, and
    the user's message is no longer what it was before the call. *)
Lemma retry_rewrites_history_before_other_failure :
  exists w',
    stream_chat fix_text_ftfy fixed_clock retry_then_timeout 3 entity_session
    = (Ok tt, w')
    /\ length (calls w') = 2%nat
    /\ nth_error (messages entity_session) 1
       = Some (Msg user entity_text_repaired)
    /\ nth_error (messages w') 1 = Some (Msg user entity_text_unescaped)
    /\ messages w' <> messages entity_session.
Proof.
  eexists. split; [vm_compute; reflexivity |].
  split; [vm_compute; reflexivity |].
  split; [vm_compute; reflexivity |].
  split; [vm_compute; reflexivity | vm_compute; discriminate].
Qed.

(** ** The persister *)


(** The gate counts entries: four questions that got no answer pass it. *)
Example gate_counts_entries_example :
  fst (save_conversation fixed_clock untitled_endpoint data_home
         (session_after [question 1; question 2; question 3; question 4]))
  = Ok true.
Proof. vm_compute. reflexivity. Qed.

Lemma save_conversation_without_title_witness :
  exists w',
    save_conversation fixed_clock untitled_endpoint data_home
      (session_after (exchanges 1 2)) = (Ok true, w')
    /\ file_at (py "/data/json/None_20240506_070809.json") w'
       = Some (json_artifact fixed_clock (session_after (exchanges 1 2)))
    /\ file_at (py "/data/txt/None_20240506_070809.txt") w'
       = Some (transcript fixed_clock (session_after (exchanges 1 2))).
Proof.
  apply (proj2 (save_conversation_without_title fixed_clock untitled_endpoint
                  data_home)
           (session_after (exchanges 1 2))).
  - vm_compute. lia.
  - reflexivity.
  - reflexivity.
Defined.

(* ================================================================== *)
(** * Part IV: the rest of the program                                 *)
(* ================================================================== *)

(** ** Frames: what a method leaves as it found it, in any world *)

Section Frames.

Variable R : World -> World -> Prop.
Hypothesis R_refl : forall w, R w w.
Hypothesis R_trans : forall w1 w2 w3, R w1 w2 -> R w2 w3 -> R w1 w3.

(** [respects m]: whatever [m] returns or raises, the world it leaves is
    related to the one it found. *)
Definition respects {A : Type} (m : M A) : Prop := forall w, R w (snd (m w)).

Lemma respects_ret {A : Type} (a : A) : respects (ret a).
Proof. intros w. apply R_refl. Qed.

Lemma respects_raise {A : Type} (e : exn) : respects (@raise A e).
Proof. intros w. apply R_refl. Qed.

Lemma respects_lift {A : Type} (r : Result A) : respects (lift r).
Proof. intros w. apply R_refl. Qed.

Lemma respects_get : respects get.
Proof. intros w. apply R_refl. Qed.

Lemma respects_bind {A B : Type} (m : M A) (k : A -> M B) :
  respects m -> (forall a, respects (k a)) -> respects (bind m k).
Proof.
  intros Hm Hk w. unfold bind. specialize (Hm w).
  destruct (m w) as [[a | e] w1]; cbn [snd] in *.
  - apply (R_trans _ _ _ Hm), Hk.
  - exact Hm.
Qed.

Lemma respects_try_except {A : Type} (m : M A) (h : exn -> M A) :
  respects m -> (forall e, respects (h e)) -> respects (try_except m h).
Proof.
  intros Hm Hh w. unfold try_except. specialize (Hm w).
  destruct (m w) as [[a | e] w1]; cbn [snd] in *.
  - exact Hm.
  - apply (R_trans _ _ _ Hm), Hh.
Qed.

Lemma respects_try_finally {A : Type} (m : M A) (f : M unit) :
  respects m -> respects f -> respects (try_finally m f).
Proof.
  intros Hm Hf w. unfold try_finally. specialize (Hm w).
  destruct (m w) as [[a | e] w1]; cbn [snd] in *; specialize (Hf w1);
    destruct (f w1) as [[u | e'] w2]; cbn [snd] in *;
    apply (R_trans _ _ _ Hm), Hf.
Qed.

Lemma respects_modify (f : World -> World) :
  (forall w, R w (f w)) -> respects (modify f).
Proof. intros H w. apply H. Qed.

End Frames.

(** The first steps of a proof that a method respects a frame: the
    combinators of the monad. *)
Create HintDb frames.

Ltac frame_steps Hrefl Htrans :=
  repeat first
    [ solve [auto with frames]
    | apply (respects_ret _ Hrefl)
    | apply (respects_raise _ Hrefl)
    | apply (respects_lift _ Hrefl)
    | apply (respects_get _ Hrefl)
    | apply (respects_bind _ Htrans); [| intros ?]
    | apply (respects_try_except _ Htrans); [| intros ?]
    | apply (respects_try_finally _ Htrans)
    | match goal with
      | |- respects _ (if ?b then _ else _) => destruct b
      | |- respects _ (match ?x with _ => _ end) => destruct x
      end ].

(** ** The sanitizer's log *)

(** [only_log w w']: the directories and every file but the sanitizer's
    log are in [w'] as they were in [w]. *)
Record only_log (w w' : World) : Prop := OnlyLog {
  only_log_dirs : dirs (fs w') = dirs (fs w);
  only_log_read_only : read_only (fs w') = read_only (fs w);
  only_log_files : forall q, q <> LOG_PATH -> file_at q w' = file_at q w
}.

Lemma only_log_refl (w : World) : only_log w w.
Proof. split; reflexivity. Qed.

Lemma only_log_trans (w1 w2 w3 : World) :
  only_log w1 w2 -> only_log w2 w3 -> only_log w1 w3.
Proof.
  intros [A B C] [A' B' C']. split; try congruence.
  intros q Hq. rewrite (C' q Hq). apply C, Hq.
Qed.

Lemma only_log_same_fs (w w' : World) : fs w' = fs w -> only_log w w'.
Proof. intros E. split; unfold file_at; rewrite E; reflexivity. Qed.

Section LogProperties.

Variable fix_text : pystr -> Result pystr.
Variable clock : nat -> datetime.

(** What [_log_error] does to the world, on either kind of disk. *)
Lemma _log_error_effect (o c : pystr) (w : World) :
  let r := log_record clock (ticks w) o c in
  exists w',
    _log_error clock o c w =
      ((if read_only (fs w) then Raise (os_error LOG_PATH) else Ok tt), w')
    /\ error_log w' = error_log w ++ [r]
    /\ ticks w' = S (ticks w)
    /\ logged w' = (if read_only (fs w) then logged w else logged w ++ [LogLine r])
    /\ (read_only (fs w) = true -> fs w' = fs w)
    /\ only_log w w'
    /\ quiet w w'.
Proof.
  intros r. unfold _log_error, bind, datetime_now, modify, open_append. cbn.
  destruct (read_only (fs w)) eqn:E; eexists; (split; [reflexivity |]); cbn.
  - split; [reflexivity |]. split; [reflexivity |]. split; [reflexivity |].
    split; [reflexivity |]. split; [apply only_log_same_fs; reflexivity |].
    split; cbn; auto.
  - split; [reflexivity |]. split; [reflexivity |].
    split.
    { unfold logged, file_at. cbn. rewrite fs_lookup_update_same.
      destruct (fs_lookup LOG_PATH (files (fs w))); reflexivity. }
    split; [discriminate |].
    split.
    { split; cbn; auto. intros q Hq. unfold file_at. cbn.
      apply fs_lookup_update_other. congruence. }
    split; cbn; auto.
Qed.

Lemma only_log__log_error (o c : pystr) :
  respects only_log (_log_error clock o c).
Proof.
  intros w. destruct (_log_error_effect o c w)
    as (w' & E & _ & _ & _ & _ & O & _). rewrite E. exact O.
Qed.

Lemma only_log_sanitize_str (s : pystr) :
  respects only_log (sanitize_str fix_text clock s).
Proof.
  destruct s as [| c s]; [apply (respects_ret _ only_log_refl) |].
  pose proof only_log__log_error as L.
  unfold sanitize_str. frame_steps only_log_refl only_log_trans.
Qed.

Lemma only_log_sanitize_message_history (msgs : list Message) :
  respects only_log (sanitize_message_history fix_text clock msgs).
Proof.
  pose proof only_log_sanitize_str as S1.
  induction msgs as [| m msgs IH]; cbn [sanitize_message_history];
    frame_steps only_log_refl only_log_trans.
Qed.

Lemma needs_log_false (s : pystr) :
  needs_log fix_text s = false -> sanitize_text fix_text s = s.
Proof.
  destruct s as [| c s]; [reflexivity |]. unfold needs_log, sanitize_text.
  destruct (fix_text (c :: s)) as [t | e]; [| discriminate].
  intros H. apply negb_false_iff, pystr_eqb_eq in H. congruence.
Qed.

(** X1.  Text that the pipeline hands back as it was given leaves no
    trace: [sanitize] returns it, and the world after the call is the world
    before it (no record, no reading of the clock, no file opened), also
    on a disk that refuses writes. *)
Theorem sanitize_clean_text_leaves_no_trace (s t : pystr) (w : World) :
  fix_text s = Ok t ->
  re_sub_surrogates t = s ->
  sanitize fix_text clock (Some s) w = (Ok (Some s), w).
Proof.
  intros F E. unfold sanitize.
  assert (N : needs_log fix_text s = false).
  { destruct s as [| c s]; [reflexivity |]. unfold needs_log.
    rewrite F, E, pystr_eqb_refl. reflexivity. }
  destruct (sanitize_str_run fix_text clock s w) as (w' & R & _ & S).
  rewrite (S N) in R. rewrite N in R. cbn [andb] in R.
  rewrite (needs_log_false s N) in R.
  rewrite (bind_Ok _ _ _ _ _ R). reflexivity.
Qed.

(** X2.  When the pipeline changes the text or raises, and the disk takes
    the log, [sanitize] reads the clock once and appends one record, the
    same one to [error_log] and to the log file; every other file, the
    directories, the history, the output and the requests are as before.
    The record holds the escaped original, and the escaped cleaned text or,
    when the pipeline raised, the escaped message of the exception (not the
    sentinel that is returned). *)
Theorem sanitize_logs_one_record (s : pystr) (w : World) :
  needs_log fix_text s = true ->
  read_only (fs w) = false ->
  exists w',
    sanitize fix_text clock (Some s) w = (Ok (Some (sanitize_text fix_text s)), w')
    /\ error_log w' = error_log w ++ [owed_record fix_text clock (ticks w) s]
    /\ logged w' = logged w ++ [LogLine (owed_record fix_text clock (ticks w) s)]
    /\ ticks w' = S (ticks w)
    /\ only_log w w'
    /\ quiet w w'.
Proof.
  intros N RO. unfold sanitize, owed_record.
  destruct s as [| c s]; [discriminate N |].
  unfold needs_log in N. unfold sanitize_text.
  unfold sanitize_str, try_except, bind, lift, ret.
  destruct (fix_text (c :: s)) as [t | e].
  - rewrite utf8_round_trip_wf by apply re_sub_surrogates_wf.
    rewrite N.
    destruct (_log_error_effect (c :: s) (re_sub_surrogates t) w)
      as (w1 & E1 & L1 & T1 & F1 & _ & O1 & Q1).
    rewrite RO in E1, F1. rewrite E1.
    exists w1. split; [reflexivity |]. auto 10.
  - destruct (_log_error_effect (c :: s) (str_of e) w)
      as (w1 & E1 & L1 & T1 & F1 & _ & O1 & Q1).
    rewrite RO in E1, F1. rewrite E1.
    exists w1. split; [reflexivity |]. auto 10.
Qed.

(** X3.  On a disk that refuses the log, [sanitize] of a text that the
    pipeline changes raises [OSError] instead of returning: the [OSError]
    of the first [_log_error] is caught by the handler of [sanitize], whose
    own [_log_error] raises it again.  Each of the two calls appended its
    record to [error_log] before it opened the file, so one text leaves two
    records in memory and none on disk; the second holds the message of
    the [OSError] in place of the cleaned text. *)
Theorem sanitize_refused_log_counts_twice (s t : pystr) (w : World) :
  fix_text s = Ok t ->
  re_sub_surrogates t <> s ->
  s <> [] ->
  read_only (fs w) = true ->
  exists w',
    sanitize fix_text clock (Some s) w = (Raise (os_error LOG_PATH), w')
    /\ error_log w' =
         error_log w
         ++ [log_record clock (ticks w) s (re_sub_surrogates t);
             log_record clock (S (ticks w)) s (str_of (os_error LOG_PATH))]
    /\ fs w' = fs w
    /\ quiet w w'.
Proof.
  intros F D NE RO. unfold sanitize.
  destruct s as [| c s]; [congruence |].
  unfold sanitize_str, try_except, bind, lift, ret. rewrite F.
  rewrite utf8_round_trip_wf by apply re_sub_surrogates_wf.
  assert (N : pystr_eqb (c :: s) (re_sub_surrogates t) = false)
    by (apply pystr_eqb_neq; congruence).
  rewrite N. cbn [negb].
  destruct (_log_error_effect (c :: s) (re_sub_surrogates t) w)
    as (w1 & E1 & L1 & T1 & _ & F1 & _ & Q1).
  rewrite RO in E1. rewrite E1.
  destruct (_log_error_effect (c :: s) (str_of (os_error LOG_PATH)) w1)
    as (w2 & E2 & L2 & T2 & _ & F2 & _ & Q2).
  assert (RO1 : read_only (fs w1) = true) by (rewrite (F1 RO); exact RO).
  rewrite RO1 in E2. rewrite E2.
  exists w2. split; [reflexivity |].
  split; [rewrite L2, L1, T1, <- app_assoc; reflexivity |].
  split; [rewrite (F2 RO1); apply F1, RO |].
  eapply quiet_trans; eauto.
Qed.

(** X4.  [sanitize_message_history] returns a new list with as many
    entries, the same roles in the same order, and contents that UTF-8 can
    encode; it does not assign [self.messages], and prints and sends
    nothing.  On a disk that takes the log it always returns. *)
Theorem sanitize_message_history_shape (msgs : list Message) (w : World) :
  (read_only (fs w) = false ->
   exists v w', sanitize_message_history fix_text clock msgs w = (Ok v, w'))
  /\ (forall v w',
        sanitize_message_history fix_text clock msgs w = (Ok v, w') ->
        length v = length msgs
        /\ map role v = map role msgs
        /\ encodable_history v = true)
  /\ quiet w (snd (sanitize_message_history fix_text clock msgs w))
  /\ only_log w (snd (sanitize_message_history fix_text clock msgs w)).
Proof.
  split; [| split; [| split]].
  - intros RO. destruct (sanitize_message_history_ok fix_text clock msgs w RO)
      as (w' & E & _). eauto.
  - intros v w' E.
    destruct (sanitize_message_history_any fix_text clock msgs w)
      as (r & w1 & E1 & _ & V).
    rewrite E in E1. inversion E1; subst r w1. rewrite (V v eq_refl).
    unfold sanitize_history_text, encodable_history.
    rewrite length_map, map_map. cbn [role].
    split; [reflexivity |]. split; [reflexivity |].
    apply forallb_forall. intros m Hm. apply in_map_iff in Hm.
    destruct Hm as (m0 & <- & _). apply sanitize_text_wf.
  - destruct (sanitize_message_history_any fix_text clock msgs w)
      as (r & w1 & E1 & Q & _). rewrite E1. exact Q.
  - apply only_log_sanitize_message_history.
Qed.

End LogProperties.

(** ** What the chat sends, and what it keeps *)

(** [same_calls]: no request was sent. *)
Definition same_calls (w w' : World) : Prop := calls w' = calls w.

Lemma same_calls_refl (w : World) : same_calls w w.
Proof. reflexivity. Qed.

Lemma same_calls_trans (w1 w2 w3 : World) :
  same_calls w1 w2 -> same_calls w2 w3 -> same_calls w1 w3.
Proof. unfold same_calls. congruence. Qed.

(** [inert]: neither the history nor the requests changed. *)
Definition inert (w w' : World) : Prop :=
  messages w' = messages w /\ calls w' = calls w.

Lemma inert_refl (w : World) : inert w w.
Proof. split; reflexivity. Qed.

Lemma inert_trans (w1 w2 w3 : World) : inert w1 w2 -> inert w2 w3 -> inert w1 w3.
Proof. intros [A B] [A' B']. split; congruence. Qed.

Lemma quiet_inert (w w' : World) : quiet w w' -> inert w w'.
Proof. intros [A _ C _]. split; assumption. Qed.

(** One step of a session whose history UTF-8 can encode: the history
    after it can be encoded too, and so can every request it sent. *)
Definition encodable_step (w w' : World) : Prop :=
  encodable_history (messages w) = true ->
  encodable_history (messages w') = true
  /\ exists sent,
       calls w' = calls w ++ sent /\ forallb request_encodable sent = true.

Lemma encodable_step_refl (w : World) : encodable_step w w.
Proof.
  intros H. split; [exact H |]. exists []. rewrite app_nil_r. split; reflexivity.
Qed.

Lemma encodable_step_trans (w1 w2 w3 : World) :
  encodable_step w1 w2 -> encodable_step w2 w3 -> encodable_step w1 w3.
Proof.
  intros H1 H2 H. destruct (H1 H) as (E2 & s1 & C1 & F1).
  destruct (H2 E2) as (E3 & s2 & C2 & F2). split; [exact E3 |].
  exists (s1 ++ s2). rewrite C2, C1, <- app_assoc, forallb_app, F1, F2.
  split; reflexivity.
Qed.

Lemma inert_encodable_step (w w' : World) : inert w w' -> encodable_step w w'.
Proof.
  intros [A B] H. rewrite A, B. split; [exact H |].
  exists []. rewrite app_nil_r. split; reflexivity.
Qed.

Lemma respects_weaken (R S : World -> World -> Prop) {A : Type} (m : M A) :
  (forall w w', R w w' -> S w w') -> respects R m -> respects S m.
Proof. intros H Hm w. apply H, Hm. Qed.

Lemma inert_same_calls (w w' : World) : inert w w' -> same_calls w w'.
Proof. intros [_ B]. exact B. Qed.

(** *** The primitives *)

Lemma inert_print (s : pystr) : respects inert (print s).
Proof. intros w. split; reflexivity. Qed.

Lemma inert_datetime_now (clock : nat -> datetime) :
  respects inert (datetime_now clock).
Proof. intros w. split; reflexivity. Qed.

Lemma inert_open_append (p : pystr) (items : list fitem) :
  respects inert (open_append p items).
Proof.
  intros w. unfold open_append. destruct (read_only (fs w)); split; reflexivity.
Qed.

Lemma inert_open_write (p : pystr) : respects inert (open_write p).
Proof.
  intros w. unfold open_write. destruct (read_only (fs w)); split; reflexivity.
Qed.

Lemma inert_file_write (p : pystr) (item : fitem) :
  respects inert (file_write p item).
Proof. intros w. split; reflexivity. Qed.

Lemma inert_path_exists (p : pystr) : respects inert (path_exists p).
Proof. intros w. split; reflexivity. Qed.

Lemma inert_makedirs (p : pystr) : respects inert (makedirs p).
Proof.
  intros w. unfold makedirs. destruct (read_only (fs w)); split; reflexivity.
Qed.

Lemma inert_write_lines (p : pystr) (lines : list pystr) :
  respects inert (write_lines p lines).
Proof.
  pose proof inert_file_write as F.
  induction lines as [| l lines IH]; cbn [write_lines];
    frame_steps inert_refl inert_trans.
Qed.

Lemma inert_ensure_directory (d : pystr) : respects inert (ensure_directory d).
Proof.
  pose proof inert_path_exists as P. pose proof inert_makedirs as K.
  unfold ensure_directory. frame_steps inert_refl inert_trans.
Qed.

Lemma only_log_print (s : pystr) : respects only_log (print s).
Proof. intros w. apply only_log_same_fs. reflexivity. Qed.

Lemma only_log_set_messages (f : World -> list Message) :
  respects only_log (modify (fun w => set_messages (f w) w)).
Proof. intros w. apply only_log_same_fs. reflexivity. Qed.

Lemma only_log_set_calls (f : World -> list api_call) :
  respects only_log (modify (fun w => set_calls (f w) w)).
Proof. intros w. apply only_log_same_fs. reflexivity. Qed.

(** A history that can be encoded stays so when a message that can be
    encoded is pushed. *)
Lemma encodable_push (m : Message) (ms : list Message) :
  well_formed (content m) = true ->
  encodable_history ms = true ->
  encodable_history (push_message m ms) = true.
Proof.
  intros Hm Hms.
  assert (H : encodable_history (ms ++ [m]) = true).
  { unfold encodable_history. rewrite forallb_app. cbn.
    unfold encodable_history in Hms. rewrite Hms, Hm. reflexivity. }
  unfold push_message. cbv zeta.
  destruct (11 <? length (ms ++ [m]))%nat; [| exact H].
  destruct (ms ++ [m]) as [| m0 rest] eqn:E; [exact H |].
  unfold encodable_history in *. rewrite forallb_forall in H.
  apply forallb_forall. intros x [Hx | Hx].
  - apply H. left. exact Hx.
  - apply H. unfold last_n in Hx.
    rewrite <- (firstn_skipn (length (m0 :: rest) - 10) (m0 :: rest)).
    apply in_or_app. right. exact Hx.
Qed.

Lemma sanitize_history_text_encodable (fix_text : pystr -> Result pystr)
    (ms : list Message) :
  encodable_history (sanitize_history_text fix_text ms) = true.
Proof.
  unfold encodable_history, sanitize_history_text.
  apply forallb_forall. intros m Hm. apply in_map_iff in Hm.
  destruct Hm as (m0 & <- & _). apply sanitize_text_wf.
Qed.

Lemma role_str_wf (r : Role) : well_formed (role_str r) = true.
Proof. destruct r; reflexivity. Qed.

(** The sample [_generate_title] sends can be encoded when the messages
    it is made of can. *)
Lemma title_sample_wf (msgs : list Message) :
  encodable_history msgs = true -> well_formed (title_sample msgs) = true.
Proof.
  induction msgs as [| m msgs IH]; [reflexivity |].
  intros H. cbn [encodable_history forallb] in H.
  apply andb_true_iff in H. destruct H as [Hm Hr].
  destruct msgs as [| m' rest].
  - cbn [title_sample]. rewrite !well_formed_app, role_str_wf, Hm. reflexivity.
  - change (title_sample (m :: m' :: rest))
      with (role_str (role m) ++ py ": " ++ content m ++ [NL]
            ++ title_sample (m' :: rest)).
    rewrite !well_formed_app, role_str_wf, Hm, (IH Hr). reflexivity.
Qed.

Lemma encodable_sample (ms : list Message) :
  encodable_history ms = true ->
  encodable_history (firstn 2 (skipn 1 ms)) = true.
Proof.
  unfold encodable_history. rewrite !forallb_forall. intros H x Hx.
  apply H.
  rewrite <- (firstn_skipn 1 ms). apply in_or_app. right.
  rewrite <- (firstn_skipn 2 (skipn 1 ms)). apply in_or_app. left. exact Hx.
Qed.

Section ChatFrames.

Variable fix_text : pystr -> Result pystr.
Variable clock : nat -> datetime.
Variable stream_reply_of : nat -> stream_reply.
Variable title_reply_of : nat -> title_reply.
Variable home : option pystr.

Lemma inert_sanitize_str (s : pystr) :
  respects inert (sanitize_str fix_text clock s).
Proof.
  intros w. destruct (sanitize_str_run fix_text clock s w) as (w' & E & Q & _).
  rewrite E. apply quiet_inert, Q.
Qed.

Lemma inert_sanitize_message_history (msgs : list Message) :
  respects inert (sanitize_message_history fix_text clock msgs).
Proof.
  intros w. destruct (sanitize_message_history_any fix_text clock msgs w)
    as (r & w' & E & Q & _).
  rewrite E. apply quiet_inert, Q.
Qed.

Lemma inert_consume_stream (chunks : list (option pystr)) (acc : list pystr) :
  respects inert (consume_stream fix_text clock chunks acc).
Proof.
  pose proof inert_sanitize_str as S1. pose proof inert_print as P.
  revert acc. induction chunks as [| [[| c s] |] chunks IH]; intros acc;
    cbn [consume_stream]; frame_steps inert_refl inert_trans.
Qed.

Lemma only_log_consume_stream (chunks : list (option pystr)) (acc : list pystr) :
  respects only_log (consume_stream fix_text clock chunks acc).
Proof.
  pose proof (only_log_sanitize_str fix_text clock) as S1.
  pose proof only_log_print as P.
  revert acc. induction chunks as [| [[| c s] |] chunks IH]; intros acc;
    cbn [consume_stream]; frame_steps only_log_refl only_log_trans.
Qed.

Lemma same_calls_add_message (r : Role) (c : pystr) :
  respects same_calls (add_message fix_text clock r c).
Proof.
  intros w. destruct (add_message_run fix_text clock r c w)
    as (w' & E & _ & _ & C & _).
  rewrite E. exact C.
Qed.

Lemma only_log_add_message (r : Role) (c : pystr) :
  respects only_log (add_message fix_text clock r c).
Proof.
  pose proof (only_log_sanitize_str fix_text clock) as S1.
  pose proof only_log_set_messages as S2.
  unfold add_message.
  apply (respects_bind _ only_log_trans); [apply S1 | intros clean].
  apply (respects_bind _ only_log_trans); [apply S2 | intros _].
  apply (respects_bind _ only_log_trans);
    [apply (respects_get _ only_log_refl) | intros w].
  destruct (11 <? length (messages w))%nat;
    [| apply (respects_ret _ only_log_refl)].
  destruct (messages w) as [| m0 rest];
    [apply (respects_raise _ only_log_refl) |].
  intros w0. apply only_log_same_fs. reflexivity.
Qed.

Lemma encodable_step_add_message (r : Role) (c : pystr) :
  respects encodable_step (add_message fix_text clock r c).
Proof.
  intros w H. destruct (add_message_run fix_text clock r c w)
    as (w' & E & Hm & _ & C & _).
  rewrite E. cbn [snd]. rewrite Hm, C. split.
  - destruct (needs_log fix_text c && read_only (fs w)); [exact H |].
    apply encodable_push; [apply sanitize_text_wf | exact H].
  - exists []. rewrite app_nil_r. split; reflexivity.
Qed.

(** What follows the request in one attempt sends nothing more. *)
Lemma same_calls_after_request (reply : stream_reply) :
  respects same_calls
    (match reply with
     | CreateRaises e => raise e
     | Streams chunks fin =>
         print ASSISTANT_PROMPT ;;
         full_response <- consume_stream fix_text clock chunks [] ;;
         match fin with
         | Some e => raise e
         | None =>
             print [NL] ;;
             add_message fix_text clock assistant (join full_response)
         end
     end).
Proof.
  pose proof same_calls_add_message as A.
  assert (P : forall s, respects same_calls (print s))
    by (intros s w; reflexivity).
  assert (C : forall chunks acc,
             respects same_calls (consume_stream fix_text clock chunks acc)).
  { intros chunks acc. apply (respects_weaken inert); [apply inert_same_calls |].
    apply inert_consume_stream. }
  frame_steps same_calls_refl same_calls_trans.
Qed.

Lemma encodable_step_after_request (reply : stream_reply) :
  respects encodable_step
    (match reply with
     | CreateRaises e => raise e
     | Streams chunks fin =>
         print ASSISTANT_PROMPT ;;
         full_response <- consume_stream fix_text clock chunks [] ;;
         match fin with
         | Some e => raise e
         | None =>
             print [NL] ;;
             add_message fix_text clock assistant (join full_response)
         end
     end).
Proof.
  pose proof encodable_step_add_message as A.
  assert (P : forall s, respects encodable_step (print s)).
  { intros s. apply (respects_weaken inert); [apply inert_encodable_step |].
    apply inert_print. }
  assert (C : forall chunks acc,
             respects encodable_step (consume_stream fix_text clock chunks acc)).
  { intros chunks acc.
    apply (respects_weaken inert); [apply inert_encodable_step |].
    apply inert_consume_stream. }
  frame_steps encodable_step_refl encodable_step_trans.
Qed.

Lemma only_log_stream_attempt :
  respects only_log (stream_attempt fix_text clock stream_reply_of).
Proof.
  pose proof (only_log_sanitize_message_history fix_text clock) as S1.
  pose proof only_log_print as P.
  pose proof only_log_consume_stream as C.
  pose proof only_log_add_message as A.
  pose proof only_log_set_calls as K.
  unfold stream_attempt.
  apply (respects_bind _ only_log_trans);
    [apply (respects_get _ only_log_refl) | intros w].
  apply (respects_bind _ only_log_trans); [apply S1 | intros safe].
  apply (respects_bind _ only_log_trans);
    [apply (respects_get _ only_log_refl) | intros w1].
  apply (respects_bind _ only_log_trans).
  { intros w0. apply only_log_same_fs. reflexivity. }
  intros _. frame_steps only_log_refl only_log_trans.
Qed.

(** One attempt sends at most one request, whose contents can be encoded,
    and leaves a history that can be encoded if it found one. *)
Lemma stream_attempt_sends (w : World) :
  let w' := snd (stream_attempt fix_text clock stream_reply_of w) in
  exists sent,
    calls w' = calls w ++ sent
    /\ (length sent <= 1)%nat
    /\ forallb request_encodable sent = true
    /\ (encodable_history (messages w) = true ->
        encodable_history (messages w') = true).
Proof.
  unfold stream_attempt. rewrite (bind_Ok get _ w w w) by reflexivity.
  destruct (sanitize_message_history_any fix_text clock (messages w) w)
    as (r & w1 & E & Q & V).
  destruct r as [safe | e].
  - rewrite (bind_Ok _ _ _ _ _ E).
    rewrite (bind_Ok get _ w1 w1 w1) by reflexivity.
    rewrite (bind_Ok (modify _) _ w1
               (set_calls (calls w1 ++ [StreamCall safe]) w1) tt)
      by reflexivity.
    set (w2 := set_calls (calls w1 ++ [StreamCall safe]) w1).
    pose proof (same_calls_after_request
                  (stream_reply_of (length (calls w1))) w2) as T.
    pose proof (encodable_step_after_request
                  (stream_reply_of (length (calls w1))) w2) as U.
    cbv zeta. exists [StreamCall safe]. split.
    { unfold same_calls in T. rewrite T. subst w2. cbn [calls set_calls].
      rewrite (quiet_calls _ _ Q). reflexivity. }
    split; [cbn; lia |]. split.
    + cbn. rewrite (V safe eq_refl), sanitize_history_text_encodable.
      reflexivity.
    + intros H. apply U. subst w2. cbn [messages set_calls].
      rewrite (quiet_messages _ _ Q). exact H.
  - rewrite (bind_Raise _ _ _ _ _ E). cbv zeta. cbn [snd]. exists [].
    rewrite app_nil_r, (quiet_calls _ _ Q), (quiet_messages _ _ Q).
    split; [reflexivity |]. split; [cbn; lia |]. split; [reflexivity | auto].
Qed.

(** The loop sends at most one request for each attempt it has left. *)
Lemma stream_loop_sends (remaining attempt max_retries : nat) (w : World) :
  let w' := snd (stream_loop fix_text clock stream_reply_of remaining attempt
                   max_retries w) in
  exists sent,
    calls w' = calls w ++ sent
    /\ (length sent <= remaining)%nat
    /\ forallb request_encodable sent = true
    /\ (encodable_history (messages w) = true ->
        encodable_history (messages w') = true).
Proof.
  revert attempt w. induction remaining as [| r IH]; intros attempt w; cbv zeta.
  - cbn. exists []. rewrite app_nil_r. auto.
  - cbn [stream_loop]. unfold try_except.
    destruct (stream_attempt_sends w) as (s1 & C1 & L1 & F1 & H1).
    cbv zeta in C1, H1.
    destruct (stream_attempt fix_text clock stream_reply_of w) as [[u | e] w1].
    + cbn [snd] in *. exists s1. split; [exact C1 |].
      split; [lia |]. split; assumption.
    + cbn [snd] in C1, H1. destruct (is_UnicodeEncodeError e).
      * rewrite (bind_Ok (print _) _ w1
                   (set_stdout (stdout w1 ++ [retry_notice (S attempt) max_retries]) w1)
                   tt) by reflexivity.
        set (w2 := set_stdout _ w1).
        rewrite (bind_Ok get _ w2 w2 w2) by reflexivity.
        destruct (sanitize_message_history_any fix_text clock (messages w2) w2)
          as (r2 & w3 & E3 & Q3 & V3).
        destruct r2 as [msgs | e2].
        -- rewrite (bind_Ok _ _ _ _ _ E3).
           rewrite (bind_Ok (modify _) _ w3 (set_messages msgs w3) tt)
             by reflexivity.
           destruct (IH (S attempt) (set_messages msgs w3))
             as (s2 & C2 & L2 & F2 & H2).
           cbv zeta in C2, H2. exists (s1 ++ s2).
           rewrite C2. cbn [calls set_messages].
           rewrite (quiet_calls _ _ Q3). subst w2. cbn [calls set_stdout].
           rewrite C1, <- app_assoc, forallb_app, F1, F2, length_app.
           split; [reflexivity |]. split; [lia |]. split; [reflexivity |].
           intros _. apply H2. cbn [messages set_messages].
           rewrite (V3 msgs eq_refl). apply sanitize_history_text_encodable.
        -- rewrite (bind_Raise _ _ _ _ _ E3). cbn [snd]. exists s1.
           rewrite (quiet_calls _ _ Q3), (quiet_messages _ _ Q3).
           subst w2. cbn [calls messages set_stdout].
           split; [exact C1 |]. split; [lia |]. split; assumption.
      * destruct (sanitize_str_any fix_text clock (REQUEST_FAILED ++ str_of e) w1)
          as (r2 & w2 & E2 & Q2 & _).
        destruct r2 as [msg | e2].
        -- rewrite (bind_Ok _ _ _ _ _ E2). cbn [snd print modify].
           cbn [calls messages set_stdout].
           rewrite (quiet_calls _ _ Q2), (quiet_messages _ _ Q2).
           exists s1. split; [exact C1 |]. split; [lia |]. split; assumption.
        -- rewrite (bind_Raise _ _ _ _ _ E2). cbn [snd].
           rewrite (quiet_calls _ _ Q2), (quiet_messages _ _ Q2).
           exists s1. split; [exact C1 |]. split; [lia |]. split; assumption.
Qed.

Lemma only_log_stream_loop (remaining attempt max_retries : nat) :
  respects only_log
    (stream_loop fix_text clock stream_reply_of remaining attempt max_retries).
Proof.
  pose proof only_log_stream_attempt as A.
  pose proof only_log_print as P.
  pose proof (only_log_sanitize_message_history fix_text clock) as S1.
  pose proof (only_log_sanitize_str fix_text clock) as S2.
  revert attempt. induction remaining as [| r IH]; intros attempt;
    cbn [stream_loop]; [apply P |].
  apply (respects_try_except _ only_log_trans); [exact A | intros e].
  destruct (is_UnicodeEncodeError e).
  - apply (respects_bind _ only_log_trans); [apply P | intros _].
    apply (respects_bind _ only_log_trans);
      [apply (respects_get _ only_log_refl) | intros w].
    apply (respects_bind _ only_log_trans); [apply S1 | intros msgs].
    apply (respects_bind _ only_log_trans); [| intros _; apply IH].
    intros w0. apply only_log_same_fs. reflexivity.
  - apply (respects_bind _ only_log_trans); [apply S2 | intros msg]. apply P.
Qed.

Lemma encodable_step_stream_loop (remaining attempt max_retries : nat) :
  respects encodable_step
    (stream_loop fix_text clock stream_reply_of remaining attempt max_retries).
Proof.
  intros w H.
  destruct (stream_loop_sends remaining attempt max_retries w)
    as (sent & C & _ & F & E).
  split; [apply E, H |]. exists sent. split; assumption.
Qed.

Lemma encodable_step__generate_title :
  respects encodable_step (_generate_title title_reply_of).
Proof.
  unfold _generate_title.
  apply (respects_try_except _ encodable_step_trans).
  - intros w H. rewrite (bind_Ok get _ w w w) by reflexivity.
    pose proof (encodable_sample (messages w) H) as HS.
    destruct (firstn 2 (skipn 1 (messages w))) as [| m ms];
      [apply encodable_step_refl, H |].
    rewrite (bind_Ok (modify _) _ w
               (set_calls (calls w ++
                  [TitleCall [Msg system TITLE_PROMPT;
                              Msg user (title_sample (m :: ms))]]) w) tt)
      by reflexivity.
    assert (G : forall (r : Result (option pystr)) w2,
              encodable_history (messages w2) = true
              /\ (exists sent, calls w2 = calls w ++ sent
                               /\ forallb request_encodable sent = true) ->
              encodable_history (messages (snd (r, w2))) = true
              /\ (exists sent, calls (snd (r, w2)) = calls w ++ sent
                               /\ forallb request_encodable sent = true))
      by (intros r w2 K; exact K).
    destruct (title_reply_of (length (calls w))) as [e | [c |]];
      apply G; (split; [exact H |]); eexists; (split; [reflexivity |]);
      unfold request_encodable, encodable_history; cbn [forallb content];
      rewrite (title_sample_wf (m :: ms) HS); reflexivity.
  - intros e. apply (respects_bind _ encodable_step_trans);
      [| intros _; apply (respects_ret _ encodable_step_refl)].
    apply (respects_weaken inert); [apply inert_encodable_step |].
    apply inert_print.
Qed.

Lemma encodable_step_save_conversation :
  respects encodable_step (save_conversation clock title_reply_of home).
Proof.
  pose proof encodable_step__generate_title as T.
  assert (I : forall (A : Type) (m : M A),
             respects inert m -> respects encodable_step m).
  { intros A m. apply respects_weaken, inert_encodable_step. }
  pose proof (I _ _ (inert_datetime_now clock)) as H1.
  pose proof (fun d => I _ _ (inert_ensure_directory d)) as H2.
  pose proof (fun p => I _ _ (inert_open_write p)) as H3.
  pose proof (fun p i => I _ _ (inert_file_write p i)) as H4.
  pose proof (fun p l => I _ _ (inert_write_lines p l)) as H5.
  unfold save_conversation, should_save_conversation.
  frame_steps encodable_step_refl encodable_step_trans.
Qed.

Lemma perform_encodable_step (op : operation) (w : World) :
  encodable_step w
    (perform fix_text clock stream_reply_of title_reply_of home op w).
Proof.
  destruct op as [r c | n | |]; cbn [perform].
  - apply encodable_step_add_message.
  - apply encodable_step_stream_loop.
  - apply encodable_step_save_conversation.
  - apply encodable_step__generate_title.
Qed.

Lemma perform_all_encodable_step (ops : list operation) (w : World) :
  encodable_step w
    (perform_all fix_text clock stream_reply_of title_reply_of home ops w).
Proof.
  revert w. induction ops as [| op ops IH]; intros w;
    [apply encodable_step_refl |].
  cbn [perform_all].
  eapply encodable_step_trans; [apply perform_encodable_step | apply IH].
Qed.

End ChatFrames.

Section ChatProperties.

Variable fix_text : pystr -> Result pystr.
Variable clock : nat -> datetime.
Variable stream_reply_of : nat -> stream_reply.
Variable title_reply_of : nat -> title_reply.
Variable home : option pystr.




(** X6.  In any world, also on a disk that refuses the log, [stream_chat]
    sends at most [max_retries] requests; the contents of every request it
    sends can be encoded in UTF-8; and it touches no file but the
    sanitizer's log and creates no directory. *)
Theorem stream_chat_requests_bounded (max_retries : nat) (w : World) :
  let w' := snd (stream_chat fix_text clock stream_reply_of max_retries w) in
  (exists sent,
     calls w' = calls w ++ sent
     /\ (length sent <= max_retries)%nat
     /\ forallb request_encodable sent = true)
  /\ only_log w w'.
Proof.
  cbv zeta. unfold stream_chat. split.
  - destruct (stream_loop_sends fix_text clock stream_reply_of max_retries 0
                max_retries w) as (sent & C & L & F & _).
    exists sent. auto.
  - apply only_log_stream_loop.
Qed.

(** X7.  Chunks whose [delta.content] is [None] or empty leave no trace:
    the loop over the stream prints, logs and collects what it would
    without them. *)
Theorem consume_stream_skips_empty_chunks (chunks : list (option pystr))
    (acc : list pystr) (w : World) :
  consume_stream fix_text clock chunks acc w
  = consume_stream fix_text clock (filter has_content chunks) acc w.
Proof.
  revert acc w. induction chunks as [| [[| c s] |] chunks IH]; intros acc w;
    cbn [filter has_content consume_stream]; [reflexivity | apply IH | | apply IH].
  unfold bind. destruct (sanitize_str fix_text clock (c :: s) w) as [[t | e] w1];
    [| reflexivity].
  destruct (print t w1) as [[u | e] w2]; [apply IH | reflexivity].
Qed.

(** X8.  From [_initialize_session] on, through every sequence of
    [add_message], [stream_chat], [save_conversation] and [_generate_title]
    calls, whatever each returns or raises, every content in the history
    can be encoded in UTF-8 (no lone surrogate), and so can every content
    of every request sent, streaming or title. *)
Theorem session_stays_encodable (w0 w1 : World) (ops : list operation) :
  _initialize_session fix_text clock w0 = (Ok tt, w1) ->
  let w := perform_all fix_text clock stream_reply_of title_reply_of home
             ops w1 in
  encodable_history (messages w) = true
  /\ exists sent,
       calls w = calls w1 ++ sent /\ forallb request_encodable sent = true.
Proof.
  intros E w. apply perform_all_encodable_step.
  rewrite (_initialize_session_history fix_text clock w0 w1 E).
  unfold encodable_history. cbn [forallb content].
  rewrite sanitize_text_wf. reflexivity.
Qed.

End ChatProperties.

Lemma sanitize_clean_text_leaves_no_trace_witness :
  sanitize fix_text_plain fixed_clock (Some (py "hello")) (blank_world locked_fs)
  = (Ok (Some (py "hello")), blank_world locked_fs).
Proof.
  apply (sanitize_clean_text_leaves_no_trace fix_text_plain fixed_clock
           (py "hello") (py "hello")); reflexivity.
Defined.

Lemma sanitize_logs_one_record_witness :
  exists w',
    sanitize fix_text_plain fixed_clock (Some lone_surrogate_text)
      (blank_world empty_fs)
    = (Ok (Some (py "a\ud83dz")), w')
    /\ length (error_log w') = 1%nat
    /\ logged w' = map LogLine (error_log w').
Proof.
  destruct (sanitize_logs_one_record fix_text_plain fixed_clock
              lone_surrogate_text (blank_world empty_fs))
    as (w' & E & L & F & _); [reflexivity | reflexivity |].
  exists w'. split; [exact E |]. rewrite L, F. split; reflexivity.
Defined.

Lemma sanitize_refused_log_counts_twice_witness :
  exists w',
    sanitize fix_text_plain fixed_clock (Some lone_surrogate_text)
      (blank_world locked_fs)
    = (Raise (os_error LOG_PATH), w')
    /\ length (error_log w') = 2%nat
    /\ fs w' = locked_fs.
Proof.
  destruct (sanitize_refused_log_counts_twice fix_text_plain fixed_clock
              lone_surrogate_text lone_surrogate_text (blank_world locked_fs))
    as (w' & E & L & F & _);
    [reflexivity | vm_compute; discriminate | discriminate | reflexivity |].
  exists w'. split; [exact E |]. rewrite L. split; [reflexivity | exact F].
Defined.


Lemma session_stays_encodable_witness :
  encodable_history
    (messages
       (perform_all fix_text_plain fixed_clock flaky_endpoint untitled_endpoint
          data_home
          [AddMessage user lone_surrogate_text; StreamChat 3; SaveConversation]
          fresh_session))
  = true.
Proof.
  assert (I : _initialize_session fix_text_plain fixed_clock (blank_world empty_fs)
              = (Ok tt, fresh_session)) by (vm_compute; reflexivity).
  destruct (session_stays_encodable fix_text_plain fixed_clock flaky_endpoint
              untitled_endpoint data_home (blank_world empty_fs) fresh_session
              [AddMessage user lone_surrogate_text; StreamChat 3; SaveConversation]
              I) as (H & _).
  exact H.
Defined.

(** ** Titles and files *)

Lemma lstrip_In (s : pystr) (c : codepoint) : In c (lstrip s) -> In c s.
Proof.
  induction s as [| a s IH]; cbn; [tauto |].
  destruct (py_isspace a); [intros H; right; apply IH, H | cbn; tauto].
Qed.

Lemma lstrip_head (s rest : pystr) (c : codepoint) :
  lstrip s = c :: rest -> py_isspace c = false.
Proof.
  induction s as [| a s IH]; cbn; [discriminate |].
  destruct (py_isspace a) eqn:E; [exact IH |].
  intros H. inversion H; subst. exact E.
Qed.

Lemma lstrip_snoc (s : pystr) (c : codepoint) :
  py_isspace c = false -> lstrip (s ++ [c]) = lstrip s ++ [c].
Proof.
  intros Hc. induction s as [| a s IH]; cbn; [rewrite Hc; reflexivity |].
  destruct (py_isspace a); [exact IH | reflexivity].
Qed.

(** What [strip] returns does not begin with whitespace. *)
Lemma strip_head (s rest : pystr) (c : codepoint) :
  strip s = c :: rest -> py_isspace c = false.
Proof.
  unfold strip. destruct (lstrip s) as [| c0 t] eqn:E; [discriminate |].
  pose proof (lstrip_head s t c0 E) as H0.
  cbn [rev]. rewrite lstrip_snoc by exact H0.
  rewrite rev_app_distr. cbn. intros H. inversion H; subst. exact H0.
Qed.

Lemma strip_In (s : pystr) (c : codepoint) : In c (strip s) -> In c s.
Proof.
  unfold strip. intros H. apply in_rev, lstrip_In in H.
  apply in_rev, lstrip_In in H. exact H.
Qed.

Lemma filter_none {A : Type} (f : A -> bool) (l : list A) :
  forallb (fun x => negb (f x)) l = true -> filter f l = [].
Proof.
  induction l as [| a l IH]; cbn; [reflexivity |].
  intros H. apply andb_true_iff in H. destruct H as [Ha Hl].
  apply negb_true_iff in Ha. rewrite Ha. apply IH, Hl.
Qed.

Lemma filter_all {A : Type} (f : A -> bool) (l : list A) :
  forallb f l = true -> filter f l = l.
Proof.
  induction l as [| a l IH]; cbn; [reflexivity |].
  intros H. apply andb_true_iff in H. destruct H as [Ha Hl].
  rewrite Ha, (IH Hl). reflexivity.
Qed.

(** X9.  What [_sanitize_filename] returns has at most 30 characters, all
    of them CJK ideographs, ASCII letters, digits, underscores or spaces (so
    no path separator, no dot, no control character), and does not begin
    with whitespace.  A title made of permitted characters only, with no
    whitespace around it and at most 30 characters long, comes back as it
    is; a title with no permitted character gives the empty name. *)
Theorem _sanitize_filename_result (title : pystr) :
  (length (_sanitize_filename title) <= 30)%nat
  /\ forallb filename_char (_sanitize_filename title) = true
  /\ (forall c rest, _sanitize_filename title = c :: rest -> py_isspace c = false)
  /\ (forallb filename_char title = true -> strip title = title ->
      (length title <= 30)%nat -> _sanitize_filename title = title)
  /\ (forallb (fun c => negb (filename_char c)) title = true ->
      _sanitize_filename title = []).
Proof.
  unfold _sanitize_filename, first_n. cbv zeta.
  split; [apply firstn_le_length |]. split; [| split; [| split]].
  - apply forallb_forall. intros c Hc.
    assert (H1 : In c (strip (filter filename_char title))).
    { rewrite <- (firstn_skipn 30). apply in_or_app. left. exact Hc. }
    apply strip_In, filter_In in H1. apply H1.
  - intros c rest H.
    destruct (strip (filter filename_char title)) as [| c0 t] eqn:E;
      [discriminate H |].
    cbn in H. inversion H; subst. apply (strip_head _ _ _ E).
  - intros Hf Hs Hl. rewrite (filter_all _ _ Hf), Hs. apply firstn_all2, Hl.
  - intros Hf. rewrite (filter_none _ _ Hf). reflexivity.
Qed.

Lemma transcript_lines_length (idx : nat) (msgs : list Message) :
  length (transcript_lines idx msgs) = length msgs.
Proof.
  revert idx. induction msgs as [| m msgs IH]; intros idx; cbn;
    [reflexivity | rewrite IH; reflexivity].
Qed.

Lemma ensure_directory_refused (d : pystr) (w : World) :
  read_only (fs w) = true ->
  ensure_directory d w = (Ok tt, w) \/ ensure_directory d w = (Raise (os_error d), w).
Proof.
  intros RO. unfold ensure_directory, bind, path_exists.
  destruct (negb _); [| left; reflexivity].
  unfold makedirs. rewrite RO. right. reflexivity.
Qed.

Lemma line_breaks_app (s t : pystr) :
  line_breaks (s ++ t) = (line_breaks s + line_breaks t)%nat.
Proof. unfold line_breaks. rewrite filter_app, length_app. reflexivity. Qed.

Lemma line_breaks_digit (z : Z) (s : pystr) :
  line_breaks (dec_digit (z mod 10) :: s) = line_breaks s.
Proof.
  pose proof (Z.mod_pos_bound z 10 ltac:(lia)) as H.
  unfold line_breaks, dec_digit. cbn [filter]. rewrite ord_chr' by lia.
  destruct (Z.eqb_spec (48 + z mod 10) 10); [lia | reflexivity].
Qed.

Lemma line_breaks_pad_digits (n : nat) (z : Z) : line_breaks (pad_digits n z) = 0%nat.
Proof.
  revert z. induction n as [| n IH]; intros z; cbn [pad_digits]; [reflexivity |].
  rewrite line_breaks_app, IH, line_breaks_digit. reflexivity.
Qed.

Lemma line_breaks_dec_digits (fuel : nat) (z : Z) (acc : pystr) :
  line_breaks (dec_digits_fuel fuel z acc) = line_breaks acc.
Proof.
  revert z acc. induction fuel as [| fuel IH]; intros z acc;
    cbn [dec_digits_fuel]; [reflexivity |].
  cbv zeta. destruct (z <? 10); [| rewrite IH]; apply line_breaks_digit.
Qed.

Lemma line_breaks_str_of_nat (n : nat) : line_breaks (str_of_nat n) = 0%nat.
Proof. unfold str_of_nat. rewrite line_breaks_dec_digits. reflexivity. Qed.

Lemma line_breaks_stamp (d : datetime) : line_breaks (strftime_stamp d) = 0%nat.
Proof.
  unfold strftime_stamp. rewrite !line_breaks_app, !line_breaks_pad_digits.
  reflexivity.
Qed.

Lemma line_breaks_header (d : datetime) :
  line_breaks (transcript_header (strftime_stamp d)) = 1%nat.
Proof.
  unfold transcript_header. rewrite !line_breaks_app, line_breaks_stamp.
  reflexivity.
Qed.

(** A line of the transcript ends in a line break and holds those of the
    content besides. *)
Lemma line_breaks_transcript_line (idx : nat) (m : Message) :
  line_breaks (transcript_line idx m) = S (line_breaks (content m)).
Proof.
  unfold transcript_line. rewrite !line_breaks_app, line_breaks_str_of_nat.
  assert (R : line_breaks (role_label (role m)) = 0%nat)
    by (unfold role_label; destruct (is_user (role m)); reflexivity).
  rewrite R.
  change (line_breaks (py "[")) with 0%nat.
  change (line_breaks (py "] ")) with 0%nat.
  change (line_breaks (py "：")) with 0%nat.
  change (line_breaks [NL]) with 1%nat. lia.
Qed.

Lemma line_breaks_transcript_lines (idx : nat) (msgs : list Message) :
  line_breaks (concat (transcript_lines idx msgs))
  = (length msgs + content_line_breaks msgs)%nat.
Proof.
  revert idx. unfold content_line_breaks.
  induction msgs as [| m msgs IH]; intros idx; [reflexivity |].
  cbn [transcript_lines concat length map].
  rewrite line_breaks_app, line_breaks_transcript_line, IH.
  unfold list_sum. cbn [fold_right]. lia.
Qed.

Lemma file_text_Text (lines : list pystr) : file_text (map Text lines) = concat lines.
Proof.
  unfold file_text. induction lines as [| l lines IH]; [reflexivity |].
  cbn [map flat_map concat]. rewrite IH. reflexivity.
Qed.

Section FileProperties.

Variable clock : nat -> datetime.
Variable title_reply_of : nat -> title_reply.
Variable home : option pystr.

Lemma _generate_title_effect (w : World) :
  _generate_title title_reply_of w =
    (Ok (title_value title_reply_of w),
     set_stdout (stdout w ++ title_complaint title_reply_of w)
       (set_calls (calls w ++ title_request w) w)).
Proof.
  unfold _generate_title, title_value, title_complaint, title_request,
    try_except, bind, get.
  destruct w as [ms el out f t cs].
  cbn [messages calls stdout].
  destruct (firstn 2 (skipn 1 ms)) as [| m l].
  - cbn. rewrite !app_nil_r. reflexivity.
  - unfold modify. cbn [fst snd calls set_calls].
    destruct (title_reply_of (length cs)) as [e | [c |]];
      cbn; rewrite ?app_nil_r; reflexivity.
Qed.

(** X10.  However [_generate_title] ends, it has sent one request when
    the history has a message after the system message and none otherwise;
    the request holds the title prompt and the first two messages after
    the system message, not the system prompt of the chat.  It leaves the
    history, the files and the clock alone.  A title it returns has at most
    30 characters, all of them permitted in a file name, and then it has
    printed nothing. *)
Theorem _generate_title_request (w : World) :
  let sample := firstn 2 (skipn 1 (messages w)) in
  let result := fst (_generate_title title_reply_of w) in
  let w' := snd (_generate_title title_reply_of w) in
  messages w' = messages w
  /\ fs w' = fs w
  /\ ticks w' = ticks w
  /\ calls w' =
       calls w
       ++ (if (length (messages w) <=? 1)%nat then []
           else [TitleCall [Msg system TITLE_PROMPT;
                            Msg user (title_sample sample)]])
  /\ (forall t, result = Ok (Some t) ->
        (length t <= 30)%nat /\ forallb filename_char t = true
        /\ stdout w' = stdout w).
Proof.
  intros sample. cbv zeta. rewrite _generate_title_effect. cbn [fst snd].
  split; [reflexivity |]. split; [reflexivity |]. split; [reflexivity |].
  cbn [calls stdout set_stdout set_calls].
  unfold title_request, title_complaint, title_value. fold sample.
  assert (S : (length (messages w) <=? 1)%nat = true -> sample = []).
  { intros H. apply Nat.leb_le in H. subst sample.
    destruct (messages w) as [| m0 [| m1 r]]; cbn in *; [reflexivity .. | lia]. }
  assert (S' : (length (messages w) <=? 1)%nat = false -> sample <> []).
  { intros H. apply Nat.leb_gt in H. subst sample.
    destruct (messages w) as [| m0 [| m1 r]]; cbn in *; [lia .. | discriminate]. }
  destruct (length (messages w) <=? 1)%nat eqn:L.
  - rewrite (S eq_refl). split; [reflexivity | discriminate].
  - specialize (S' eq_refl). destruct sample as [| m l]; [congruence |].
    split; [reflexivity |].
    destruct (title_reply_of (length (calls w))) as [e | [c |]];
      try discriminate.
    intros t Ht. inversion Ht; subst t.
    destruct (_sanitize_filename_result (strip c)) as (A & B & _).
    rewrite app_nil_r. auto.
Qed.

(** X11.  Past the gate, on a disk that refuses writes, [save_conversation]
    raises [OSError]: no file and no directory has changed and the history
    is as it was, but the clock was read and the title request was already
    sent. *)
Theorem save_conversation_refused (w : World) :
  (5 <= length (messages w))%nat ->
  read_only (fs w) = true ->
  exists path w',
    save_conversation clock title_reply_of home w = (Raise (os_error path), w')
    /\ fs w' = fs w
    /\ messages w' = messages w
    /\ length (calls w') = S (length (calls w))
    /\ ticks w' = S (ticks w).
Proof.
  intros L RO. unfold save_conversation.
  rewrite (bind_Ok should_save_conversation _ w w
             (5 <=? length (messages w))%nat) by reflexivity.
  destruct (Nat.leb_spec 5 (length (messages w))) as [_ | L']; [| lia].
  cbn [negb].
  set (w1 := set_ticks (S (ticks w)) w).
  rewrite (bind_Ok (datetime_now clock) _ w w1 (clock (ticks w))) by reflexivity.
  rewrite (bind_Ok _ _ _ _ _ (_generate_title_effect w1)).
  set (w2 := set_stdout _ _).
  assert (RO2 : read_only (fs w2) = true) by exact RO.
  assert (C : length (calls w2) = S (length (calls w))).
  { subst w2 w1. cbn [calls set_stdout set_calls set_ticks].
    unfold title_request. cbn [messages set_ticks].
    destruct (messages w) as [| m0 [| m1 r]]; cbn in L; try lia.
    cbn [skipn firstn]. destruct r; rewrite length_app; cbn; lia. }
  assert (Done : forall p (k : M bool),
            bind (ret tt) (fun _ => k) w2 = (Raise (os_error p), w2) ->
            exists path w',
              bind (ret tt) (fun _ => k) w2 = (Raise (os_error path), w')
              /\ fs w' = fs w /\ messages w' = messages w
              /\ length (calls w') = S (length (calls w))
              /\ ticks w' = S (ticks w)).
  { intros p k E. exists p, w2. split; [exact E |]. auto. }
  destruct (ensure_directory_refused (fmt_opt home ++ JSON_DIR) w2 RO2)
    as [E3 | E3].
  - rewrite (bind_Ok _ _ _ _ _ E3).
    destruct (ensure_directory_refused (fmt_opt home ++ TXT_DIR) w2 RO2)
      as [E4 | E4].
    + rewrite (bind_Ok _ _ _ _ _ E4).
      match goal with
      | |- context [open_write ?p] =>
          rewrite (bind_Raise (open_write p) _ w2 w2 (os_error p))
            by (unfold open_write; rewrite RO2; reflexivity);
          exists p, w2
      end.
      split; [reflexivity |]. auto.
    + rewrite (bind_Raise _ _ _ _ _ E4). eexists. exists w2.
      split; [reflexivity |]. auto.
  - rewrite (bind_Raise _ _ _ _ _ E3). eexists. exists w2.
    split; [reflexivity |]. auto.
Qed.

(** Past the gate, on a disk that takes writes: the two files, and every
    other file as it was. *)
Lemma save_conversation_effect (w : World) :
  (5 <= length (messages w))%nat ->
  read_only (fs w) = false ->
  let base := base_name_of (title_value title_reply_of w)
                (strftime_stamp (clock (ticks w))) in
  exists w',
    save_conversation clock title_reply_of home w = (Ok true, w')
    /\ file_at (json_path_of home base) w' = Some (json_artifact clock w)
    /\ file_at (txt_path_of home base) w' = Some (transcript clock w)
    /\ (forall q, q <> json_path_of home base -> q <> txt_path_of home base ->
                  file_at q w' = file_at q w).
Proof.
  intros L RO base.
  unfold save_conversation.
  rewrite (bind_Ok should_save_conversation _ w w
             (5 <=? length (messages w))%nat) by reflexivity.
  destruct (Nat.leb_spec 5 (length (messages w))) as [_ | L']; [| lia].
  cbn [negb].
  set (w1 := set_ticks (S (ticks w)) w).
  rewrite (bind_Ok (datetime_now clock) _ w w1 (clock (ticks w))) by reflexivity.
  destruct (_generate_title_run title_reply_of w1) as (w2 & E2 & S2 & F2).
  rewrite (bind_Ok _ _ _ _ _ E2).
  change (title_value title_reply_of w1) with (title_value title_reply_of w).
  fold base.
  assert (RO2 : read_only (fs w2) = false) by (rewrite F2; exact RO).
  destruct (ensure_directory_run (fmt_opt home ++ JSON_DIR) w2 RO2)
    as (w3 & E3 & S3 & F3).
  rewrite (bind_Ok _ _ _ _ _ E3).
  assert (RO3 : read_only (fs w3) = false)
    by (rewrite (still_read_only _ _ S3); exact RO2).
  destruct (ensure_directory_run (fmt_opt home ++ TXT_DIR) w3 RO3)
    as (w4 & E4 & S4 & F4).
  rewrite (bind_Ok _ _ _ _ _ E4).
  assert (RO4 : read_only (fs w4) = false)
    by (rewrite (still_read_only _ _ S4); exact RO3).
  assert (K4 : forall q, file_at q w4 = file_at q w).
  { intros q. unfold file_at. rewrite F4, F3, F2. reflexivity. }
  destruct (open_write_run (json_path_of home base) w4 RO4)
    as (w5 & E5 & S5 & H5 & O5).
  rewrite (bind_Ok _ _ _ _ _ E5).
  assert (S15 : still w1 w5) by (repeat (eapply still_trans; eauto)).
  set (w6 := set_ticks (S (ticks w5)) w5).
  rewrite (bind_Ok (datetime_now clock) _ w5 w6 (clock (ticks w5))) by reflexivity.
  rewrite (bind_Ok get _ w6 w6 w6) by reflexivity.
  assert (Hm6 : messages w6 = messages w) by (cbn; apply (still_messages _ _ S15)).
  assert (Ht5 : ticks w5 = S (ticks w)) by apply (still_ticks _ _ S15).
  rewrite Hm6, Ht5.
  destruct (file_write_run (json_path_of home base)
              (JsonDoc (MkArtifact (isoformat (clock (S (ticks w)))) MODEL_NAME
                          (Z.of_nat (length (messages w)) - 1)
                          (skipn 1 (messages w)))) w6)
    as (w7 & E7 & S7 & H7 & O7).
  rewrite (bind_Ok _ _ _ _ _ E7).
  assert (RO7 : read_only (fs w7) = false).
  { rewrite (still_read_only _ _ S7). cbn.
    rewrite (still_read_only _ _ S5). exact RO4. }
  destruct (open_write_run (txt_path_of home base) w7 RO7)
    as (w8 & E8 & S8 & H8 & O8).
  rewrite (bind_Ok _ _ _ _ _ E8).
  destruct (file_write_run (txt_path_of home base)
              (Text (transcript_header (strftime_stamp (clock (ticks w))))) w8)
    as (w9 & E9 & S9 & H9 & O9).
  rewrite (bind_Ok _ _ _ _ _ E9).
  destruct (file_write_run (txt_path_of home base) (Text transcript_rule) w9)
    as (w10 & E10 & S10 & H10 & O10).
  rewrite (bind_Ok _ _ _ _ _ E10).
  destruct (write_lines_run (txt_path_of home base)
              (transcript_lines 0 (skipn 1 (messages w))) w10)
    as (w11 & E11 & S11 & H11 & O11).
  rewrite (bind_Ok _ _ _ _ _ E11).
  exists w11. split; [reflexivity |].
  pose proof (json_txt_paths_differ home base) as N.
  assert (N' : txt_path_of home base <> json_path_of home base) by congruence.
  split; [| split].
  - rewrite (O11 _ N'), (O10 _ N'), (O9 _ N'), (O8 _ N').
    exact (H7 [] H5).
  - rewrite (H11 _ (H10 _ (H9 _ H8))). reflexivity.
  - intros q Nj Nt.
    assert (Nj' : json_path_of home base <> q) by congruence.
    assert (Nt' : txt_path_of home base <> q) by congruence.
    rewrite (O11 _ Nt'), (O10 _ Nt'), (O9 _ Nt'), (O8 _ Nt'), (O7 _ Nj').
    change (file_at q w6) with (file_at q w5).
    rewrite (O5 _ Nj'). apply K4.
Qed.

(** X12.  Past the gate, on a disk that takes writes, [save_conversation]
    replaces whatever the two files held and changes no other file, the
    sanitizer's log included.  The JSON document holds the history without
    its first entry, and its [message_count] is the number of messages in
    it; for a history within its bound of 11 that is between 4 and 10.
    The text of the transcript has two line breaks for its header, one for
    each message, and those inside the contents, which are written as they
    are: the transcript has one line for each message only when no content
    holds a line break. *)
Theorem save_conversation_files_agree (w : World) :
  (5 <= length (messages w))%nat ->
  read_only (fs w) = false ->
  exists w' json_path txt_path doc items,
    save_conversation clock title_reply_of home w = (Ok true, w')
    /\ json_path <> txt_path
    /\ file_at json_path w' = Some [JsonDoc doc]
    /\ file_at txt_path w' = Some items
    /\ (forall q, q <> json_path -> q <> txt_path -> file_at q w' = file_at q w)
    /\ saved_messages doc = skipn 1 (messages w)
    /\ message_count doc = Z.of_nat (length (saved_messages doc))
    /\ line_breaks (file_text items)
       = (2 + length (saved_messages doc)
          + content_line_breaks (saved_messages doc))%nat
    /\ ((length (messages w) <= 11)%nat -> 4 <= message_count doc <= 10).
Proof.
  intros L RO.
  destruct (save_conversation_effect w L RO) as (w' & E & J & T & O).
  exists w'. do 4 eexists. split; [exact E |].
  split; [apply json_txt_paths_differ |].
  split; [exact J |]. split; [exact T |]. split; [exact O |].
  cbn [saved_messages message_count]. rewrite length_skipn.
  split; [reflexivity |]. split; [lia |].
  split.
  - unfold transcript. rewrite file_text_Text. cbn [concat].
    rewrite !line_breaks_app, line_breaks_header, line_breaks_transcript_lines.
    change (line_breaks transcript_rule) with 1%nat.
    rewrite length_skipn. lia.
  - intros B. lia.
Qed.

End FileProperties.

Lemma save_conversation_refused_witness :
  exists path w',
    save_conversation fixed_clock untitled_endpoint data_home
      (set_fs locked_fs (session_after (exchanges 1 2)))
    = (Raise (os_error path), w')
    /\ fs w' = locked_fs
    /\ length (calls w') = 1%nat.
Proof.
  destruct (save_conversation_refused fixed_clock untitled_endpoint data_home
              (set_fs locked_fs (session_after (exchanges 1 2))))
    as (path & w' & E & F & _ & C & _);
    [vm_compute; lia | reflexivity |].
  exists path, w'. split; [exact E |]. split; [exact F | exact C].
Defined.

Lemma save_conversation_files_agree_witness :
  exists w' json_path doc,
    save_conversation fixed_clock untitled_endpoint data_home
      (session_after (exchanges 1 2)) = (Ok true, w')
    /\ file_at json_path w' = Some [JsonDoc doc]
    /\ message_count doc = 4.
Proof.
  destruct (save_conversation_files_agree fixed_clock untitled_endpoint data_home
              (session_after (exchanges 1 2)))
    as (w' & jp & tp & doc & lines & E & _ & J & _ & _ & S & C & _);
    [vm_compute; lia | reflexivity |].
  exists w', jp, doc. split; [exact E |]. split; [exact J |].
  rewrite C, S. reflexivity.
Defined.

(** A reply of three lines is one message and three lines of the
    transcript. *)
Example transcript_of_a_reply_with_line_breaks :
  line_breaks
    (file_text
       (transcript fixed_clock
          (set_messages
             [Msg system SYSTEM_PROMPT; Msg user (py "q1");
              Msg assistant (py "one" ++ NL :: py "two" ++ NL :: py "three")]
             fresh_session)))
  = 6%nat.
Proof. vm_compute. reflexivity. Qed.

(** ** The entry point *)

Section MainProperties.

Variable fix_text : pystr -> Result pystr.
Variable clock : nat -> datetime.
Variable stream_reply_of : nat -> stream_reply.
Variable title_reply_of : nat -> title_reply.
Variable home : option pystr.
Variable api_key : option pystr.
Variable lower : pystr -> pystr.

Lemma print_history_effect (idx : nat) (msgs : list Message) (w : World) :
  print_history idx msgs w =
    (Ok tt, set_stdout (stdout w ++ history_lines idx msgs) w).
Proof.
  revert idx w. induction msgs as [| m msgs IH]; intros idx w.
  - cbn. rewrite app_nil_r. destruct w; reflexivity.
  - cbn [print_history history_lines].
    rewrite (bind_Ok (print _) _ w
               (set_stdout (stdout w ++ [history_line idx m]) w) tt)
      by reflexivity.
    rewrite IH. cbn [stdout set_stdout]. rewrite <- app_assoc. reflexivity.
Qed.

Lemma only_log_stream_chat (n : nat) :
  respects only_log (stream_chat fix_text clock stream_reply_of n).
Proof. apply only_log_stream_loop. Qed.

Lemma encodable_step_stream_chat (n : nat) :
  respects encodable_step (stream_chat fix_text clock stream_reply_of n).
Proof. apply encodable_step_stream_loop. Qed.

Lemma encodable_step_print (s : pystr) : respects encodable_step (print s).
Proof.
  apply (respects_weaken inert); [apply inert_encodable_step | apply inert_print].
Qed.

Lemma only_log_chat_loop (inputs : list input_event) :
  respects only_log (chat_loop fix_text clock stream_reply_of lower inputs).
Proof.
  pose proof only_log_print as P.
  pose proof (only_log_add_message fix_text clock) as A.
  pose proof only_log_stream_chat as S1.
  induction inputs as [| ev inputs IH]; cbn [chat_loop]; unfold get_user_input;
    frame_steps only_log_refl only_log_trans.
Qed.

Lemma encodable_step_chat_loop (inputs : list input_event) :
  respects encodable_step (chat_loop fix_text clock stream_reply_of lower inputs).
Proof.
  pose proof encodable_step_print as P.
  pose proof (encodable_step_add_message fix_text clock) as A.
  pose proof encodable_step_stream_chat as S1.
  induction inputs as [| ev inputs IH]; cbn [chat_loop]; unfold get_user_input;
    frame_steps encodable_step_refl encodable_step_trans.
Qed.

(** The constructor, with a key: the history it leaves can be encoded, it
    sends nothing, and it touches no file but the log. *)
Lemma DeepSeekChat_init_any (w : World) :
  let w1 := snd (DeepSeekChat_init fix_text clock api_key w) in
  calls w1 = calls w
  /\ only_log w w1
  /\ (forall u, fst (DeepSeekChat_init fix_text clock api_key w) = Ok u ->
      encodable_history (messages w1) = true).
Proof.
  cbv zeta. unfold DeepSeekChat_init.
  generalize api_key. intros [[| c k] |];
    try (cbn; split; [reflexivity |]; split; [apply only_log_refl | discriminate]).
  rewrite (bind_Ok (modify _) _ w (set_messages [] w) tt) by reflexivity.
  unfold _initialize_session.
  pose proof (only_log_sanitize_message_history fix_text clock
                [Msg system SYSTEM_PROMPT] (set_messages [] w)) as O.
  destruct (sanitize_message_history_any fix_text clock
              [Msg system SYSTEM_PROMPT] (set_messages [] w))
    as (r & w' & E & Q & V).
  rewrite E in O. cbn [snd] in O.
  assert (O' : only_log w w').
  { destruct O as [A B C]. split; assumption. }
  destruct r as [msgs | e].
  - rewrite (bind_Ok _ _ _ _ _ E). cbn [modify fst snd].
    cbn [calls messages set_messages].
    rewrite (quiet_calls _ _ Q). split; [reflexivity |].
    split; [destruct O' as [A B C]; split; assumption |].
    intros u _. rewrite (V msgs eq_refl). apply sanitize_history_text_encodable.
  - rewrite (bind_Raise _ _ _ _ _ E). cbn [fst snd].
    rewrite (quiet_calls _ _ Q). split; [reflexivity |].
    split; [exact O' | discriminate].
Qed.

Lemma DeepSeekChat_init_ok (c : codepoint) (k : pystr) (w : World) :
  api_key = Some (c :: k) ->
  read_only (fs w) = false ->
  exists w1,
    DeepSeekChat_init fix_text clock api_key w = (Ok tt, w1)
    /\ messages w1 = [Msg system (sanitize_text fix_text SYSTEM_PROMPT)]
    /\ read_only (fs w1) = false.
Proof.
  intros K RO. rewrite K. unfold DeepSeekChat_init.
  rewrite (bind_Ok (modify _) _ w (set_messages [] w) tt) by reflexivity.
  unfold _initialize_session.
  destruct (sanitize_message_history_ok fix_text clock
              [Msg system SYSTEM_PROMPT] (set_messages [] w) RO)
    as (w' & E & Q).
  rewrite (bind_Ok _ _ _ _ _ E). eexists. split; [reflexivity |].
  split; [reflexivity |]. cbn. rewrite (quiet_read_only _ _ Q). exact RO.
Qed.

(** The [finally] block of [main] returns when [chat] is bound. *)
Lemma report_errors_returns (w : World) :
  exists w', report_errors w = (Ok tt, w')
    /\ fs w' = fs w /\ calls w' = calls w /\ messages w' = messages w
    /\ exists tail, stdout w' = stdout w ++ tail /\ (length tail <= 1)%nat.
Proof.
  unfold report_errors, bind, get. destruct (error_log w).
  - exists w. split; [reflexivity |]. repeat (split; [reflexivity |]).
    exists []. rewrite app_nil_r. split; [reflexivity | cbn; lia].
  - eexists. split; [reflexivity |]. repeat (split; [reflexivity |]).
    eexists. split; [reflexivity | cbn; lia].
Qed.

(** X13.  When the constructor raises (no key in the environment, or the
    log refused while the system prompt is sanitized), [main] prints the
    failure line and then leaves with an exception of its own: [chat] was
    never assigned, so the [finally] block raises [UnboundLocalError] when
    it looks at it.  Nothing was read from the terminal and nothing was
    sent.  Without a key the world is otherwise untouched. *)
Theorem main_init_failure_dies_in_finally (inputs : list input_event)
    (w w1 : World) (e : exn) :
  DeepSeekChat_init fix_text clock api_key w = (Raise e, w1) ->
  main fix_text clock stream_reply_of title_reply_of home api_key lower inputs w =
    (Raise UNBOUND_CHAT,
     set_stdout (stdout w1 ++ [INIT_FAILURE ++ str_of e ++ [NL]]) w1)
  /\ calls w1 = calls w
  /\ stdout w1 = stdout w
  /\ ((api_key = None \/ api_key = Some []) ->
      w1 = w /\ class_of e = ValueError).
Proof.
  intros E. unfold main. rewrite E. split; [reflexivity |].
  pose proof (DeepSeekChat_init_any w) as (C & _ & _).
  rewrite E in C. cbn [snd] in C. split; [exact C |].
  split.
  - unfold DeepSeekChat_init in E. revert E.
    generalize api_key. intros [[| c k] |] E; try (inversion E; reflexivity).
    rewrite (bind_Ok (modify _) _ w (set_messages [] w) tt) in E
      by reflexivity.
    unfold _initialize_session in E.
    destruct (sanitize_message_history_any fix_text clock
                [Msg system SYSTEM_PROMPT] (set_messages [] w))
      as (r & w' & E' & Q & _).
    destruct r as [msgs | e'].
    + rewrite (bind_Ok _ _ _ _ _ E') in E. discriminate E.
    + rewrite (bind_Raise _ _ _ _ _ E') in E. inversion E; subst.
      apply (quiet_stdout _ _ Q).
  - intros [K | K]; rewrite K in E; cbn in E; inversion E; split; reflexivity.
Qed.

Lemma chat_loop_cut (pre rest rest' : list input_event) (ev : input_event)
    (w : World) :
  ends_session lower ev = true ->
  chat_loop fix_text clock stream_reply_of lower (pre ++ ev :: rest) w = chat_loop fix_text clock stream_reply_of lower (pre ++ ev :: rest') w.
Proof.
  intros H. revert w. induction pre as [| p pre IH]; intros w.
  - cbn [app chat_loop]. destruct ev as [s |]; [| reflexivity].
    cbn [ends_session] in H. unfold get_user_input, bind, print, modify, ret.
    rewrite H. reflexivity.
  - cbn [app chat_loop]. unfold get_user_input, bind, print, modify, ret.
    destruct p as [s |]; [| reflexivity].
    destruct (is_command (lower s)); [reflexivity |].
    destruct (strip s) as [| c0 s0]; [apply IH |].
    match goal with
    | |- context [add_message ?f ?c ?r ?x ?w0] =>
        destruct (add_message f c r x w0) as [[u | e] w1]
    end; [| reflexivity].
    destruct (stream_chat fix_text clock stream_reply_of 3 w1) as [[u' | e] w2];
      [apply IH | reflexivity].
Qed.

(** X15.  What follows the first command ([exit] or [quit], in any case
    of the letters) or the first Ctrl-C at the prompt is never read: [main]
    does the same whatever it is. *)
Theorem main_reads_nothing_after_exit (pre rest rest' : list input_event)
    (ev : input_event) (w : World) :
  ends_session lower ev = true ->
  main fix_text clock stream_reply_of title_reply_of home api_key lower (pre ++ ev :: rest) w = main fix_text clock stream_reply_of title_reply_of home api_key lower (pre ++ ev :: rest') w.
Proof.
  intros H. unfold main.
  destruct (DeepSeekChat_init fix_text clock api_key w) as [[u | e] w1];
    [| reflexivity].
  unfold try_finally, try_except.
  rewrite !(bind_Ok (print BANNER) _ w1 (snd (print BANNER w1)) tt)
    by reflexivity.
  unfold bind at 1 3.
  rewrite (chat_loop_cut pre rest rest' ev _ H). reflexivity.
Qed.

(** Input that ends without a command and without a Ctrl-C: the loop ends
    with [EOFError]. *)
Lemma chat_loop_eof (inputs : list input_event) (w : World) :
  forallb (fun ev => negb (ends_session lower ev)) inputs = true ->
  read_only (fs w) = false ->
  exists w', chat_loop fix_text clock stream_reply_of lower inputs w = (Raise EOF_ERROR, w').
Proof.
  revert w. induction inputs as [| ev inputs IH]; intros w H RO.
  - cbn. eexists. reflexivity.
  - cbn [forallb] in H. apply andb_true_iff in H. destruct H as [He Hr].
    destruct ev as [s |]; [| discriminate He].
    cbn [ends_session] in He. apply negb_true_iff in He.
    cbn [chat_loop]. unfold get_user_input.
    set (w0 := set_stdout (stdout w ++ [USER_PROMPT]) w).
    assert (G : (print USER_PROMPT ;; ret (Some s)) w = (Ok (Some s), w0))
      by reflexivity.
    rewrite (bind_Ok _ _ _ _ _ G). rewrite He.
    assert (RO0 : read_only (fs w0) = false) by exact RO.
    destruct (strip s) as [| c0 s0]; [apply (IH w0 Hr RO0) |].
    destruct (add_message_ok fix_text clock user s w0 RO0)
      as (w1 & E1 & _ & _ & _ & RO1).
    rewrite (bind_Ok _ _ _ _ _ E1).
    destruct (stream_loop_ok fix_text clock stream_reply_of 3 0 3 w1 RO1)
      as (w2 & E2 & _ & _ & _ & RO2).
    unfold stream_chat. rewrite (bind_Ok _ _ _ _ _ E2).
    apply (IH w2 Hr RO2).
Qed.

(** X16.  When the input ends without a command and without a Ctrl-C
    (a pipe, Ctrl-D), [main] does not save the conversation, however long
    it is: the [EOFError] of [input] leaves the loop, [main] reports it
    under the words it has for a failed start and returns.  No file but the
    sanitizer's log has changed, and no directory was created. *)
Theorem main_end_of_input_saves_nothing (inputs : list input_event) (w : World)
    (c : codepoint) (k : pystr) :
  api_key = Some (c :: k) ->
  read_only (fs w) = false ->
  forallb (fun ev => negb (ends_session lower ev)) inputs = true ->
  exists w' out tail,
    main fix_text clock stream_reply_of title_reply_of home api_key lower inputs w = (Ok tt, w')
    /\ stdout w' = out ++ (INIT_FAILURE ++ str_of EOF_ERROR ++ [NL]) :: tail
    /\ (length tail <= 1)%nat
    /\ only_log w w'.
Proof.
  intros K RO H. unfold main.
  pose proof (DeepSeekChat_init_any w) as (_ & O1 & _).
  destruct (DeepSeekChat_init_ok c k w K RO) as (w1 & E & _ & RO1).
  rewrite E in O1 |- *. cbn [snd] in O1.
  unfold try_finally, try_except.
  set (w1' := snd (print BANNER w1)).
  rewrite (bind_Ok (print BANNER) _ w1 w1' tt) by reflexivity.
  destruct (chat_loop_eof inputs w1' H RO1) as (w2 & E2).
  pose proof (only_log_chat_loop inputs w1') as O2.
  rewrite E2 in O2. cbn [snd] in O2.
  rewrite (bind_Raise _ _ _ _ _ E2).
  set (w3 := snd (print (INIT_FAILURE ++ str_of EOF_ERROR ++ [NL]) w2)).
  change (print (INIT_FAILURE ++ str_of EOF_ERROR ++ [NL]) w2) with (Ok tt, w3).
  destruct (report_errors_returns w3) as (w4 & R & F & _ & _ & tail & T & L).
  rewrite R. exists w4, (stdout w2), tail. split; [reflexivity |].
  split; [rewrite T; subst w3; cbn; rewrite <- app_assoc; reflexivity |].
  split; [exact L |].
  apply (only_log_trans _ _ _ O1). apply (only_log_trans w1 w1' w4).
  { apply only_log_same_fs. reflexivity. }
  apply (only_log_trans _ _ _ O2). apply only_log_same_fs.
  rewrite F. reflexivity.
Qed.

(** X17.  When the loop ends by a command or a Ctrl-C, [main] saves the
    conversation exactly when the history holds five entries or more: on a
    disk that takes writes the two files are then written from the history
    the loop left, under the title and the time of that moment; with fewer
    entries the files and the requests are as the loop left them. *)
Theorem main_saves_at_exit (inputs : list input_event) (w w1 w2 : World) :
  DeepSeekChat_init fix_text clock api_key w = (Ok tt, w1) ->
  chat_loop fix_text clock stream_reply_of lower inputs (snd (print BANNER w1)) = (Ok tt, w2) ->
  read_only (fs w2) = false ->
  let base := base_name_of (title_value title_reply_of w2)
                (strftime_stamp (clock (ticks w2))) in
  exists w',
    main fix_text clock stream_reply_of title_reply_of home api_key lower inputs w = (Ok tt, w')
    /\ ((5 <= length (messages w2))%nat ->
        file_at (json_path_of home base) w' = Some (json_artifact clock w2)
        /\ file_at (txt_path_of home base) w' = Some (transcript clock w2))
    /\ ((length (messages w2) < 5)%nat ->
        fs w' = fs w2 /\ calls w' = calls w2)
    /\ messages w' = messages w2.
Proof.
  intros E E2 RO base. unfold main. rewrite E.
  unfold try_finally, try_except.
  rewrite (bind_Ok (print BANNER) _ w1 (snd (print BANNER w1)) tt)
    by reflexivity.
  rewrite (bind_Ok _ _ _ _ _ E2).
  set (w2a := set_stdout (stdout w2 ++ [FINAL_HEADER]) w2).
  rewrite (bind_Ok (print FINAL_HEADER) _ w2 w2a tt) by reflexivity.
  rewrite (bind_Ok get _ w2a w2a w2a) by reflexivity.
  rewrite (bind_Ok _ _ _ _ _ (print_history_effect 0 (skipn 1 (messages w2a)) w2a)).
  set (w3 := set_stdout _ w2a).
  assert (M3 : messages w3 = messages w2) by reflexivity.
  assert (RO3 : read_only (fs w3) = false) by exact RO.
  destruct (Nat.lt_ge_cases (length (messages w2)) 5) as [L | L].
  - rewrite (bind_Ok _ _ _ _ _
               (save_conversation_below clock title_reply_of home w3 L)).
    unfold ret.
    destruct (report_errors_returns w3) as (w4 & R & F & C & M & _).
    rewrite R. exists w4. split; [reflexivity |].
    split; [intros L'; lia |]. split; [| rewrite M; exact M3].
    intros _. rewrite F, C. split; reflexivity.
  - destruct (save_conversation_ok clock title_reply_of home w3 L RO3)
      as (w4 & E4 & J & T & M4).
    rewrite (bind_Ok _ _ _ _ _ E4). unfold ret.
    destruct (report_errors_returns w4) as (w5 & R & F & C & M & _).
    rewrite R. exists w5. split; [reflexivity |].
    split; [| split; [intros L'; lia | rewrite M, M4; exact M3]].
    intros _. unfold file_at in *. rewrite F. split; [exact J | exact T].
Qed.

(** X18.  Whatever is typed and whatever the endpoint and the disk do,
    every content of every request [main] sends, streaming or title, can
    be encoded in UTF-8: no lone surrogate leaves the program. *)
Theorem main_requests_encodable (inputs : list input_event) (w : World) :
  exists sent,
    calls (snd (main fix_text clock stream_reply_of title_reply_of home api_key lower inputs w)) = calls w ++ sent
    /\ forallb request_encodable sent = true.
Proof.
  unfold main.
  pose proof (DeepSeekChat_init_any w) as (C & _ & H).
  destruct (DeepSeekChat_init fix_text clock api_key w) as [[u | e] w1];
    cbn [fst snd] in C, H.
  - specialize (H u eq_refl).
    pose proof encodable_step_print as P.
    pose proof encodable_step_chat_loop as L.
    pose proof (encodable_step_save_conversation clock title_reply_of home) as S1.
    assert (PH : forall i ms, respects encodable_step (print_history i ms)).
    { intros i ms w0. rewrite print_history_effect.
      apply inert_encodable_step. split; reflexivity. }
    assert (RE : respects encodable_step report_errors).
    { unfold report_errors.
      apply (respects_bind _ encodable_step_trans);
        [apply (respects_get _ encodable_step_refl) | intros w0].
      destruct (error_log w0); [apply (respects_ret _ encodable_step_refl) |].
      apply P. }
    match goal with
    | |- context [snd (try_finally ?m ?f w1)] =>
        assert (G : respects encodable_step (try_finally m f))
    end.
    { apply (respects_try_finally _ encodable_step_trans); [| exact RE].
      apply (respects_try_except _ encodable_step_trans); [| intros e; apply P].
      apply (respects_bind _ encodable_step_trans); [apply P | intros _].
      apply (respects_bind _ encodable_step_trans); [apply L | intros _].
      apply (respects_bind _ encodable_step_trans); [apply P | intros _].
      apply (respects_bind _ encodable_step_trans);
        [apply (respects_get _ encodable_step_refl) | intros w0].
      apply (respects_bind _ encodable_step_trans); [apply PH | intros _].
      apply (respects_bind _ encodable_step_trans); [apply S1 | intros saved].
      apply (respects_ret _ encodable_step_refl). }
    destruct (G w1 H) as (_ & sent & C' & F).
    exists sent. rewrite C', C. split; [reflexivity | exact F].
  - exists []. rewrite app_nil_r. split; [| reflexivity].
    unfold try_finally, print, modify, raise. cbn. exact C.
Qed.

End MainProperties.

Lemma main_init_failure_dies_in_finally_witness :
  fst (main fix_text_plain fixed_clock helpful_endpoint titled_endpoint data_home
         None lower_ascii two_questions (blank_world empty_fs))
  = Raise UNBOUND_CHAT.
Proof.
  destruct (main_init_failure_dies_in_finally fix_text_plain fixed_clock
              helpful_endpoint titled_endpoint data_home None lower_ascii
              two_questions (blank_world empty_fs) (blank_world empty_fs)
              (Exn ValueError (py "set environment DEEPSEEK_API_KEY")))
    as (E & _); [reflexivity |].
  rewrite E. reflexivity.
Defined.

Lemma main_reads_nothing_after_exit_witness :
  main fix_text_plain fixed_clock helpful_endpoint titled_endpoint data_home
    test_key lower_ascii two_questions (blank_world empty_fs)
  = main fix_text_plain fixed_clock helpful_endpoint titled_endpoint data_home
      test_key lower_ascii
      [Line (py "q1"); Line (py "  "); Line (py "q2"); Line (py "EXIT")]
      (blank_world empty_fs).
Proof.
  apply (main_reads_nothing_after_exit fix_text_plain fixed_clock
           helpful_endpoint titled_endpoint data_home test_key lower_ascii
           [Line (py "q1"); Line (py "  "); Line (py "q2")]
           [Line (py "q3")] [] (Line (py "EXIT")) (blank_world empty_fs)).
  vm_compute. reflexivity.
Defined.

Lemma main_end_of_input_saves_nothing_witness :
  exists w',
    main fix_text_plain fixed_clock helpful_endpoint titled_endpoint data_home
      test_key lower_ascii [Line (py "q1"); Line (py "q2")]
      (blank_world empty_fs) = (Ok tt, w')
    /\ files (fs w') = [].
Proof.
  destruct (main_end_of_input_saves_nothing fix_text_plain fixed_clock
              helpful_endpoint titled_endpoint data_home test_key lower_ascii
              [Line (py "q1"); Line (py "q2")] (blank_world empty_fs)
              (chr' 115) (py "k-test"))
    as (w' & out & tail & E & _); [reflexivity | reflexivity | reflexivity |].
  exists w'. split; [exact E |].
  assert (F : files (fs (snd (main fix_text_plain fixed_clock helpful_endpoint
                 titled_endpoint data_home test_key lower_ascii
                 [Line (py "q1"); Line (py "q2")] (blank_world empty_fs)))) = [])
    by (vm_compute; reflexivity).
  rewrite E in F. exact F.
Defined.

Lemma main_saves_at_exit_witness :
  exists w',
    main fix_text_plain fixed_clock helpful_endpoint titled_endpoint data_home
      test_key lower_ascii two_questions (blank_world empty_fs) = (Ok tt, w')
    /\ exists doc,
         file_at (py "/data/json/greetingshello_20240506_070809.json") w'
         = Some [JsonDoc doc]
         /\ message_count doc = 4.
Proof.
  destruct (main_saves_at_exit fix_text_plain fixed_clock helpful_endpoint
              titled_endpoint data_home test_key lower_ascii two_questions
              (blank_world empty_fs) fresh_session
              (snd (chat_loop fix_text_plain fixed_clock helpful_endpoint
                      lower_ascii two_questions (snd (print BANNER fresh_session)))))
    as (w' & E & S & _);
    [vm_compute; reflexivity | vm_compute; reflexivity | reflexivity |].
  exists w'. split; [exact E |].
  destruct S as [J _]; [vm_compute; lia |].
  eexists. split; [exact J | reflexivity].
Defined.

(** ** What the log holds *)

Lemma hex_value_from_app (acc : Z) (s t : pystr) :
  hex_value_from acc (s ++ t) =
  match hex_value_from acc s with
  | Some v => hex_value_from v t
  | None => None
  end.
Proof.
  revert acc. induction s as [| c s IH]; intros acc; cbn; [reflexivity |].
  destruct (hex_digit_value c); [apply IH | reflexivity].
Qed.

(** Read back, [n] hexadecimal digits of [z] are [z] below [16^n]. *)
Lemma hex_value_digits (n : nat) (z : Z) :
  0 <= z -> hex_value (hex_digits n z) = Some (z mod 16 ^ Z.of_nat n).
Proof.
  unfold hex_value. revert z. induction n as [| n IH]; intros z Hz.
  - cbn. rewrite Z.mod_1_r. reflexivity.
  - cbn [hex_digits]. rewrite hex_value_from_app.
    assert (Hs : 0 <= Z.shiftr z 4) by (apply Z.shiftr_nonneg; exact Hz).
    rewrite (IH _ Hs). cbn [hex_value_from].
    rewrite hex_digit_value_digit by apply land_15_range.
    f_equal. change 0xF with (Z.ones 4). rewrite land_low by lia.
    rewrite Z.shiftr_div_pow2 by lia. change (2 ^ 4) with 16.
    rewrite Nat2Z.inj_succ, Z.pow_succ_r by lia.
    rewrite (Z.rem_mul_r z 16 (16 ^ Z.of_nat n)) by lia. lia.
Qed.

Lemma take_hex_digits (n : nat) (c : codepoint) (rest : pystr) :
  ord c < 16 ^ Z.of_nat n ->
  take_hex n (hex_digits n (ord c) ++ rest) = Some (c, rest).
Proof.
  intros H. pose proof (ord_range c) as R. unfold take_hex.
  rewrite firstn_app, hex_digits_length, Nat.sub_diag, firstn_O, app_nil_r.
  rewrite firstn_all2 by (rewrite hex_digits_length; lia).
  rewrite hex_value_digits by lia. rewrite Z.mod_small by lia.
  rewrite chr_ord.
  rewrite skipn_app, hex_digits_length, Nat.sub_diag.
  rewrite skipn_all2 by (rewrite hex_digits_length; lia). reflexivity.
Qed.

(** The escape of one character can be read back, whatever follows it. *)
Lemma unescape_one_escape (c : codepoint) (rest : pystr) :
  unescape_one (unicode_escape_cp c ++ rest) = Some (c, rest).
Proof.
  pose proof (ord_range c) as R.
  assert (B : ord BACKSLASH = 92) by reflexivity.
  unfold unicode_escape_cp. cbv zeta.
  destruct (Z.eqb_spec (ord c) 92) as [E | N1].
  { assert (H : c = BACKSLASH) by (apply ord_inj; rewrite E; reflexivity).
    rewrite H. reflexivity. }
  destruct (Z.eqb_spec (ord c) 9) as [E | N2].
  { assert (H : c = chr' 9) by (apply ord_inj; rewrite E; reflexivity).
    rewrite H. reflexivity. }
  destruct (Z.eqb_spec (ord c) 10) as [E | N3].
  { assert (H : c = chr' 10) by (apply ord_inj; rewrite E; reflexivity).
    rewrite H. reflexivity. }
  destruct (Z.eqb_spec (ord c) 13) as [E | N4].
  { assert (H : c = chr' 13) by (apply ord_inj; rewrite E; reflexivity).
    rewrite H. reflexivity. }
  destruct ((ord c <? 32) || (127 <=? ord c) && (ord c <? 256)) eqn:C1.
  { assert (H : ord c < 256).
    { apply orb_true_iff in C1. destruct C1 as [C1 | C1].
      - apply Z.ltb_lt in C1. lia.
      - apply andb_true_iff in C1. destruct C1 as [_ C1].
        apply Z.ltb_lt in C1. exact C1. }
    cbn [app unescape_one]. rewrite B. cbn -[take_hex hex_digits].
    apply take_hex_digits. cbn. lia. }
  destruct (Z.ltb_spec (ord c) 256) as [L1 | L1].
  { cbn [app unescape_one]. destruct (Z.eqb_spec (ord c) 92); [lia |].
    reflexivity. }
  destruct (Z.ltb_spec (ord c) 0x10000) as [L2 | L2].
  { cbn [app unescape_one]. rewrite B. cbn -[take_hex hex_digits].
    apply take_hex_digits. cbn. lia. }
  cbn [app unescape_one]. rewrite B. cbn -[take_hex hex_digits].
  apply take_hex_digits. cbn. lia.
Qed.

Lemma unicode_escape_cp_nonempty (c : codepoint) : unicode_escape_cp c <> [].
Proof.
  intros H. pose proof (unescape_one_escape c []) as U.
  rewrite H in U. discriminate U.
Qed.

Lemma hex_digit_printable (z : Z) : printable (hex_digit (Z.land z 0xF)) = true.
Proof.
  unfold printable. pose proof (land_15_range z) as H.
  rewrite hex_digit_ord by exact H. apply in_range_true.
  destruct (Z.ltb_spec (Z.land z 0xF) 10); lia.
Qed.

Lemma hex_digits_printable (n : nat) (z : Z) :
  forallb printable (hex_digits n z) = true.
Proof.
  revert z. induction n as [| n IH]; intros z; cbn [hex_digits]; [reflexivity |].
  rewrite forallb_app, IH. cbn. rewrite hex_digit_printable. reflexivity.
Qed.

Lemma unicode_escape_cp_printable (c : codepoint) :
  forallb printable (unicode_escape_cp c) = true.
Proof.
  pose proof (ord_range c) as R.
  unfold unicode_escape_cp. cbv zeta.
  destruct (Z.eqb_spec (ord c) 92); [reflexivity |].
  destruct (Z.eqb_spec (ord c) 9); [reflexivity |].
  destruct (Z.eqb_spec (ord c) 10); [reflexivity |].
  destruct (Z.eqb_spec (ord c) 13); [reflexivity |].
  destruct ((ord c <? 32) || (127 <=? ord c) && (ord c <? 256)) eqn:C1.
  { cbn [forallb]. rewrite hex_digits_printable. reflexivity. }
  destruct (Z.ltb_spec (ord c) 256) as [L1 | L1].
  { cbn. rewrite andb_true_r. unfold printable. apply in_range_true.
    apply orb_false_iff in C1. destruct C1 as [C1 C2].
    apply Z.ltb_ge in C1. rewrite andb_true_r in C2.
    apply Z.leb_gt in C2. lia. }
  destruct (Z.ltb_spec (ord c) 0x10000);
    cbn [forallb]; rewrite hex_digits_printable; reflexivity.
Qed.

Lemma unicode_escape_printable (s : pystr) :
  forallb printable (unicode_escape s) = true.
Proof.
  unfold unicode_escape. induction s as [| c s IH]; [reflexivity |].
  cbn [flat_map]. rewrite forallb_app, unicode_escape_cp_printable, IH.
  reflexivity.
Qed.

Lemma pad_digits_printable (n : nat) (z : Z) :
  forallb printable (pad_digits n z) = true.
Proof.
  revert z. induction n as [| n IH]; intros z; cbn [pad_digits]; [reflexivity |].
  rewrite forallb_app, IH. cbn. rewrite andb_true_r.
  unfold printable, dec_digit.
  pose proof (Z.mod_pos_bound z 10 ltac:(lia)) as H.
  rewrite ord_chr' by lia. apply in_range_true. lia.
Qed.

Lemma isoformat_printable (d : datetime) : forallb printable (isoformat d) = true.
Proof.
  unfold isoformat. rewrite !forallb_app, !pad_digits_printable.
  destruct (microsecond d =? 0); [reflexivity |].
  rewrite forallb_app, pad_digits_printable. reflexivity.
Qed.

Section RecordProperties.

Variable fix_text : pystr -> Result pystr.
Variable clock : nat -> datetime.

(** X19.  The record [_log_error] appends, on either kind of disk, is
    printable ASCII in all its fields: the time stamp, the escaped original
    and the escaped cleaned text hold no line break, no control character
    and nothing outside ASCII, so each record is one line of the log. *)
Theorem _log_error_record_is_one_line (o c : pystr) (w : World) :
  exists r,
    error_log (snd (_log_error clock o c w)) = error_log w ++ [r]
    /\ (read_only (fs w) = false ->
        logged (snd (_log_error clock o c w)) = logged w ++ [LogLine r])
    /\ forallb printable (timestamp r) = true
    /\ forallb printable (original r) = true
    /\ forallb printable (cleaned r) = true.
Proof.
  destruct (_log_error_effect clock o c w) as (w' & E & L & _ & F & _).
  rewrite E. cbn [snd]. exists (log_record clock (ticks w) o c).
  split; [exact L |]. split; [intros RO; rewrite RO in F; exact F |].
  cbn [log_record timestamp original cleaned].
  rewrite isoformat_printable, !unicode_escape_printable. auto.
Qed.

(** X20.  The escaped original of a record determines the original: two
    different texts never leave the same [original] field, whenever and
    with whatever cleaned text they are logged.  The log keeps what was
    received code point for code point, lone surrogates included. *)
Theorem logged_original_is_lossless (a b : pystr) (n m : nat) (ca cb : pystr) :
  a <> b ->
  original (log_record clock n a ca) <> original (log_record clock m b cb).
Proof.
  intros D H. apply D. clear D. cbn [log_record original] in H.
  unfold unicode_escape in H.
  revert b H. induction a as [| x a IH]; intros [| y b] H; cbn [flat_map] in H.
  - reflexivity.
  - symmetry in H. apply app_eq_nil in H. destruct H as [H _].
    destruct (unicode_escape_cp_nonempty y H).
  - apply app_eq_nil in H. destruct H as [H _].
    destruct (unicode_escape_cp_nonempty x H).
  - pose proof (unescape_one_escape x (flat_map unicode_escape_cp a)) as U.
    rewrite H, unescape_one_escape in U. inversion U as [[Hx Hr]].
    f_equal. apply IH. symmetry. exact Hr.
Qed.

(** X21.  When the log is refused, [add_message] raises [OSError] and
    adds nothing: the history, the output and the requests are as before
    the call, and the text that was to be added is lost to the session. *)
Theorem add_message_refused_adds_nothing (r : Role) (c : pystr) (w : World) :
  needs_log fix_text c = true ->
  read_only (fs w) = true ->
  exists w',
    add_message fix_text clock r c w = (Raise (os_error LOG_PATH), w')
    /\ messages w' = messages w
    /\ stdout w' = stdout w
    /\ calls w' = calls w
    /\ fs w' = fs w.
Proof.
  intros N RO.
  destruct (add_message_run fix_text clock r c w) as (w' & E & M & O & C & _).
  rewrite N, RO in E, M. cbn [andb] in E, M.
  exists w'. split; [exact E |]. split; [exact M |].
  split; [exact O |]. split; [exact C |].
  unfold add_message in E.
  destruct (sanitize_str_run fix_text clock c w) as (w1 & E1 & _).
  rewrite N, RO in E1. cbn [andb] in E1.
  rewrite (bind_Raise _ _ _ _ _ E1) in E. inversion E; subst w1.
  clear E. destruct c as [| x c]; [discriminate N |].
  unfold sanitize_str, try_except, bind, lift, ret in E1.
  unfold needs_log in N.
  destruct (fix_text (x :: c)) as [t | e].
  - rewrite utf8_round_trip_wf in E1 by apply re_sub_surrogates_wf.
    rewrite N in E1.
    destruct (_log_error_effect clock (x :: c) (re_sub_surrogates t) w)
      as (w2 & E2 & _ & _ & _ & F2 & _).
    rewrite RO in E2. rewrite E2 in E1.
    destruct (_log_error_effect clock (x :: c) (str_of (os_error LOG_PATH)) w2)
      as (w3 & E3 & _ & _ & _ & F3 & _).
    assert (RO2 : read_only (fs w2) = true) by (rewrite (F2 RO); exact RO).
    rewrite RO2 in E3. rewrite E3 in E1. inversion E1; subst.
    rewrite (F3 RO2). apply F2, RO.
  - destruct (_log_error_effect clock (x :: c) (str_of e) w)
      as (w2 & E2 & _ & _ & _ & F2 & _).
    rewrite RO in E2. rewrite E2 in E1. inversion E1; subst. apply F2, RO.
Qed.

End RecordProperties.

Lemma logged_original_is_lossless_witness :
  original (log_record fixed_clock 0 lone_surrogate_text (py "a?z"))
  <> original (log_record fixed_clock 1 (py "a\ud83dz") (py "a?z")).
Proof.
  apply (logged_original_is_lossless fixed_clock lone_surrogate_text
           (py "a\ud83dz") 0 1 (py "a?z") (py "a?z")).
  vm_compute. discriminate.
Defined.

Lemma add_message_refused_adds_nothing_witness :
  exists w',
    add_message fix_text_plain fixed_clock user lone_surrogate_text
      (set_fs locked_fs fresh_session) = (Raise (os_error LOG_PATH), w')
    /\ messages w' = messages fresh_session.
Proof.
  destruct (add_message_refused_adds_nothing fix_text_plain fixed_clock user
              lone_surrogate_text (set_fs locked_fs fresh_session))
    as (w' & E & M & _); [reflexivity | reflexivity |].
  exists w'. split; [exact E | exact M].
Defined.

(** ** How much the program sends, and what the history holds *)

(** [sends_at_most n m]: in any world, [m] adds at most [n] requests to
    those sent before, and removes none. *)
Definition sends_at_most {A : Type} (n : nat) (m : M A) : Prop :=
  forall w, exists sent,
    calls (snd (m w)) = calls w ++ sent /\ (length sent <= n)%nat.

Lemma sends_none {A : Type} (m : M A) :
  respects same_calls m -> sends_at_most 0 m.
Proof.
  intros H w. exists []. rewrite app_nil_r. split; [apply H | cbn; lia].
Qed.

Lemma sends_more {A : Type} (n n' : nat) (m : M A) :
  (n <= n')%nat -> sends_at_most n m -> sends_at_most n' m.
Proof.
  intros L H w. destruct (H w) as (sent & C & B). exists sent.
  split; [exact C | lia].
Qed.

Lemma sends_bind {A B : Type} (a b : nat) (m : M A) (k : A -> M B) :
  sends_at_most a m -> (forall x, sends_at_most b (k x)) ->
  sends_at_most (a + b) (bind m k).
Proof.
  intros Hm Hk w. unfold bind. destruct (Hm w) as (s1 & C1 & B1).
  destruct (m w) as [[x | e] w1]; cbn [snd] in *.
  - destruct (Hk x w1) as (s2 & C2 & B2). exists (s1 ++ s2).
    rewrite C2, C1, <- app_assoc, length_app. split; [reflexivity | lia].
  - exists s1. split; [exact C1 | lia].
Qed.

Lemma sends_try_except {A : Type} (a b : nat) (m : M A) (h : exn -> M A) :
  sends_at_most a m -> (forall e, sends_at_most b (h e)) ->
  sends_at_most (a + b) (try_except m h).
Proof.
  intros Hm Hh w. unfold try_except. destruct (Hm w) as (s1 & C1 & B1).
  destruct (m w) as [[x | e] w1]; cbn [snd] in *.
  - exists s1. split; [exact C1 | lia].
  - destruct (Hh e w1) as (s2 & C2 & B2). exists (s1 ++ s2).
    rewrite C2, C1, <- app_assoc, length_app. split; [reflexivity | lia].
Qed.

Lemma sends_try_finally {A : Type} (a b : nat) (m : M A) (f : M unit) :
  sends_at_most a m -> sends_at_most b f ->
  sends_at_most (a + b) (try_finally m f).
Proof.
  intros Hm Hf w. unfold try_finally. destruct (Hm w) as (s1 & C1 & B1).
  destruct (m w) as [[x | e] w1]; cbn [snd] in *;
    destruct (Hf w1) as (s2 & C2 & B2);
    destruct (f w1) as [[u | e'] w2]; cbn [snd] in *;
    exists (s1 ++ s2); rewrite C2, C1, <- app_assoc, length_app;
    (split; [reflexivity | lia]).
Qed.

Lemma same_calls_print (s : pystr) : respects same_calls (print s).
Proof. intros w. reflexivity. Qed.

Lemma is_turn_sanitized (fix_text : pystr -> Result pystr) (ms : list Message) :
  forallb is_turn (sanitize_history_text fix_text ms) = forallb is_turn ms.
Proof.
  unfold sanitize_history_text. induction ms as [| m ms IH]; [reflexivity |].
  cbn [map forallb]. rewrite IH. reflexivity.
Qed.

Lemma conversation_sanitize (fix_text : pystr -> Result pystr)
    (ms : list Message) :
  conversation ms -> conversation (sanitize_history_text fix_text ms).
Proof.
  intros (c & rest & E & L & T). subst ms.
  exists (sanitize_text fix_text c), (sanitize_history_text fix_text rest).
  split; [reflexivity |]. split.
  - unfold sanitize_history_text. rewrite length_map. exact L.
  - rewrite is_turn_sanitized. exact T.
Qed.

Lemma conversation_push (m : Message) (ms : list Message) :
  is_turn m = true -> conversation ms -> conversation (push_message m ms).
Proof.
  intros Hm (c & rest & E & L & T). subst ms.
  rewrite (push_message_window m (Msg system c) rest L).
  exists c, (last_n 10 (rest ++ [m])). split; [reflexivity |]. split.
  - rewrite last_n_length. lia.
  - apply forallb_forall. intros x Hx.
    assert (F : Forall (fun y => is_turn y = true) (rest ++ [m])).
    { apply Forall_app. split.
      - apply Forall_forall. rewrite forallb_forall in T. exact T.
      - constructor; [exact Hm | constructor]. }
    apply (last_n_Forall _ 10) in F. rewrite Forall_forall in F.
    apply F, Hx.
Qed.

(** [keeps_conversation]: a history that is a conversation stays one. *)
Definition keeps_conversation (w w' : World) : Prop :=
  conversation (messages w) -> conversation (messages w').

Lemma keeps_conversation_refl (w : World) : keeps_conversation w w.
Proof. intros H. exact H. Qed.

Lemma keeps_conversation_trans (w1 w2 w3 : World) :
  keeps_conversation w1 w2 -> keeps_conversation w2 w3 ->
  keeps_conversation w1 w3.
Proof. intros H1 H2 H. apply H2, H1, H. Qed.

Lemma keeps_keeps_conversation {A : Type} (m : M A) :
  keeps m -> respects keeps_conversation m.
Proof. intros H w J. rewrite (H w). exact J. Qed.

Section Bounds.

Variable fix_text : pystr -> Result pystr.
Variable clock : nat -> datetime.
Variable stream_reply_of : nat -> stream_reply.
Variable title_reply_of : nat -> title_reply.
Variable home : option pystr.
Variable api_key : option pystr.
Variable lower : pystr -> pystr.

Lemma sends_stream_chat (n : nat) :
  sends_at_most n (stream_chat fix_text clock stream_reply_of n).
Proof.
  intros w. unfold stream_chat.
  destruct (stream_loop_sends fix_text clock stream_reply_of n 0 n w)
    as (sent & C & L & _).
  exists sent. split; assumption.
Qed.

Lemma nonblank_lines_cons (s : pystr) (inputs : list input_event) :
  nonblank_lines (Line s :: inputs) =
  if is_blank s then nonblank_lines inputs else S (nonblank_lines inputs).
Proof. unfold nonblank_lines. cbn [filter]. destruct (is_blank s); reflexivity. Qed.

(** The loop of [main] sends at most three requests for each line that is
    not blank. *)
Lemma sends_chat_loop (inputs : list input_event) :
  sends_at_most (3 * nonblank_lines inputs)
    (chat_loop fix_text clock stream_reply_of lower inputs).
Proof.
  induction inputs as [| ev inputs IH]; cbn [chat_loop]; unfold get_user_input;
    intros w.
  - exists []. rewrite app_nil_r. split; [reflexivity | cbn; lia].
  - destruct ev as [s |].
    + set (w0 := set_stdout (stdout w ++ [USER_PROMPT]) w).
      assert (G : (print USER_PROMPT ;; ret (Some s)) w = (Ok (Some s), w0))
        by reflexivity.
      rewrite (bind_Ok _ _ _ _ _ G).
      pose proof (nonblank_lines_cons s inputs) as N. unfold is_blank in N.
      destruct (is_command (lower s)).
      * exists []. rewrite app_nil_r. split; [reflexivity | cbn; lia].
      * destruct (strip s) as [| c0 s0].
        -- destruct (IH w0) as (sent & C & B). exists sent.
           split; [exact C | rewrite N; exact B].
        -- assert (T : sends_at_most (0 + (3 + 3 * nonblank_lines inputs))
                     (add_message fix_text clock user s ;;
                      stream_chat fix_text clock stream_reply_of 3 ;;
                      chat_loop fix_text clock stream_reply_of lower inputs)).
           { apply sends_bind;
               [apply sends_none, same_calls_add_message | intros _].
             apply sends_bind; [apply sends_stream_chat | intros _; exact IH]. }
           destruct (T w0) as (sent & C & B). exists sent.
           split; [exact C | rewrite N; lia].
    + exists []. rewrite app_nil_r. split; [reflexivity | cbn; lia].
Qed.

(** [save_conversation] sends at most the title request. *)
Lemma sends_save_conversation :
  sends_at_most 1 (save_conversation clock title_reply_of home).
Proof.
  intros w. unfold save_conversation.
  rewrite (bind_Ok should_save_conversation _ w w
             (5 <=? length (messages w))%nat) by reflexivity.
  destruct (5 <=? length (messages w))%nat; cbn [negb].
  2:{ exists []. rewrite app_nil_r. split; [reflexivity | cbn; lia]. }
  set (w1 := set_ticks (S (ticks w)) w).
  rewrite (bind_Ok (datetime_now clock) _ w w1 (clock (ticks w))) by reflexivity.
  rewrite (bind_Ok _ _ _ _ _ (_generate_title_effect title_reply_of w1)).
  set (w2 := set_stdout _ _). cbv beta.
  assert (I : forall (A : Type) (m : M A),
             respects inert m -> respects same_calls m).
  { intros A m. apply respects_weaken, inert_same_calls. }
  pose proof (I _ _ (inert_datetime_now clock)) as H1.
  pose proof (fun d => I _ _ (inert_ensure_directory d)) as H2.
  pose proof (fun p => I _ _ (inert_open_write p)) as H3.
  pose proof (fun p i => I _ _ (inert_file_write p i)) as H4.
  pose proof (fun p l => I _ _ (inert_write_lines p l)) as H5.
  match goal with
  | |- context [snd (?m w2)] => assert (T : respects same_calls m)
  end.
  { frame_steps same_calls_refl same_calls_trans. }
  exists (title_request w1). unfold same_calls in T. rewrite (T w2).
  split; [reflexivity |].
  unfold title_request. destruct (firstn 2 (skipn 1 (messages w1))); cbn; lia.
Qed.

Lemma same_calls_report_errors : respects same_calls report_errors.
Proof.
  intros w. destruct (report_errors_returns w) as (w' & R & _ & C & _).
  rewrite R. exact C.
Qed.

Lemma same_calls_print_history (idx : nat) (msgs : list Message) :
  respects same_calls (print_history idx msgs).
Proof. intros w. rewrite print_history_effect. reflexivity. Qed.

(** X22.  Whatever is typed and whatever the endpoint and the disk do,
    [main] sends at most three requests for each line of the input that is
    not blank, and one more for the title: no failure makes it ask without
    end. *)
Theorem main_requests_bounded (inputs : list input_event) (w : World) :
  exists sent,
    calls (snd (main fix_text clock stream_reply_of title_reply_of home api_key
                  lower inputs w))
    = calls w ++ sent
    /\ (length sent <= 3 * nonblank_lines inputs + 1)%nat.
Proof.
  unfold main.
  pose proof (DeepSeekChat_init_any fix_text clock api_key w) as (C & _ & _).
  destruct (DeepSeekChat_init fix_text clock api_key w) as [[u | e] w1];
    cbn [snd] in C.
  - pose proof (fun s => sends_none _ (same_calls_print s)) as P.
    match goal with
    | |- context [snd (try_finally ?m ?f w1)] =>
        assert (G : sends_at_most
                      ((0 + (3 * nonblank_lines inputs
                             + (0 + (0 + (0 + (1 + 0))))) + 0) + 0)
                      (try_finally m f))
    end.
    { apply sends_try_finally; [| apply sends_none, same_calls_report_errors].
      apply sends_try_except; [| intros e; apply P].
      apply sends_bind; [apply P | intros _].
      apply sends_bind; [apply sends_chat_loop | intros _].
      apply sends_bind; [apply P | intros _].
      apply sends_bind;
        [apply sends_none, respects_get; exact same_calls_refl | intros w0].
      apply sends_bind;
        [apply sends_none, same_calls_print_history | intros _].
      apply sends_bind; [apply sends_save_conversation | intros saved].
      apply sends_none, respects_ret. exact same_calls_refl. }
    destruct (G w1) as (sent & C' & B). exists sent.
    rewrite C', C. split; [reflexivity | lia].
  - exists []. rewrite app_nil_r. split; [exact C | cbn; lia].
Qed.

Lemma keeps_conversation_add_message (r : Role) (c : pystr) :
  r <> system ->
  respects keeps_conversation (add_message fix_text clock r c).
Proof.
  intros Hr w J. destruct (add_message_run fix_text clock r c w)
    as (w' & E & Hm & _).
  rewrite E. cbn [snd]. rewrite Hm.
  destruct (needs_log fix_text c && read_only (fs w)); [exact J |].
  apply conversation_push; [| exact J].
  unfold is_turn. cbn [role]. destruct r; [congruence | reflexivity ..].
Qed.

Lemma keeps_conversation_stream_attempt :
  respects keeps_conversation (stream_attempt fix_text clock stream_reply_of).
Proof.
  assert (P : forall s, respects keeps_conversation (print s))
    by (intros s; apply keeps_keeps_conversation, keeps_print).
  assert (C : forall chunks acc,
             respects keeps_conversation
               (consume_stream fix_text clock chunks acc))
    by (intros; apply keeps_keeps_conversation, keeps_consume_stream).
  assert (A : forall c,
             respects keeps_conversation
               (add_message fix_text clock assistant c))
    by (intros c; apply keeps_conversation_add_message; discriminate).
  unfold stream_attempt.
  apply (respects_bind _ keeps_conversation_trans);
    [apply (respects_get _ keeps_conversation_refl) | intros w].
  apply (respects_bind _ keeps_conversation_trans);
    [apply keeps_keeps_conversation, keeps_sanitize_message_history
    | intros safe].
  apply (respects_bind _ keeps_conversation_trans);
    [apply (respects_get _ keeps_conversation_refl) | intros w1].
  apply (respects_bind _ keeps_conversation_trans).
  { apply keeps_keeps_conversation, keeps_modify. reflexivity. }
  intros _. frame_steps keeps_conversation_refl keeps_conversation_trans.
Qed.

Lemma keeps_conversation_stream_loop (remaining attempt max_retries : nat) :
  respects keeps_conversation
    (stream_loop fix_text clock stream_reply_of remaining attempt max_retries).
Proof.
  revert attempt. induction remaining as [| r IH]; intros attempt.
  - apply keeps_keeps_conversation, keeps_print.
  - cbn [stream_loop].
    apply (respects_try_except _ keeps_conversation_trans);
      [apply keeps_conversation_stream_attempt | intros e].
    destruct (is_UnicodeEncodeError e).
    + apply (respects_bind _ keeps_conversation_trans);
        [apply keeps_keeps_conversation, keeps_print | intros _].
      intros w J. rewrite (bind_Ok get _ w w w) by reflexivity.
      destruct (sanitize_message_history_any fix_text clock (messages w) w)
        as (r2 & w1 & E & Q & V).
      destruct r2 as [msgs | e2].
      * rewrite (bind_Ok _ _ _ _ _ E).
        rewrite (bind_Ok (modify _) _ w1 (set_messages msgs w1) tt)
          by reflexivity.
        apply IH. cbn. rewrite (V msgs eq_refl).
        apply conversation_sanitize, J.
      * rewrite (bind_Raise _ _ _ _ _ E). cbn [snd].
        rewrite (quiet_messages _ _ Q). exact J.
    + apply keeps_keeps_conversation. keeps_steps.
Qed.

Lemma keeps_conversation_chat_loop (inputs : list input_event) :
  respects keeps_conversation
    (chat_loop fix_text clock stream_reply_of lower inputs).
Proof.
  assert (P : forall s, respects keeps_conversation (print s))
    by (intros s; apply keeps_keeps_conversation, keeps_print).
  assert (A : forall c,
             respects keeps_conversation (add_message fix_text clock user c))
    by (intros c; apply keeps_conversation_add_message; discriminate).
  assert (S1 : forall n,
             respects keeps_conversation
               (stream_chat fix_text clock stream_reply_of n))
    by (intros n; apply keeps_conversation_stream_loop).
  induction inputs as [| ev inputs IH]; cbn [chat_loop]; unfold get_user_input;
    frame_steps keeps_conversation_refl keeps_conversation_trans.
Qed.

Lemma DeepSeekChat_init_history (w w1 : World) :
  DeepSeekChat_init fix_text clock api_key w = (Ok tt, w1) ->
  messages w1 = [Msg system (sanitize_text fix_text SYSTEM_PROMPT)].
Proof.
  unfold DeepSeekChat_init. generalize api_key.
  intros [[| c k] |] E; try discriminate E.
  rewrite (bind_Ok (modify _) _ w (set_messages [] w) tt) in E by reflexivity.
  apply (_initialize_session_history fix_text clock _ _ E).
Qed.

(** X23.  The history of a run of [main] is a conversation: the system
    message first, then at most ten messages, each of the user or of the
    assistant.  This holds when the loop ends, which is when
    [save_conversation] takes [self.messages[1:]], so no system message is
    written to the files, and it holds when [main] ends. *)
Theorem main_history_is_a_conversation (inputs : list input_event)
    (w w1 : World) :
  DeepSeekChat_init fix_text clock api_key w = (Ok tt, w1) ->
  conversation
    (messages (snd (chat_loop fix_text clock stream_reply_of lower inputs
                      (snd (print BANNER w1)))))
  /\ conversation
       (messages (snd (main fix_text clock stream_reply_of title_reply_of home
                         api_key lower inputs w))).
Proof.
  intros E.
  assert (J : conversation (messages w1)).
  { rewrite (DeepSeekChat_init_history w w1 E).
    exists (sanitize_text fix_text SYSTEM_PROMPT), [].
    split; [reflexivity |]. split; [cbn; lia | reflexivity]. }
  split; [apply keeps_conversation_chat_loop; exact J |].
  unfold main. rewrite E.
  assert (P : forall s, respects keeps_conversation (print s))
    by (intros s; apply keeps_keeps_conversation, keeps_print).
  pose proof keeps_conversation_chat_loop as L.
  assert (PH : forall i ms, respects keeps_conversation (print_history i ms)).
  { intros i ms w0 H. rewrite print_history_effect. exact H. }
  assert (S1 : respects keeps_conversation
                 (save_conversation clock title_reply_of home))
    by apply keeps_keeps_conversation, keeps_save_conversation.
  assert (RE : respects keeps_conversation report_errors).
  { intros w0 H. destruct (report_errors_returns w0) as (w' & R & _ & _ & M & _).
    rewrite R. cbn [snd]. rewrite M. exact H. }
  match goal with
  | |- context [snd (try_finally ?m ?f w1)] =>
      assert (G : respects keeps_conversation (try_finally m f))
  end.
  { apply (respects_try_finally _ keeps_conversation_trans); [| exact RE].
    apply (respects_try_except _ keeps_conversation_trans); [| intros e; apply P].
    apply (respects_bind _ keeps_conversation_trans); [apply P | intros _].
    apply (respects_bind _ keeps_conversation_trans); [apply L | intros _].
    apply (respects_bind _ keeps_conversation_trans); [apply P | intros _].
    apply (respects_bind _ keeps_conversation_trans);
      [apply (respects_get _ keeps_conversation_refl) | intros w0].
    apply (respects_bind _ keeps_conversation_trans); [apply PH | intros _].
    apply (respects_bind _ keeps_conversation_trans); [apply S1 | intros saved].
    apply (respects_ret _ keeps_conversation_refl). }
  apply G, J.
Qed.

End Bounds.

Lemma main_history_is_a_conversation_witness :
  conversation
    (messages
       (snd (main fix_text_plain fixed_clock helpful_endpoint titled_endpoint
               data_home test_key lower_ascii two_questions
               (blank_world empty_fs)))).
Proof.
  destruct (main_history_is_a_conversation fix_text_plain fixed_clock
              helpful_endpoint titled_endpoint data_home test_key lower_ascii
              two_questions (blank_world empty_fs) fresh_session)
    as (_ & H); [vm_compute; reflexivity | exact H].
Defined.
